(** * claude-hooks: the Telegram approval broker and the configuration loader

    A shallow embedding of [src/services/telegram.ts] (the ask-and-wait
    exchange [sendTelegramMessage]) and of [src/services/config.ts]
    ([loadConfig], [clearConfigCache]), with the properties the specification
    states about them.

    Conventions of the embedding:
    - JavaScript numbers that the code uses as integers (identifiers,
      milliseconds, lengths) are [Z];
    - JavaScript strings are [string]; [String.length] counts code units;
    - [async] code is sequential state passing: every [await] is a step of a
      state-and-exception monad over an abstract world [W];
    - the unbounded [while (true)] loop takes a fuel argument counting
      iterations; a run that exhausts it is [Pending], never a result. *)

From Stdlib Require Import ZArith Lia List Bool Ascii String DecimalString Sorted.
From stdpp Require Import base decidable gmap list.

Set Warnings "-register-all".

Import ListNotations.
Local Open Scope Z_scope.
Local Open Scope string_scope.

(* ===================================================================== *)
(** ** JavaScript strings and numbers *)
(* ===================================================================== *)

Module Js.

(** [message.length]. *)
Definition length (s : string) : Z := Z.of_nat (String.length s).

(** Template-literal rendering of an integer. *)
Definition show_Z (z : Z) : string := NilZero.string_of_int (Z.to_int z).

(** Truthiness of a string: only the empty string is falsy. *)
Definition truthy (s : string) : bool :=
  match s with EmptyString => false | String _ _ => true end.

(** Truthiness of a [string | undefined]. *)
Definition truthy_opt (o : option string) : bool :=
  match o with Some s => truthy s | None => false end.

(** The one-character string holding a double quote. *)
Definition dquote : string := String (ascii_of_nat 34) EmptyString.

(** A thrown error object: its [name] ("Error", "TypeError", ...) and its
    [message]. *)
Record Error : Type := MkError { name : string; message : string }.

(** [new Error(message)]. *)
Definition new_Error (msg : string) : Error := MkError "Error" msg.

(** [`${error}`], that is [Error.prototype.toString]. *)
Definition show_Error (e : Error) : string :=
  match name e, message e with
  | EmptyString, msg => msg
  | nm, EmptyString => nm
  | nm, msg => nm ++ ": " ++ msg
  end.

End Js.

(* ===================================================================== *)
(** ** Regular expressions

    [RegExp.prototype.test] and [String.prototype.match] are builtins of the
    language.  They are modelled by a backtracking matcher for the fragment
    of the pattern syntax made of literal characters, [.], [\s], sequencing,
    alternation, greedy [*] and [+], capturing groups, [^] and [$], without
    flags (so a [RegExp] carries no [lastIndex] state). *)
(* ===================================================================== *)

Module RegExp.

Inductive regex : Type :=
| Eps
| Chr (c : ascii)
| Dot
| Space
| Seq (r1 r2 : regex)
| Alt (r1 r2 : regex)
| Star (r : regex)
| Group (i : nat) (r : regex)
| Bol
| Eol.

Definition Plus (r : regex) : regex := Seq r (Star r).

Fixpoint Lit (s : string) : regex :=
  match s with
  | EmptyString => Eps
  | String c s' => Seq (Chr c) (Lit s')
  end.

(** A compiled pattern: its source text and its syntax tree. *)
Record t : Type := mk { source : string; tree : regex }.

(** LF and CR; [.] does not match them. *)
Definition is_line_terminator (c : ascii) : bool :=
  (Ascii.eqb c "010" || Ascii.eqb c "013")%char%bool.

(** The 8-bit part of [\s]: TAB, LF, VT, FF, CR, SP, NBSP. *)
Definition is_space (c : ascii) : bool :=
  let n := nat_of_ascii c in
  ((9 <=? n) && (n <=? 13) || (n =? 32) || (n =? 160))%nat%bool.

(** Captures: group number to (start, end) offsets, latest binding first. *)
Definition captures : Type := list (nat * (nat * nat)).

Fixpoint lookup_capture (i : nat) (cs : captures) : option (nat * nat) :=
  match cs with
  | [] => None
  | (j, se) :: cs' => if (i =? j)%nat then Some se else lookup_capture i cs'
  end.

(** The groups inside a pattern. *)
Fixpoint groups (r : regex) : list nat :=
  match r with
  | Seq r1 r2 | Alt r1 r2 => groups r1 ++ groups r2
  | Star r' => groups r'
  | Group i r' => i :: groups r'
  | _ => []
  end.

(** Set the captures of the groups [inner] back to [undefined]. *)
Definition clear_captures (inner : list nat) (cs : captures) : captures :=
  List.filter (fun c => negb (List.existsb (Nat.eqb (fst c)) inner)) cs.

Section Matcher.
Variable input : list ascii.
Variable R : Type.

Definition cont : Type := nat -> captures -> option R.

(** [step r pos cs k]: match [r] at offset [pos], then continue with [k];
    [None] asks the caller to backtrack.  Each iteration of a quantified
    atom starts with the captures of the atom's own groups reset. *)
Fixpoint step (r : regex) (pos : nat) (cs : captures) (k : cont) : option R :=
  match r with
  | Eps => k pos cs
  | Chr c =>
      match nth_error input pos with
      | Some c' => if Ascii.eqb c c' then k (S pos) cs else None
      | None => None
      end
  | Dot =>
      match nth_error input pos with
      | Some c' => if is_line_terminator c' then None else k (S pos) cs
      | None => None
      end
  | Space =>
      match nth_error input pos with
      | Some c' => if is_space c' then k (S pos) cs else None
      | None => None
      end
  | Seq r1 r2 => step r1 pos cs (fun pos' cs' => step r2 pos' cs' k)
  | Alt r1 r2 =>
      match step r1 pos cs k with
      | Some x => Some x
      | None => step r2 pos cs k
      end
  | Star r' =>
      (fix loop (n : nat) (pos : nat) (cs : captures) {struct n} : option R :=
         match n with
         | O => k pos cs
         | S n' =>
             match step r' pos (clear_captures (groups r') cs)
                     (fun pos' cs' =>
                        if (pos <? pos')%nat then loop n' pos' cs' else None) with
             | Some x => Some x
             | None => k pos cs
             end
         end) (S (List.length input - pos))%nat pos cs
  | Group i r' =>
      step r' pos cs (fun pos' cs' => k pos' ((i, (pos, pos')) :: cs'))
  | Bol => if (pos =? 0)%nat then k pos cs else None
  | Eol => if (pos =? List.length input)%nat then k pos cs else None
  end.
End Matcher.

Fixpoint group_count (r : regex) : nat :=
  match r with
  | Seq r1 r2 | Alt r1 r2 => Nat.max (group_count r1) (group_count r2)
  | Star r' => group_count r'
  | Group i r' => Nat.max i (group_count r')
  | _ => 0%nat
  end.

Definition substring (input : list ascii) (s e : nat) : string :=
  string_of_list_ascii (firstn (e - s) (skipn s input)).

(** Leftmost match: try every start offset in turn. *)
Fixpoint search (input : list ascii) (r : regex) (n start : nat)
  : option (nat * nat * captures) :=
  match step input (nat * nat * captures) r start []
          (fun e cs => Some (start, e, cs)) with
  | Some x => Some x
  | None =>
      match n with
      | O => None
      | S n' => search input r n' (S start)
      end
  end.

(** [RegExpMatchArray]: the whole match, then each group ([undefined] for a
    group that did not take part). *)
Definition match_array : Type := list (option string).

(** [str.match(re)] for a pattern without flags ([None] is [null]). *)
Definition exec (re : t) (str : string) : option match_array :=
  let input := list_ascii_of_string str in
  match search input (tree re) (List.length input) 0 with
  | None => None
  | Some (s, e, cs) =>
      Some (Some (substring input s e)
              :: List.map
                   (fun i => match lookup_capture i cs with
                             | Some (gs, ge) => Some (substring input gs ge)
                             | None => None
                             end)
                   (seq 1 (group_count (tree re))))
  end.

(** [re.test(str)]. *)
Definition test (re : t) (str : string) : bool :=
  match exec re str with Some _ => true | None => false end.

End RegExp.

(* ===================================================================== *)
(** ** The Telegram service ([src/services/telegram.ts]) *)
(* ===================================================================== *)

Module Telegram.

Import Js.

(** *** Results and the data the service exchanges *)

(** What a call into the environment gives back: a value or a rejection. *)
Inductive Reply (A : Type) : Type :=
| Done (a : A)
| Failed (e : Error).
Arguments Done {A} a.
Arguments Failed {A} e.

(** What a computation of the service gives back; [Pending] is a loop that
    has not finished within its fuel. *)
Inductive Res (A : Type) : Type :=
| Ok (a : A)
| Throw (e : Error)
| Pending.
Arguments Ok {A} a.
Arguments Throw {A} e.
Arguments Pending {A}.

Inductive LogLevel : Type := debug | info | warn | error.

(** [Config] of [src/types/Config.ts]. *)
Record Config : Type := {
  logLevel : LogLevel;
  logFile : string;
  telegramEnabled : bool;
  telegramBotToken : string;
  telegramUserIds : list Z;
  telegramTimeoutMs : Z;
  telegramPollIntervalMs : Z;
  permissionHookEnabled : bool;
  permissionHookToolsAutoApproved : list string;
  permissionHookTimeoutMs : Z;
  permissionHookAllowOnTimeout : bool
}.

Inductive TelegramCallbackType : Type := inline_button | hidden.

(** [command: string | RegExp]. *)
Inductive Command : Type :=
| CmdString (s : string)
| CmdRegExp (re : RegExp.t).

(** The handler's argument, [string | RegExpMatchArray]. *)
Inductive MatchArg : Type :=
| ArgString (s : string)
| ArgMatch (m : RegExp.match_array).

Record User : Type := { user_id : Z }.

Record CallbackQuery : Type := {
  query_id : string;
  query_from : User;
  query_data : option string
}.

Record Message : Type := {
  message_from : User;
  message_text : option string
}.

Record Update : Type := {
  update_id : option Z;
  callback_query : option CallbackQuery;
  message : option Message
}.

Record InlineButton : Type := { text : string; callback_data : string }.

(** Which branch of the loop invoked a handler. *)
Inductive Source : Type :=
| FromCallbackQuery (id : string)
| FromMessage.

(** How the body of the [for] loop over a batch leaves an update. *)
Inductive Flow : Type :=
| Fall                     (* reached the end of the block *)
| Continue                 (* [continue] *)
| Return (payload : string). (* [return payload] *)

Definition TELEGRAM_MAX_LENGTH : Z := 4096.

Section Service.

(** The world outside the function: clock, log file, Telegram backend. *)
Context {W : Type}.

Record TelegramCallback : Type := {
  type : TelegramCallbackType;
  display : option string;
  command : Command;
  handler : MatchArg -> W -> W * Reply unit
}.

Record Backend : Type := {
  now : W -> Z;                                   (* Date.now() *)
  sleep : Z -> W -> W;                            (* awaited setTimeout *)
  logger_write : LogLevel -> string -> W -> W;    (* logger.debug/info/warn/error *)
  newBot : string -> Reply unit;                  (* new Bot(token) *)
  getMe : W -> W * Reply unit;
  sendMessage :
    Z -> string -> option (list (list InlineButton)) -> W -> W * Reply unit;
  getUpdates : option Z -> Z -> W -> W * Reply (list Update);
  answerCallbackQuery : string -> option string -> W -> W * Reply unit
}.

(** Everything the function does to the world, in order. *)
Inductive Event : Type :=
| EvLog (lvl : LogLevel) (msg : string)
| EvNow (t : Z)
| EvSleep (ms : Z)
| EvNewBot (token : string)
| EvGetMe
| EvSendMessage (userId : Z) (body : string)
    (inline_keyboard : option (list (list InlineButton)))
| EvGetUpdates (offset : option Z) (timeout : Z)
| EvAnswerCallbackQuery (id : string) (ack : option string)
| EvHandler (src : Source) (cb : TelegramCallback) (arg : MatchArg).

(** The calls that go to the Telegram backend. *)
Definition is_network_call (ev : Event) : bool :=
  match ev with
  | EvGetMe | EvSendMessage _ _ _ | EvGetUpdates _ _
  | EvAnswerCallbackQuery _ _ => true
  | _ => false
  end.

(** The world, the log of effects so far, and the local variable
    [lastUpdateId] (declared unassigned; it is written by the priming
    step before it is first read). *)
Record State : Type := {
  world : W;
  trace : list Event;
  lastUpdateId : Z
}.

Definition init_state (w : W) : State :=
  {| world := w; trace := []; lastUpdateId := 0 |}.

(** *** The state-and-exception monad *)

Definition M (A : Type) : Type := State -> State * Res A.

Definition ret {A} (a : A) : M A := fun st => (st, Ok a).

Definition bind {A B} (m : M A) (k : A -> M B) : M B :=
  fun st =>
    match m st with
    | (st', Ok a) => k a st'
    | (st', Throw e) => (st', Throw e)
    | (st', Pending) => (st', Pending)
    end.

Definition throw {A} (e : Error) : M A := fun st => (st, Throw e).

Definition try_catch {A} (m : M A) (h : Error -> M A) : M A :=
  fun st =>
    match m st with
    | (st', Throw e) => h e st'
    | other => other
    end.

Definition effect {A} (ev : Event) (f : W -> W * Reply A) : M A :=
  fun st =>
    let r := f (world st) in
    ({| world := fst r; trace := trace st ++ [ev];
        lastUpdateId := lastUpdateId st |},
     match snd r with Done a => Ok a | Failed e => Throw e end).

Definition set_lastUpdateId (id : Z) : M unit :=
  fun st =>
    ({| world := world st; trace := trace st; lastUpdateId := id |}, Ok tt).

Definition get_lastUpdateId : M Z := fun st => (st, Ok (lastUpdateId st)).

Notation "'let*' x ':=' m 'in' k" := (bind m (fun x => k))
  (at level 10, x name, m at level 100, k at level 200, only parsing).
Notation "'do' m 'then' k" := (bind m (fun _ => k))
  (at level 10, m at level 100, k at level 200, only parsing).

(** *** The service, against a backend [B] *)

Variable B : Backend.

Definition logger (lvl : LogLevel) (msg : string) : M unit :=
  effect (EvLog lvl msg) (fun w => (logger_write B lvl msg w, Done tt)).

Definition Date_now : M Z :=
  fun st =>
    ({| world := world st; trace := trace st ++ [EvNow (now B (world st))];
        lastUpdateId := lastUpdateId st |},
     Ok (now B (world st))).

Definition setTimeout (ms : Z) : M unit :=
  effect (EvSleep ms) (fun w => (sleep B ms w, Done tt)).

Definition validateMessageLength (message : string) : M unit :=
  if (TELEGRAM_MAX_LENGTH <? Js.length message)%Z then
    throw (new_Error ("Message length (" ++ show_Z (Js.length message)
                    ++ ") exceeds Telegram maximum ("
                    ++ show_Z TELEGRAM_MAX_LENGTH ++ ")"))
  else ret tt.

Definition initializeBot (botToken : string) : M unit :=
  do logger debug "Initializing Telegram bot" then
  do effect (EvNewBot botToken) (fun w => (w, newBot B botToken)) then
  try_catch
    (do effect EvGetMe (getMe B) then
     logger info "Telegram bot initialized successfully")
    (fun err =>
       do logger error ("Failed to initialize Telegram bot: " ++ show_Error err) then
       throw (new_Error ("Invalid Telegram bot token: " ++ show_Error err))).

Definition command_source (c : Command) : string :=
  match c with
  | CmdString s => s
  | CmdRegExp re => RegExp.source re
  end.

Definition is_inline_button (cb : TelegramCallback) : bool :=
  match type cb with inline_button => true | hidden => false end.

Definition inlineKeyboard (callbacks : list TelegramCallback) : list InlineButton :=
  List.map
    (fun cb =>
       {| text := match display cb with Some s => s | None => EmptyString end;
          callback_data := command_source (command cb) |})
    (List.filter is_inline_button callbacks).

Definition reply_markup (keyboard : list InlineButton)
  : option (list (list InlineButton)) :=
  match keyboard with
  | [] => None
  | _ :: _ => Some [keyboard]
  end.

(** [for (const userId of config.telegramUserIds)]. *)
Fixpoint send_to_all (userIds : list Z) (textToSend : string)
    (keyboard : list InlineButton) : M unit :=
  match userIds with
  | [] => ret tt
  | userId :: rest =>
      do try_catch
           (do effect (EvSendMessage userId textToSend (reply_markup keyboard))
                 (sendMessage B userId textToSend (reply_markup keyboard)) then
            logger info ("Message sent successfully to user " ++ show_Z userId))
           (fun err =>
              do logger error ("Failed to send message to user " ++ show_Z userId
                               ++ ": " ++ show_Error err) then
              throw err) then
      send_to_all rest textToSend keyboard
  end.

(** "Clear any pending updates from previous sessions". *)
Definition clear_pending_updates : M unit :=
  try_catch
    (let* oldUpdates := effect (EvGetUpdates None 0) (getUpdates B None 0) in
     match List.last (List.map Some oldUpdates) None with
     | Some lastUpdate =>
         match update_id lastUpdate with
         | Some id =>
             do set_lastUpdateId id then
             logger debug ("Cleared " ++ show_Z (Z.of_nat (List.length oldUpdates))
                           ++ " old update(s), starting from update_id "
                           ++ show_Z id)
         | None => set_lastUpdateId 0
         end
     | None => set_lastUpdateId 0
     end)
    (fun err =>
       do logger debug ("Error clearing old updates: " ++ show_Error err) then
       set_lastUpdateId 0).

(** [cb.command === input] or [cb.command.test(input)]. *)
Definition command_matches (c : Command) (input : string) : bool :=
  match c with
  | CmdString s => String.eqb s input
  | CmdRegExp re => RegExp.test re input
  end.

(** The predicate of [callbacks.find] for a button press. *)
Definition matches_callback_data (callbackData : string) (cb : TelegramCallback) : bool :=
  match type cb with
  | hidden => false
  | inline_button => command_matches (command cb) callbackData
  end.

(** The predicate of [callbacks.find] for a text message. *)
Definition matches_text (input : string) (cb : TelegramCallback) : bool :=
  command_matches (command cb) input.

(** [match || input], the argument handed to the handler. *)
Definition handler_argument (cb : TelegramCallback) (input : string) : MatchArg :=
  match command cb with
  | CmdString _ => ArgString input
  | CmdRegExp re =>
      match RegExp.exec re input with
      | Some m => ArgMatch m
      | None => ArgString input
      end
  end.

Definition invoke_handler (src : Source) (cb : TelegramCallback) (arg : MatchArg)
  : M unit :=
  effect (EvHandler src cb arg) (handler cb arg).

Definition authorized (userIdSet : gset Z) (fromId : Z) : bool :=
  bool_decide (fromId ∈ userIdSet).

Section Loop.
Variable callbacks : list TelegramCallback.
Variable config : Config.
Variable pollIntervalMs : Z.
Variable startTime : Z.
Variable userIdSet : gset Z.

(** [if (update.callback_query) { ... }]. *)
Definition handle_callback_query (query : CallbackQuery) : M Flow :=
  let fromId := user_id (query_from query) in
  if negb (authorized userIdSet fromId) then
    do logger debug ("Ignoring callback from unauthorized user " ++ show_Z fromId) then
    ret Continue
  else
    match query_data query with
    | None => ret Continue
    | Some callbackData =>
        if negb (truthy callbackData) then ret Continue
        else
          match List.find (matches_callback_data callbackData) callbacks with
          | Some matchedCallback =>
              do logger info ("Received callback: " ++ callbackData) then
              do effect (EvAnswerCallbackQuery (query_id query) (Some "✓ Received"))
                   (answerCallbackQuery B (query_id query) (Some "✓ Received")) then
              do invoke_handler (FromCallbackQuery (query_id query)) matchedCallback
                   (handler_argument matchedCallback callbackData) then
              ret (Return callbackData)
          | None =>
              do logger debug ("Ignoring unknown callback: " ++ callbackData) then
              do effect (EvAnswerCallbackQuery (query_id query) None)
                   (answerCallbackQuery B (query_id query) None) then
              ret Fall
          end
    end.

(** [if (update.message && update.message.text) { ... }]. *)
Definition handle_message (msg : Message) : M Flow :=
  match message_text msg with
  | None => ret Fall
  | Some txt =>
      if negb (truthy txt) then ret Fall
      else
        let fromId := user_id (message_from msg) in
        do logger debug ("Received text message from user " ++ show_Z fromId
                         ++ ": " ++ dquote ++ txt ++ dquote) then
        if negb (authorized userIdSet fromId) then
          do logger debug ("Ignoring message from unauthorized user "
                           ++ show_Z fromId) then
          ret Continue
        else
          match List.find (matches_text txt) callbacks with
          | Some matchedCallback =>
              do logger info ("Received message matching callback: " ++ txt) then
              do invoke_handler FromMessage matchedCallback
                   (handler_argument matchedCallback txt) then
              ret (Return txt)
          | None =>
              do logger debug ("Ignoring unmatched message: " ++ txt) then
              ret Fall
          end
  end.

(** The body of [for (const update of updates)]. *)
Definition process_update (update : Update) : M Flow :=
  do match update_id update with
     | Some id => set_lastUpdateId id
     | None => ret tt
     end then
  let* flow := match callback_query update with
               | Some query => handle_callback_query query
               | None => ret Fall
               end in
  match flow with
  | Fall =>
      match message update with
      | Some msg => handle_message msg
      | None => ret Fall
      end
  | Continue => ret Continue
  | Return payload => ret (Return payload)
  end.

(** [for (const update of updates)]: [Some payload] when the function
    returns from inside the loop. *)
Fixpoint for_updates (updates : list Update) : M (option string) :=
  match updates with
  | [] => ret None
  | update :: rest =>
      let* flow := process_update update in
      match flow with
      | Return payload => ret (Some payload)
      | Fall | Continue => for_updates rest
      end
  end.

(** "Check timeout", the head of the [while] body. *)
Definition check_timeout : M unit :=
  if (0 <? telegramTimeoutMs config)%Z then
    let* t := Date_now in
    let elapsed := t - startTime in
    if (telegramTimeoutMs config <=? elapsed)%Z then
      do logger warn ("Timeout waiting for Telegram response ("
                      ++ show_Z (telegramTimeoutMs config) ++ "ms)") then
      throw (new_Error "timeout waiting for response")
    else ret tt
  else ret tt.

(** "Poll for updates", the [try] block and its [catch]. *)
Definition poll_updates : M (option string) :=
  try_catch
    (let* last := get_lastUpdateId in
     let* updates := effect (EvGetUpdates (Some (last + 1)) 0)
                       (getUpdates B (Some (last + 1)) 0) in
     do (if (0 <? Z.of_nat (List.length updates))%Z then
           logger debug ("Received " ++ show_Z (Z.of_nat (List.length updates))
                         ++ " update(s) from Telegram")
         else ret tt) then
     for_updates updates)
    (fun err =>
       do logger error ("Error polling Telegram updates: " ++ show_Error err) then
       ret None).

(** [while (true) { ... }], at most [fuel] iterations. *)
Fixpoint poll_loop (fuel : nat) : M string :=
  match fuel with
  | O => fun st => (st, Pending)
  | S fuel' =>
      do check_timeout then
      let* result := poll_updates in
      match result with
      | Some payload => ret payload
      | None =>
          do setTimeout pollIntervalMs then
          poll_loop fuel'
      end
  end.

End Loop.

(** [Math.max(config.telegramPollIntervalMs, 1000)], for a configuration
    whose [telegramPollIntervalMs] is an integer, as the interface [Config]
    declares it; [loadConfig] does not check that the field is there. *)
Definition poll_interval (config : Config) : Z :=
  Z.max (telegramPollIntervalMs config) 1000.

(** The first half of [sendTelegramMessage]: validation, bot
    initialization and delivery to every configured user. *)
Definition deliver (textToSend : string) (callbacks : list TelegramCallback)
    (config : Config) : M unit :=
  do logger debug "Sending Telegram message" then
  do validateMessageLength textToSend then
  let pollIntervalMs := poll_interval config in
  do logger debug ("Using poll interval: " ++ show_Z pollIntervalMs ++ "ms") then
  do initializeBot (telegramBotToken config) then
  let keyboard := inlineKeyboard callbacks in
  send_to_all (telegramUserIds config) textToSend keyboard.

(** The second half, from the comment "Wait for response" on. *)
Definition wait_for_response (fuel : nat) (callbacks : list TelegramCallback)
    (config : Config) : M string :=
  let* startTime := Date_now in
  let userIdSet : gset Z := list_to_set (telegramUserIds config) in
  do clear_pending_updates then
  poll_loop callbacks config (poll_interval config) startTime userIdSet fuel.

Definition sendTelegramMessage (fuel : nat) (textToSend : string)
    (callbacks : list TelegramCallback) (config : Config) : M string :=
  do deliver textToSend callbacks config then
  wait_for_response fuel callbacks config.

End Service.

End Telegram.

(* ===================================================================== *)
(** ** A scripted backend

    A concrete world for running the service: a clock, and the replies the
    backend will give to the successive [getUpdates] calls, each with the
    time the call takes.  Everything else succeeds at once. *)
(* ===================================================================== *)

Module Scripted.

Import Js Telegram.

Record Poll : Type := { latency : N; reply : Reply (list Update) }.

Record World : Type := {
  clock : Z;
  polls : list Poll;
  acknowledged : list (string * option string);
  handled : list MatchArg
}.

Definition start (script : list Poll) : World :=
  {| clock := 0; polls := script; acknowledged := []; handled := [] |}.

Definition advance (ms : Z) (w : World) : World :=
  {| clock := clock w + ms; polls := polls w;
     acknowledged := acknowledged w; handled := handled w |}.

Definition fetch (w : World) : World * Reply (list Update) :=
  match polls w with
  | [] => (w, Done [])
  | p :: rest =>
      ({| clock := clock w + Z.of_N (latency p); polls := rest;
          acknowledged := acknowledged w; handled := handled w |},
       reply p)
  end.

Definition acknowledge (id : string) (ack : option string) (w : World)
  : World * Reply unit :=
  ({| clock := clock w; polls := polls w;
      acknowledged := acknowledged w ++ [(id, ack)]; handled := handled w |},
   Done tt).

Definition backend : Backend (W := World) :=
  {| now := clock;
     sleep := advance;
     logger_write := fun _ _ w => w;
     newBot := fun _ => Done tt;
     getMe := fun w => (w, Done tt);
     sendMessage := fun _ _ _ w => (w, Done tt);
     getUpdates := fun _ _ => fetch;
     answerCallbackQuery := acknowledge |}.

(** The same backend with every update dropped from the batches it returns:
    a backend that never produces a matching event.  With [lag] the calls
    still take the time of the script; without, they take none. *)
Definition fetch_muted (lag : bool) (w : World) : World * Reply (list Update) :=
  match polls w with
  | [] => (w, Done [])
  | p :: rest =>
      ({| clock := clock w + (if lag then Z.of_N (latency p) else 0); polls := rest;
          acknowledged := acknowledged w; handled := handled w |},
       match reply p with
       | Done _ => Done []
       | Failed e => Failed e
       end)
  end.

Definition muted (lag : bool) : Backend (W := World) :=
  {| now := clock;
     sleep := advance;
     logger_write := fun _ _ w => w;
     newBot := fun _ => Done tt;
     getMe := fun w => (w, Done tt);
     sendMessage := fun _ _ _ w => (w, Done tt);
     getUpdates := fun _ _ => fetch_muted lag;
     answerCallbackQuery := acknowledge |}.

(** The same backend with the credentials check failing. *)
Definition rejecting : Backend (W := World) :=
  {| now := clock;
     sleep := advance;
     logger_write := fun _ _ w => w;
     newBot := fun _ => Done tt;
     getMe := fun w => (w, Failed (MkError "GrammyError" "401: Unauthorized"));
     sendMessage := fun _ _ _ w => (w, Done tt);
     getUpdates := fun _ _ => fetch;
     answerCallbackQuery := acknowledge |}.

(** The same backend with one user the message cannot be sent to. *)
Definition unreachable (blocked : Z) : Backend (W := World) :=
  {| now := clock;
     sleep := advance;
     logger_write := fun _ _ w => w;
     newBot := fun _ => Done tt;
     getMe := fun w => (w, Done tt);
     sendMessage := fun userId _ _ w =>
       (w, if (userId =? blocked)%Z
           then Failed (MkError "GrammyError" "400: chat not found")
           else Done tt);
     getUpdates := fun _ _ => fetch;
     answerCallbackQuery := acknowledge |}.

(** A handler that records its argument. *)
Definition recording : MatchArg -> World -> World * Reply unit :=
  fun arg w =>
    ({| clock := clock w; polls := polls w;
        acknowledged := acknowledged w; handled := handled w ++ [arg] |},
     Done tt).

(** A handler that records its argument and then fails. *)
Definition failing : MatchArg -> World -> World * Reply unit :=
  fun arg w => (fst (recording arg w), Failed (new_Error "handler failed")).

Definition button (label pattern : string)
    (h : MatchArg -> World -> World * Reply unit) : TelegramCallback :=
  {| type := inline_button; display := Some label;
     command := CmdString pattern; handler := h |}.

Definition config (userIds : list Z) (timeoutMs pollMs : Z) : Config :=
  {| logLevel := info; logFile := "./logs.log"; telegramEnabled := true;
     telegramBotToken := "token"; telegramUserIds := userIds;
     telegramTimeoutMs := timeoutMs; telegramPollIntervalMs := pollMs;
     permissionHookEnabled := false; permissionHookToolsAutoApproved := [];
     permissionHookTimeoutMs := 600000; permissionHookAllowOnTimeout := false |}.

Definition activation (id : Z) (qid : string) (fromId : Z) (data : string) : Update :=
  {| update_id := Some id;
     callback_query := Some {| query_id := qid; query_from := {| user_id := fromId |};
                               query_data := Some data |};
     message := None |}.

Definition text_message (id : Z) (fromId : Z) (body : string) : Update :=
  {| update_id := Some id;
     callback_query := None;
     message := Some {| message_from := {| user_id := fromId |};
                        message_text := Some body |} |}.

Definition instant (updates : list Update) : Poll :=
  {| latency := 0%N; reply := Done updates |}.

(** Run the whole exchange from the start of a script. *)
Definition ask (fuel : nat) (body : string) (callbacks : list TelegramCallback)
    (cfg : Config) (script : list Poll) : State * Res string :=
  sendTelegramMessage backend fuel body callbacks cfg (init_state (start script)).

End Scripted.

(* ===================================================================== *)
(** ** The configuration loader ([src/services/config.ts]) *)
(* ===================================================================== *)

Module ConfigService.

Import Js.

(** A value produced by [JSON.parse].  A [Config] is, at run time, such an
    object: the annotation [const config: Config = JSON.parse(text)] checks
    nothing. *)
Inductive Json : Type :=
| JNull
| JBool (b : bool)
| JNumber (n : Z)
| JString (s : string)
| JArray (items : list Json)
| JObject (fields : list (string * Json)).

(** [value.key]: reading a property of [null] throws a [TypeError]; a
    missing property is [undefined] ([None]). *)
Fixpoint assoc (key : string) (fields : list (string * Json)) : option Json :=
  match fields with
  | [] => None
  | (k, v) :: rest => if String.eqb key k then Some v else assoc key rest
  end.

Definition get_property (value : Json) (key : string) : Telegram.Reply (option Json) :=
  match value with
  | JNull =>
      Telegram.Failed
        (MkError "TypeError"
           ("null is not an object (evaluating 'config." ++ key ++ "')"))
  | JObject fields => Telegram.Done (assoc key fields)
  | _ => Telegram.Done None
  end.

Definition truthy_json (value : Json) : bool :=
  match value with
  | JNull => false
  | JBool b => b
  | JNumber n => negb (n =? 0)%Z
  | JString s => truthy s
  | JArray _ | JObject _ => true
  end.

Definition truthy_property (value : option Json) : bool :=
  match value with
  | Some v => truthy_json v
  | None => false
  end.

(** [DEFAULT_CONFIG] of [src/types/Config.ts]. *)
Definition DEFAULT_CONFIG : Json :=
  JObject
    [ ("logLevel", JString "info");
      ("logFile", JString "./logs.log");
      ("telegramEnabled", JBool false);
      ("telegramBotToken", JString EmptyString);
      ("telegramUserIds", JArray []);
      ("telegramTimeoutMs", JNumber 600000);
      ("telegramPollIntervalMs", JNumber 10000);
      ("permissionHookEnabled", JBool false);
      ("permissionHookToolsAutoApproved", JArray []);
      ("permissionHookTimeoutMs", JNumber 600000);
      ("permissionHookAllowOnTimeout", JBool false) ].

(** [{ ...DEFAULT_CONFIG }]: a fresh object with the same properties. *)
Definition spread (value : Json) : Json :=
  match value with
  | JObject fields => JObject fields
  | _ => JObject []
  end.

(** What [Bun.file("./config.json")] answers at the time of a call. *)
Record File : Type := {
  file_exists : Telegram.Reply bool;
  file_text : Telegram.Reply string
}.

Inductive Console : Type :=
| console_warn (msg : string)
| console_error (msg : string).

(** The module-level [cachedConfig] ([None] is [null]) and the console. *)
Record State : Type := {
  cachedConfig : option Json;
  console : list Console
}.

Definition initial : State := {| cachedConfig := None; console := [] |}.

Definition M (A : Type) : Type := State -> State * Telegram.Reply A.

Definition ret {A} (a : A) : M A := fun st => (st, Telegram.Done a).

Definition bind {A B} (m : M A) (k : A -> M B) : M B :=
  fun st =>
    match m st with
    | (st', Telegram.Done a) => k a st'
    | (st', Telegram.Failed e) => (st', Telegram.Failed e)
    end.

Definition throw {A} (e : Error) : M A := fun st => (st, Telegram.Failed e).

Definition try_catch {A} (m : M A) (h : Error -> M A) : M A :=
  fun st =>
    match m st with
    | (st', Telegram.Failed e) => h e st'
    | other => other
    end.

Definition await {A} (r : Telegram.Reply A) : M A := fun st => (st, r).

Definition print (line : Console) : M unit :=
  fun st =>
    ({| cachedConfig := cachedConfig st; console := console st ++ [line] |},
     Telegram.Done tt).

Definition set_cachedConfig (value : Json) : M unit :=
  fun st =>
    ({| cachedConfig := Some value; console := console st |}, Telegram.Done tt).

Notation "'let*' x ':=' m 'in' k" := (bind m (fun x => k))
  (at level 10, x name, m at level 100, k at level 200, only parsing).
Notation "'do' m 'then' k" := (bind m (fun _ => k))
  (at level 10, m at level 100, k at level 200, only parsing).

Section Loader.

(** [JSON.parse], a builtin of the language. *)
Variable JSON_parse : string -> Telegram.Reply Json.

(** The state of [./config.json] when the call is made. *)
Variable file : File.

Definition use_defaults : M Json :=
  do set_cachedConfig (spread DEFAULT_CONFIG) then
  ret (spread DEFAULT_CONFIG).

(** The [try] block and its [catch]. *)
Definition load_from_file : M Json :=
  try_catch
    (let* present := await (file_exists file) in
     if negb present then
       do print (console_warn "config.json not found, using defaults") then
       use_defaults
     else
       let* body := await (file_text file) in
       let* config := await (JSON_parse body) in
       let* level := await (get_property config "logLevel") in
       let* missing :=
         (if negb (truthy_property level) then ret true
          else
            let* path := await (get_property config "logFile") in
            ret (negb (truthy_property path))) in
       if (missing : bool) then
         throw (new_Error "Invalid config: missing required fields")
       else
         do set_cachedConfig config then
         ret config)
    (fun err =>
       do print (console_error ("Error loading config: " ++ show_Error err)) then
       use_defaults).

Definition loadConfig : M Json :=
  fun st =>
    match cachedConfig st with
    | Some cached =>
        (* [if (cachedConfig)] tests the cached value for truthiness *)
        if truthy_json cached then (st, Telegram.Done cached)
        else load_from_file st
    | None => load_from_file st
    end.

End Loader.

Definition clearConfigCache : M unit :=
  fun st => ({| cachedConfig := None; console := console st |}, Telegram.Done tt).

(** The configuration a readable, well-formed file provides: it exists, its
    text parses, and the parsed value has truthy [logLevel] and [logFile]. *)
Definition usable_file (JSON_parse : string -> Telegram.Reply Json) (file : File)
  : option Json :=
  match file_exists file, file_text file with
  | Telegram.Done true, Telegram.Done body =>
      match JSON_parse body with
      | Telegram.Done (JObject fields) =>
          if truthy_property (assoc "logLevel" fields)
             && truthy_property (assoc "logFile" fields)
          then Some (JObject fields) else None
      | _ => None
      end
  | _, _ => None
  end.

End ConfigService.

(* ===================================================================== *)
(** ** String builtins used by the hooks and the transcript reader *)
(* ===================================================================== *)

Module JsText.

Import Js.

(** How [slice] reads an index: a negative one counts from the end, and the
    result is clamped to the string. *)
Definition clamp_index (len i : Z) : Z :=
  if (i <? 0)%Z then Z.max (len + i) 0 else Z.min i len.

(** [s.slice(start, end)] for integer arguments. *)
Definition slice (s : string) (start finish : Z) : string :=
  let len := Js.length s in
  let from := clamp_index len start in
  let to := clamp_index len finish in
  string_of_list_ascii
    (firstn (Z.to_nat (to - from)) (skipn (Z.to_nat from) (list_ascii_of_string s))).

(** [s.trim()]: white space and line terminators go, at both ends. *)
Fixpoint trim_start (l : list ascii) : list ascii :=
  match l with
  | c :: l' => if RegExp.is_space c then trim_start l' else l
  | [] => []
  end.

Definition trim (s : string) : string :=
  string_of_list_ascii
    (rev (trim_start (rev (trim_start (list_ascii_of_string s))))).

(** [s.trim()] is the empty string. *)
Definition is_blank (s : string) : bool := negb (truthy (trim s)).

(** [s.split("\n")]: always at least one piece. *)
Fixpoint split_lines (s : string) : list string :=
  match s with
  | EmptyString => [EmptyString]
  | String c s' =>
      if Ascii.eqb c "010"%char then EmptyString :: split_lines s'
      else
        match split_lines s' with
        | first :: rest => String c first :: rest
        | [] => [String c EmptyString]
        end
  end.

End JsText.

(* ===================================================================== *)
(** ** Helpers of the hooks ([src/hooks/stop.ts], [src/hooks/permission.ts]) *)
(* ===================================================================== *)

Module Hooks.

Import Js.

(** "Maximum length for tool input display". *)
Definition MAX_TOOL_INPUT_LENGTH : Z := 2000.

(** [truncateMessage], defined alike in both hooks. *)
Definition truncateMessage (message : string) (maxLength : Z) : string :=
  if (Js.length message <=? maxLength)%Z then message
  else JsText.slice message 0 (maxLength - 3) ++ "...".

Section ToolInput.

(** [JSON.stringify(value, null, 2)], a builtin of the language; it may
    throw. *)
Variable JSON_stringify : ConfigService.Json -> Telegram.Reply string.

(** [formatToolInput]; [None] is an [undefined] tool input. *)
Definition formatToolInput (toolInput : option ConfigService.Json) : string :=
  match toolInput with
  | None | Some ConfigService.JNull => "(no parameters)"
  | Some value =>
      match JSON_stringify value with
      | Telegram.Done inputStr => truncateMessage inputStr MAX_TOOL_INPUT_LENGTH
      | Telegram.Failed _ => "(unable to display parameters)"
      end
  end.

End ToolInput.

End Hooks.

(* ===================================================================== *)
(** ** The transcript reader ([src/services/transcriptReader.ts])

    Entries have the shape the interfaces of [src/types/TranscriptMessage.ts]
    declare; turning a line into an entry ([JSON.parse] and the annotation
    [const entry: TranscriptEntry]) is a parameter, which may throw. *)
(* ===================================================================== *)

Module Transcript.

Import Js.

Record TranscriptContent : Type := {
  block_type : string;
  block_text : option string
}.

(** [content: string | TranscriptContent[]]. *)
Inductive Content : Type :=
| ContentString (s : string)
| ContentBlocks (blocks : list TranscriptContent).

Record TranscriptMessage : Type := {
  role : string;
  content : Content
}.

Record TranscriptEntry : Type := {
  entry_type : string;
  entry_message : option TranscriptMessage
}.

Record LastMessagesResult : Type := {
  lastUserMessage : option string;
  lastAssistantMessage : option string
}.

Inductive Mode : Type := all | last.

(** [block.text], or the empty string when it is falsy. *)
Definition text_or_empty (block : TranscriptContent) : string :=
  match block_text block with
  | Some s => s
  | None => EmptyString
  end.

Definition is_text (block : TranscriptContent) : bool :=
  String.eqb (block_type block) "text".

Definition extractTextContent (c : Content) (mode : Mode) : string :=
  match c with
  | ContentString s => s
  | ContentBlocks blocks =>
      let textBlocks := List.filter is_text blocks in
      match mode with
      | last =>
          match List.last (List.map Some textBlocks) None with
          | Some lastBlock => text_or_empty lastBlock
          | None => EmptyString
          end
      | all => String.concat EmptyString (List.map text_or_empty textBlocks)
      end
  end.

Definition isToolResult (c : Content) : bool :=
  match c with
  | ContentString _ => false
  | ContentBlocks blocks =>
      List.existsb (fun block => String.eqb (block_type block) "tool_result") blocks
  end.

(** What [Bun.file(transcript_path)] answers. *)
Record File : Type := {
  file_exists : Telegram.Reply bool;
  file_text : Telegram.Reply string
}.

(** The local variables of the loop and the console. *)
Record State : Type := {
  lastUser : option string;
  lastAssistant : option string;
  console : list ConfigService.Console
}.

Definition nothing : LastMessagesResult :=
  {| lastUserMessage := None; lastAssistantMessage := None |}.

Section Reader.

Variable parse_entry : string -> Telegram.Reply TranscriptEntry.

(** The body of [for (const line of lines)], with its [try] and [catch]. *)
Definition read_line (line : string) (st : State) : State :=
  match parse_entry line with
  | Telegram.Failed parseError =>
      {| lastUser := lastUser st; lastAssistant := lastAssistant st;
         console := console st
                    ++ [ConfigService.console_warn
                          ("Failed to parse transcript line: " ++ show_Error parseError)] |}
  | Telegram.Done entry =>
      match entry_message entry with
      | None => st
      | Some msg =>
          let st1 :=
            if String.eqb (entry_type entry) "user" && negb (isToolResult (content msg))
            then {| lastUser := Some (extractTextContent (content msg) all);
                    lastAssistant := lastAssistant st; console := console st |}
            else st in
          if String.eqb (entry_type entry) "assistant"
          then {| lastUser := lastUser st1;
                  lastAssistant := Some (extractTextContent (content msg) last);
                  console := console st1 |}
          else st1
      end
  end.

Definition read_lines (lines : list string) (st : State) : State :=
  List.fold_left (fun acc line => read_line line acc) lines st.

(** The lines of [text.split] on line feeds whose [trim] is not empty. *)
Definition lines_of (body : string) : list string :=
  List.filter (fun line => negb (JsText.is_blank line)) (JsText.split_lines body).

Definition getLastUserAndAssistantMessages (transcript_path : string) (file : File)
  : LastMessagesResult * list ConfigService.Console :=
  match file_exists file with
  | Telegram.Failed err =>
      (nothing, [ConfigService.console_error ("Error reading transcript: " ++ show_Error err)])
  | Telegram.Done false =>
      (nothing,
       [ConfigService.console_error ("Transcript file not found: " ++ transcript_path)])
  | Telegram.Done true =>
      match file_text file with
      | Telegram.Failed err =>
          (nothing,
           [ConfigService.console_error ("Error reading transcript: " ++ show_Error err)])
      | Telegram.Done body =>
          if JsText.is_blank body then (nothing, [])
          else
            let st := read_lines (lines_of body)
                        {| lastUser := None; lastAssistant := None; console := [] |} in
            ({| lastUserMessage := lastUser st;
                lastAssistantMessage := lastAssistant st |}, console st)
      end
  end.

(** The text a line contributes as a user message: it parses to an entry
    of type "user" with a message that is not a tool result. *)
Definition user_text (line : string) : option string :=
  match parse_entry line with
  | Telegram.Done entry =>
      match entry_message entry with
      | Some msg =>
          if String.eqb (entry_type entry) "user" && negb (isToolResult (content msg))
          then Some (extractTextContent (content msg) all)
          else None
      | None => None
      end
  | Telegram.Failed _ => None
  end.

(** The text a line contributes as an assistant message. *)
Definition assistant_text (line : string) : option string :=
  match parse_entry line with
  | Telegram.Done entry =>
      match entry_message entry with
      | Some msg =>
          if String.eqb (entry_type entry) "assistant"
          then Some (extractTextContent (content msg) last)
          else None
      | None => None
      end
  | Telegram.Failed _ => None
  end.

(** The warning a line causes, if it does not parse. *)
Definition parse_warning (line : string) : list ConfigService.Console :=
  match parse_entry line with
  | Telegram.Failed parseError =>
      [ConfigService.console_warn
         ("Failed to parse transcript line: " ++ show_Error parseError)]
  | Telegram.Done _ => []
  end.

(** The contribution of the last line that has one. *)
Definition latest (contribution : string -> option string) (lines : list string)
  : option string :=
  match List.find (fun line => match contribution line with
                               | Some _ => true
                               | None => false
                               end) (List.rev lines) with
  | Some line => contribution line
  | None => None
  end.

End Reader.

End Transcript.

(* ===================================================================== *)
(** ** The installer ([install-hooks.ts]): merging the hooks into the
    settings

    [settings.hooks] is an object from hook names to arrays of entries, of
    the shape the interface [ClaudeSettings] declares; its keys are kept in
    insertion order, as a JavaScript object keeps them. *)
(* ===================================================================== *)

Module Installer.

Import Js.

Record HookConfig : Type := { hook_type : string; hook_command : string }.

Record HookEntry : Type := { entry_hooks : list HookConfig }.

Definition HooksObject : Type := list (string * list HookEntry).

(** [object[name]]; [None] is [undefined]. *)
Fixpoint lookup (name : string) (object : HooksObject) : option (list HookEntry) :=
  match object with
  | [] => None
  | (key, value) :: rest =>
      if String.eqb name key then Some value else lookup name rest
  end.

(** [object[name] = value]: in place for an existing key, at the end for a
    new one. *)
Fixpoint store (name : string) (value : list HookEntry) (object : HooksObject)
  : HooksObject :=
  match object with
  | [] => [(name, value)]
  | (key, old) :: rest =>
      if String.eqb name key then (key, value) :: rest
      else (key, old) :: store name value rest
  end.

(** [HOOKS_TO_INSTALL], each path made absolute by [path.resolve] (a
    builtin, taken as [resolve]). *)
Definition hooks_to_install (resolve : string -> string) : list (string * string) :=
  [("PermissionRequest", resolve "src/hooks/permission.ts");
   ("Stop", resolve "src/hooks/stop.ts")].

Definition hookExists (hooksArray : list HookEntry) (hookPath : string) : bool :=
  List.existsb
    (fun entry =>
       List.existsb
         (fun hook => String.eqb (hook_type hook) "command"
                      && String.eqb (hook_command hook) hookPath)
         (entry_hooks entry))
    hooksArray.

(** The entry step 5 appends for a hook. *)
Definition command_entry (hookPath : string) : HookEntry :=
  {| entry_hooks := [{| hook_type := "command"; hook_command := hookPath |}] |}.

(** [settings.hooks], the two counters and the console. *)
Record MergeState : Type := {
  settings_hooks : HooksObject;
  installedCount : Z;
  alreadyInstalledCount : Z;
  console : list string
}.

(** The body of [for (const [hookName, hookPath] of Object.entries(hooks))]. *)
Definition install_one (hookName hookPath : string) (st : MergeState) : MergeState :=
  let initialized :=
    match lookup hookName (settings_hooks st) with
    | Some _ => settings_hooks st
    | None => store hookName [] (settings_hooks st)
    end in
  let hookArray :=
    match lookup hookName initialized with
    | Some array => array
    | None => []
    end in
  if hookExists hookArray hookPath then
    {| settings_hooks := initialized;
       installedCount := installedCount st;
       alreadyInstalledCount := alreadyInstalledCount st + 1;
       console := console st ++ ["⊘ " ++ hookName ++ " hook already installed"] |}
  else
    {| settings_hooks := store hookName (hookArray ++ [command_entry hookPath]) initialized;
       installedCount := installedCount st + 1;
       alreadyInstalledCount := alreadyInstalledCount st;
       console := console st ++ ["✓ " ++ hookName ++ " hook → " ++ hookPath] |}.

(** [for (const [hookName, hookPath] of Object.entries(hooks))]. *)
Definition merge_from (hooks : list (string * string)) (st : MergeState) : MergeState :=
  List.fold_left (fun st hook => install_one (fst hook) (snd hook) st) hooks st.

(** "Step 5: Merge hooks into configuration"; [None] is a settings file
    without [hooks]. *)
Definition merge_hooks (hooks : list (string * string)) (existing : option HooksObject)
  : MergeState :=
  merge_from hooks
    {| settings_hooks := match existing with Some object => object | None => [] end;
       installedCount := 0;
       alreadyInstalledCount := 0;
       console := ["Installing hooks..."; EmptyString] |}.

(** [object[name]] read as an array: no key, no entries. *)
Definition entries_of (name : string) (object : HooksObject) : list HookEntry :=
  match lookup name object with
  | Some array => array
  | None => []
  end.

End Installer.

(* ===================================================================== *)
(** ** Scenarios

    Concrete commands, updates, scripts and files on which the service is
    run. *)
(* ===================================================================== *)

Module Scenario.

Import Js Telegram.

(** The pattern [/^\/block\s+(.+)$/]. *)
Definition block_pattern : RegExp.t :=
  RegExp.mk "^\/block\s+(.+)$"
    (RegExp.Seq RegExp.Bol
       (RegExp.Seq (RegExp.Lit "/block")
          (RegExp.Seq (RegExp.Plus RegExp.Space)
             (RegExp.Seq (RegExp.Group 1 (RegExp.Plus RegExp.Dot)) RegExp.Eol)))).

(** The text command of the specification's scenario: a passive command
    with the pattern [/^\/block\s+(.+)$/]. *)
Definition block_command : TelegramCallback :=
  {| type := hidden; display := None;
     command := CmdRegExp block_pattern; handler := Scripted.recording |}.

(** The authorized user answers [/block bad idea] on the first poll. *)
Definition block_run : State * Res string :=
  Scripted.ask 5 "Stop?" [block_command] (Scripted.config [42] 5000 1000)
    [Scripted.instant [];
     Scripted.instant [Scripted.text_message 7 42 "/block bad idea"]].

(** The one authorized user. *)
Definition users_42 : gset Z := list_to_set [42].

(** A press of a button by that user, carrying [data]. *)
Definition press (data : option string) : CallbackQuery :=
  {| query_id := "q1"; query_from := {| user_id := 42 |}; query_data := data |}.

(** The scenario of the specification: one button, one authorized user. *)
Definition yes_button : TelegramCallback := Scripted.button "Yes" "/yes-123" Scripted.recording.



(** The button of the scenario, with a handler that raises. *)
Definition failing_button : TelegramCallback :=
  Scripted.button "Yes" "/yes-123" Scripted.failing.

(** The user presses the button. *)
Definition yes_press : Update := Scripted.activation 7 "q1" 42 "/yes-123".

(** The scenario of the specification: the authorized user presses the
    button on the second poll. *)
Definition yes_run : State * Res string :=
  Scripted.ask 20 "Approve?" [yes_button] (Scripted.config [42] 5000 1000)
    [Scripted.instant []; Scripted.instant []; Scripted.instant [yes_press]].

(** Two stale updates, listed in ascending order of identifier. *)
Definition stale_ascending : list Update :=
  [Scripted.text_message 3 42 "old"; Scripted.text_message 5 42 "older"].

(** The same two updates, listed the other way round. *)
Definition stale_descending : list Update :=
  [Scripted.text_message 5 42 "older"; Scripted.text_message 3 42 "old"].

(** A poll that takes five seconds to answer. *)
Definition slow_poll : Scripted.Poll :=
  {| Scripted.latency := 5000%N; Scripted.reply := Done [] |}.

(** A text one unit over the ceiling. *)
Definition long_text : string := string_of_list_ascii (repeat "a"%char 4097).

(** A configuration file, its content parsed, and a parser that knows this
    one document and rejects every other text. *)
Definition quoted (s : string) : string := dquote ++ s ++ dquote.

Definition sample_text : string :=
  "{" ++ quoted "logLevel" ++ ":" ++ quoted "debug" ++ ","
  ++ quoted "logFile" ++ ":" ++ quoted "./hook.log" ++ "}".

Definition sample_config : ConfigService.Json :=
  ConfigService.JObject
    [("logLevel", ConfigService.JString "debug");
     ("logFile", ConfigService.JString "./hook.log")].

Definition sample_parse (body : string) : Reply ConfigService.Json :=
  if String.eqb body sample_text then Done sample_config
  else Failed (MkError "SyntaxError" "JSON Parse error").

(** The file is there and readable. *)
Definition sample_file : ConfigService.File :=
  {| ConfigService.file_exists := Done true;
     ConfigService.file_text := Done sample_text |}.

(** The file is gone. *)
Definition absent_file : ConfigService.File :=
  {| ConfigService.file_exists := Done false;
     ConfigService.file_text := Failed (MkError "ENOENT" "no such file") |}.

(** A second press, of another button, later in the same batch. *)
Definition no_press : Update := Scripted.activation 8 "q2" 42 "/no-123".

(** A line feed. *)
Definition nl : string := String "010"%char EmptyString.

(** A transcript of five lines, one of them blank, with a parser that knows
    three of them: a user message, an assistant message of two text blocks
    around a tool use, and a user message that is a tool result. *)
Definition transcript_body : string :=
  "user" ++ nl ++ "assistant" ++ nl ++ "   " ++ nl ++ "result" ++ nl ++ "{oops" ++ nl.

Definition transcript_parse (line : string) : Reply Transcript.TranscriptEntry :=
  if String.eqb line "user" then
    Done {| Transcript.entry_type := "user";
            Transcript.entry_message :=
              Some {| Transcript.role := "user";
                      Transcript.content := Transcript.ContentString "fix the bug" |} |}
  else if String.eqb line "assistant" then
    Done {| Transcript.entry_type := "assistant";
            Transcript.entry_message :=
              Some {| Transcript.role := "assistant";
                      Transcript.content :=
                        Transcript.ContentBlocks
                          [ {| Transcript.block_type := "text";
                               Transcript.block_text := Some "Looking. " |};
                            {| Transcript.block_type := "tool_use";
                               Transcript.block_text := None |};
                            {| Transcript.block_type := "text";
                               Transcript.block_text := Some "Done." |} ] |} |}
  else if String.eqb line "result" then
    Done {| Transcript.entry_type := "user";
            Transcript.entry_message :=
              Some {| Transcript.role := "user";
                      Transcript.content :=
                        Transcript.ContentBlocks
                          [ {| Transcript.block_type := "tool_result";
                               Transcript.block_text := None |} ] |} |}
  else Failed (MkError "SyntaxError" "JSON Parse error").

Definition transcript_file : Transcript.File :=
  {| Transcript.file_exists := Done true;
     Transcript.file_text := Done transcript_body |}.

(** The hooks of a checkout in [/repo], and settings that already hold
    another Stop hook and a hook the installer does not know. *)
Definition repo_hooks : list (string * string) :=
  Installer.hooks_to_install (fun relative => "/repo/" ++ relative).

Definition old_settings : Installer.HooksObject :=
  [("Stop", [Installer.command_entry "/elsewhere/stop.sh"]);
   ("PreToolUse", [Installer.command_entry "/elsewhere/check.sh"])].

(** The file is there, but its text is not JSON. *)
Definition garbled_file : ConfigService.File :=
  {| ConfigService.file_exists := Done true;
     ConfigService.file_text := Done "{oops" |}.

(** A loaded configuration that asks for a poll every 250 ms. *)
Definition hasty_config : ConfigService.Json :=
  ConfigService.JObject
    [("logLevel", ConfigService.JString "info");
     ("logFile", ConfigService.JString "./logs.log");
     ("telegramPollIntervalMs", ConfigService.JNumber 250)].

(** A serialiser that knows one value. *)
Definition sample_stringify (value : ConfigService.Json) : Reply string :=
  match value with
  | ConfigService.JObject [] => Done "{}"
  | _ => Failed (MkError "TypeError" "cyclic structure")
  end.

End Scenario.

(* ===================================================================== *)
(** ** Vocabulary of the properties *)
(* ===================================================================== *)

Module Props.

Import Js Telegram.

Section Vocabulary.

Context {W : Type}.

Implicit Types (callbacks : list (TelegramCallback (W := W))).

(** The error the deadline check throws. *)
Definition timeout_error : Error := new_Error "timeout waiting for response".

(** The sender of an event is not one of the configured users: the sender
    of the button press for an activation, of the message for a text. *)
Definition unauthorized_origin (userIdSet : gset Z) (u : Update) : Prop :=
  match callback_query u with
  | Some q => authorized userIdSet (user_id (query_from q)) = false
  | None =>
      match message u with
      | Some m => authorized userIdSet (user_id (message_from m)) = false
      | None => False
      end
  end.

Definition is_log (ev : Event (W := W)) : bool :=
  match ev with EvLog _ _ => true | _ => false end.

(** Where the cursor stands once an update has been seen. *)
Definition cursor_after (u : Update) (before : Z) : Z :=
  match update_id u with Some id => id | None => before end.

(** The handler invocations recorded in a trace, in order. *)
Definition handler_calls (tr : list (Event (W := W)))
  : list (Source * TelegramCallback (W := W) * MatchArg) :=
  List.flat_map
    (fun ev => match ev with
               | EvHandler src cb arg => [(src, cb, arg)]
               | _ => []
               end) tr.

(** The acknowledgements recorded in a trace, in order. *)
Definition acknowledgements (tr : list (Event (W := W)))
  : list (string * option string) :=
  List.flat_map
    (fun ev => match ev with
               | EvAnswerCallbackQuery id ack => [(id, ack)]
               | _ => []
               end) tr.

(** The identifier of the last update of a batch ([0] for an empty batch
    or a last update without identifier). *)
Definition last_identifier (updates : list Update) : Z :=
  match List.last (List.map Some updates) None with
  | Some u => match update_id u with Some id => id | None => 0 end
  | None => 0
  end.

(** The highest identifier among the updates of a batch, if any. *)
Definition highest_identifier (updates : list Update) : option Z :=
  List.fold_right
    (fun u acc =>
       match update_id u, acc with
       | Some id, Some best => Some (Z.max id best)
       | Some id, None => Some id
       | None, _ => acc
       end) None updates.

(** A batch listed in ascending order of identifier, every update having
    one. *)
Definition ascending (updates : list Update) : Prop :=
  exists ids, List.map update_id updates = List.map Some ids
              /\ StronglySorted Z.le ids.

(** [update], sent by an authorized user, carries [payload], and [cb] is
    the command [callbacks.find] selects for it; [src] tells whether it
    is a button press or a text message. *)
Inductive matched_event callbacks (userIdSet : gset Z) (update : Update)
    (cb : TelegramCallback (W := W)) (payload : string) : Source -> Prop :=
| matched_press query :
    callback_query update = Some query ->
    authorized userIdSet (user_id (query_from query)) = true ->
    query_data query = Some payload ->
    truthy payload = true ->
    List.find (matches_callback_data payload) callbacks = Some cb ->
    matched_event callbacks userIdSet update cb payload
      (FromCallbackQuery (query_id query))
| matched_text msg :
    callback_query update = None ->
    message update = Some msg ->
    message_text msg = Some payload ->
    truthy payload = true ->
    authorized userIdSet (user_id (message_from msg)) = true ->
    List.find (matches_text payload) callbacks = Some cb ->
    matched_event callbacks userIdSet update cb payload FromMessage.

(** The trace ends with the invocation of a handler which, when it was
    invoked for a button press, comes right after the acknowledgement of
    that press. *)
Definition ends_with_handler (tr : list (Event (W := W))) (src : Source)
    (cb : TelegramCallback (W := W)) (arg : MatchArg) : Prop :=
  exists pre,
    tr = (pre ++ [EvHandler src cb arg])%list
    /\ forall id, src = FromCallbackQuery id ->
                  exists pre', pre = (pre' ++ [EvAnswerCallbackQuery id
                                                 (Some "✓ Received")])%list.

(** Every handler invoked for a button press comes right after the
    acknowledgement of that press; [prev] is the event before the segment. *)
Fixpoint guarded (prev : option (Event (W := W))) (s : list (Event (W := W))) : Prop :=
  match s with
  | [] => True
  | ev :: s' =>
      match ev with
      | EvHandler (FromCallbackQuery id) _ _ =>
          prev = Some (EvAnswerCallbackQuery id (Some "✓ Received"))
      | _ => True
      end /\ guarded (Some ev) s'
  end.

(** [payload] is what [update] carries, untouched: the data of its button
    press or the text of its message. *)
Inductive raw_payload (update : Update) (payload : string) : Source -> Prop :=
| raw_press query :
    callback_query update = Some query ->
    query_data query = Some payload ->
    raw_payload update payload (FromCallbackQuery (query_id query))
| raw_text msg :
    message update = Some msg ->
    message_text msg = Some payload ->
    raw_payload update payload FromMessage.

(** [cb] is the command the loop selects for [payload]. *)
Definition selects callbacks (src : Source) (payload : string)
    (cb : TelegramCallback (W := W)) : Prop :=
  match src with
  | FromCallbackQuery _ => List.find (matches_callback_data payload) callbacks = Some cb
  | FromMessage => List.find (matches_text payload) callbacks = Some cb
  end.

(** A segment of trace that resolves the exchange with [payload]: [update]
    carries it, a command is selected for it, and the segment ends with the
    handler of that command called on the match result (after the
    acknowledgement, for a button press). *)
Definition resolves callbacks (update : Update) (payload : string)
    (s : list (Event (W := W))) : Prop :=
  exists cb src,
    raw_payload update payload src
    /\ selects callbacks src payload cb
    /\ ends_with_handler s src cb (handler_argument cb payload).

(** An authorized button press whose payload selects a command. *)
Definition press_matches callbacks (userIdSet : gset Z) (update : Update) : bool :=
  match callback_query update with
  | Some query =>
      authorized userIdSet (user_id (query_from query))
      && match query_data query with
         | Some data =>
             truthy data
             && match List.find (matches_callback_data (W := W) data) callbacks with
                | Some _ => true
                | None => false
                end
         | None => false
         end
  | None => false
  end.

(** An authorized text message whose text selects a command. *)
Definition text_matches callbacks (userIdSet : gset Z) (update : Update) : bool :=
  match message update with
  | Some msg =>
      authorized userIdSet (user_id (message_from msg))
      && match message_text msg with
         | Some txt =>
             truthy txt
             && match List.find (matches_text (W := W) txt) callbacks with
                | Some _ => true
                | None => false
                end
         | None => false
         end
  | None => false
  end.

Definition update_matches callbacks (userIdSet : gset Z) (update : Update) : bool :=
  press_matches callbacks userIdSet update || text_matches callbacks userIdSet update.

(** The line the deadline check logs. *)
Definition timeout_message (config : Config) : string :=
  "Timeout waiting for Telegram response ("
  ++ show_Z (telegramTimeoutMs config) ++ "ms)".

(** The backend never produces a matching event: no batch it returns holds
    an update that matches. *)
Definition never_matches (B : Backend (W := W)) callbacks (userIdSet : gset Z) : Prop :=
  forall offset timeout w batch,
    snd (getUpdates B offset timeout w) = Done batch ->
    forall update, In update batch -> update_matches callbacks userIdSet update = false.

(** The clock never runs backwards while the broker logs, fetches or
    acknowledges, and a wait of [ms] lasts at least [ms]. *)
Record clock_monotone (B : Backend (W := W)) : Prop := {
  log_takes_time : forall lvl msg w, now B w <= now B (logger_write B lvl msg w);
  fetch_takes_time : forall offset timeout w,
      now B w <= now B (fst (getUpdates B offset timeout w));
  ack_takes_time : forall id ack w,
      now B w <= now B (fst (answerCallbackQuery B id ack w));
  wait_lasts : forall ms w, now B w + ms <= now B (sleep B ms w)
}.

(** The idealised clock of a test double: logging, fetching and
    acknowledging take no time, and a wait of [ms] lasts exactly [ms]. *)
Record clock_ideal (B : Backend (W := W)) : Prop := {
  log_is_instant : forall lvl msg w, now B (logger_write B lvl msg w) = now B w;
  fetch_is_instant : forall offset timeout w,
      now B (fst (getUpdates B offset timeout w)) = now B w;
  ack_is_instant : forall id ack w,
      now B (fst (answerCallbackQuery B id ack w)) = now B w;
  wait_is_exact : forall ms w, now B (sleep B ms w) = now B w + ms
}.

(** The values [Date.now()] returned, in order: the first is [startTime],
    the others are the readings of the deadline checks. *)
Definition clock_readings (tr : list (Event (W := W))) : list Z :=
  List.flat_map (fun ev => match ev with EvNow t => [t] | _ => [] end) tr.

(** *** Shapes of computations *)

(** A computation that invokes no handler. *)
Definition silent {A} (m : M (W := W) A) : Prop :=
  forall st, exists s, trace (fst (m st)) = (trace st ++ s)%list
                       /\ handler_calls s = [].

(** What processing one update adds to the trace: handlers for button
    presses come right after the acknowledgement, and when the body returns
    a payload the segment resolves the exchange with it. *)
Definition update_post callbacks (update : Update) (s : list (Event (W := W)))
    (r : Res Flow) : Prop :=
  guarded None s
  /\ forall payload, r = Ok (Return payload) -> resolves callbacks update payload s.

(** What a batch adds to the trace. *)
Definition batch_post callbacks (updates : list Update) (s : list (Event (W := W)))
    (r : Res (option string)) : Prop :=
  guarded None s
  /\ forall payload, r = Ok (Some payload) ->
       exists update, In update updates /\ resolves callbacks update payload s.

(** [update] is in a batch the backend hands to the poll loop. *)
Definition delivered (B : Backend (W := W)) (update : Update) : Prop :=
  exists offset w batch,
    snd (getUpdates B (Some offset) 0 w) = Done batch /\ In update batch.

(** What an exchange adds to the trace. *)
Definition exchange_post (B : Backend (W := W)) callbacks (s : list (Event (W := W)))
    (r : Res string) : Prop :=
  guarded None s
  /\ forall payload, r = Ok payload ->
       exists update, delivered B update /\ resolves callbacks update payload s.

Definition emits_exchange (B : Backend (W := W)) callbacks (m : M (W := W) string)
  : Prop :=
  forall st, exists s, trace (fst (m st)) = (trace st ++ s)%list
                       /\ exchange_post B callbacks s (snd (m st)).

(** A computation that moves the clock by [R] and ends as [Q] says. *)
Definition clock_kept (B : Backend (W := W)) (R : Z -> Z -> Prop) {A}
    (m : M (W := W) A) (Q : Res A -> Prop) : Prop :=
  forall st, R (now B (world st)) (now B (world (fst (m st)))) /\ Q (snd (m st)).

(** The body of the loop does not return. *)
Definition goes_on (r : Res Flow) : Prop :=
  r = Ok Fall \/ r = Ok Continue \/ exists e, r = Throw e.

(** The batch does not make the function return. *)
Definition batch_goes_on (r : Res (option string)) : Prop :=
  r = Ok None \/ exists e, r = Throw e.

End Vocabulary.

End Props.
(* ===================================================================== *)
(** ** Further vocabulary: what a trace shows *)
(* ===================================================================== *)

Module Observations.

Import Js Telegram.

Section Vocabulary.

Context {W : Type}.

(** The users a message was sent to, in order. *)
Definition recipients (tr : list (Event (W := W))) : list Z :=
  List.flat_map
    (fun ev => match ev with EvSendMessage userId _ _ => [userId] | _ => [] end) tr.

(** The offsets of the fetches, in order. *)
Definition fetches (tr : list (Event (W := W))) : list (option Z) :=
  List.flat_map
    (fun ev => match ev with EvGetUpdates offset _ => [offset] | _ => [] end) tr.

(** The durations of the waits, in order. *)
Definition waits (tr : list (Event (W := W))) : list Z :=
  List.flat_map (fun ev => match ev with EvSleep ms => [ms] | _ => [] end) tr.

(** What the delivery phase may do: log, create the bot, check the
    credentials, send [body]. *)
Definition delivering (body : string) (ev : Event (W := W)) : bool :=
  match ev with
  | EvLog _ _ | EvNewBot _ | EvGetMe => true
  | EvSendMessage _ sent _ => String.eqb sent body
  | _ => false
  end.

(** What the listening phase may do: log, read the clock, fetch,
    acknowledge, call a handler, and wait for exactly [interval]. *)
Definition listening (interval : Z) (ev : Event (W := W)) : bool :=
  match ev with
  | EvLog _ _ | EvNow _ | EvGetUpdates _ _ | EvAnswerCallbackQuery _ _
  | EvHandler _ _ _ => true
  | EvSleep ms => (ms =? interval)%Z
  | _ => false
  end.

(** A computation all of whose effects satisfy [P]. *)
Definition only_emits (P : Event (W := W) -> bool) {A} (m : M (W := W) A) : Prop :=
  forall st, exists s, trace (fst (m st)) = (trace st ++ s)%list
                       /\ forallb P s = true.

(** The prelude of the delivery: validation and bot initialization. *)
Definition prelude (B : Backend (W := W)) (textToSend : string) (config : Config)
  : M (W := W) unit :=
  bind (logger B debug "Sending Telegram message")
    (fun _ => bind (validateMessageLength textToSend)
    (fun _ => bind (logger B debug ("Using poll interval: "
                                    ++ show_Z (poll_interval config) ++ "ms"))
    (fun _ => initializeBot B (telegramBotToken config)))).

(** A computation that comes to an end: it returns or throws. *)
Definition settles {A} (m : M (W := W) A) : Prop :=
  forall st, snd (m st) <> Pending.

(** Every effect but a wait. *)
Definition not_a_wait (ev : Event (W := W)) : bool :=
  match ev with EvSleep _ => false | _ => true end.

(** A computation all of whose effects satisfy the property [P]. *)
Definition always (P : Event (W := W) -> Prop) {A} (m : M (W := W) A) : Prop :=
  forall st, exists s, trace (fst (m st)) = (trace st ++ s)%list /\ Forall P s.

(** The button the keyboard shows for a command. *)
Definition button_of (cb : TelegramCallback (W := W)) : InlineButton :=
  {| text := match display cb with Some s => s | None => EmptyString end;
     callback_data := command_source (command cb) |}.

(** What an exchange about [textToSend] with [callbacks] may send and
    call: the text with the keyboard of the callbacks, and handlers of the
    callbacks, for a press only those of inline buttons. *)
Definition orderly (textToSend : string) (callbacks : list (TelegramCallback (W := W)))
    (ev : Event (W := W)) : Prop :=
  match ev with
  | EvSendMessage _ sent markup =>
      sent = textToSend /\ markup = reply_markup (inlineKeyboard callbacks)
  | EvHandler (FromCallbackQuery _) cb _ => In cb callbacks /\ type cb = inline_button
  | EvHandler FromMessage cb _ => In cb callbacks
  | _ => True
  end.

(** [config] is the typed view of the loaded object [loaded] as far as the
    poll interval goes: the object has an integer under
    [telegramPollIntervalMs], and the record carries it. *)
Definition interval_is_configured (loaded : ConfigService.Json) (config : Config)
  : Prop :=
  ConfigService.get_property loaded "telegramPollIntervalMs"
  = Done (Some (ConfigService.JNumber (telegramPollIntervalMs config))).

End Vocabulary.

End Observations.

(* ===================================================================== *)
(** ** Properties of the approval broker *)
(* ===================================================================== *)

Import Js Telegram Props Scenario.

Example block_pattern_exec :
  RegExp.exec block_pattern "/block bad idea"
  = Some [Some "/block bad idea"; Some "bad idea"].
Proof. reflexivity. Qed.

Example block_pattern_anchored :
  RegExp.exec block_pattern "say /block bad idea" = None.
Proof. reflexivity. Qed.

Section Broker.

Context {W : Type} (B : Backend (W := W)).

Implicit Types (st : State (W := W)) (w : W).
Implicit Types (callbacks : list (TelegramCallback (W := W))).

(** *** Stepping through the monad *)

Lemma bind_ok {A C} (m : M A) (k : A -> M C) st st' a :
  m st = (st', Ok a) -> bind m k st = k a st'.
Proof. intros H. unfold bind. now rewrite H. Qed.

Lemma bind_throw {A C} (m : M A) (k : A -> M C) st st' e :
  m st = (st', Throw e) -> bind m k st = (st', Throw e).
Proof. intros H. unfold bind. now rewrite H. Qed.

Lemma bind_pending {A C} (m : M A) (k : A -> M C) st st' :
  m st = (st', Pending) -> bind m k st = (st', Pending).
Proof. intros H. unfold bind. now rewrite H. Qed.

Lemma logger_run lvl msg st :
  logger B lvl msg st
  = ({| world := logger_write B lvl msg (world st);
        trace := trace st ++ [EvLog lvl msg];
        lastUpdateId := lastUpdateId st |}, Ok tt).
Proof. reflexivity. Qed.

Lemma bind_ret_l {A C} (a : A) (k : A -> M C) st : bind (ret a) k st = k a st.
Proof. reflexivity. Qed.

Lemma bind_assoc {A C D} (m : M A) (k1 : A -> M C) (k2 : C -> M D) st :
  bind (bind m k1) k2 st = bind m (fun a => bind (k1 a) k2) st.
Proof. unfold bind. destruct (m st) as [st' [a|e|]]; reflexivity. Qed.

Lemma bind_logger {C} lvl msg (k : unit -> M C) st :
  bind (logger B lvl msg) k st
  = k tt {| world := logger_write B lvl msg (world st);
            trace := trace st ++ [EvLog lvl msg];
            lastUpdateId := lastUpdateId st |}.
Proof. reflexivity. Qed.

Lemma bind_get_lastUpdateId {C} (k : Z -> M C) st :
  bind get_lastUpdateId k st = k (lastUpdateId st) st.
Proof. reflexivity. Qed.

Lemma bind_set_lastUpdateId {C} id (k : unit -> M C) st :
  bind (set_lastUpdateId id) k st
  = k tt {| world := world st; trace := trace st; lastUpdateId := id |}.
Proof. reflexivity. Qed.

Lemma bind_effect_done {A C} (ev : Event) (f : W -> W * Reply A) (k : A -> M C) a st :
  snd (f (world st)) = Done a ->
  bind (effect ev f) k st
  = k a {| world := fst (f (world st)); trace := trace st ++ [ev];
           lastUpdateId := lastUpdateId st |}.
Proof. intros H. unfold bind, effect. cbn. now rewrite H. Qed.

Lemma bind_effect_failed {A C} (ev : Event) (f : W -> W * Reply A) (k : A -> M C) e st :
  snd (f (world st)) = Failed e ->
  bind (effect ev f) k st
  = ({| world := fst (f (world st)); trace := trace st ++ [ev];
        lastUpdateId := lastUpdateId st |}, Throw e).
Proof. intros H. unfold bind, effect. cbn. now rewrite H. Qed.

(** Recording the identifier of an update touches neither the world nor the
    trace. *)
Lemma bind_track_update_id {C} (id : option Z) (k : unit -> M C) st :
  bind (match id with Some i => set_lastUpdateId i | None => ret tt end) k st
  = k tt {| world := world st; trace := trace st;
            lastUpdateId := match id with Some i => i | None => lastUpdateId st end |}.
Proof. destruct id; [reflexivity |]. rewrite bind_ret_l. now destruct st. Qed.

Ltac project := cbn [world trace lastUpdateId fst snd negb].

(** Run the deterministic steps at the head of a computation. *)
Ltac run_steps :=
  repeat (cbv beta;
          first [ rewrite bind_assoc | rewrite bind_ret_l | rewrite bind_logger
                | rewrite bind_set_lastUpdateId | rewrite bind_track_update_id ]);
  project.

(** C2.  A text longer than the 4096-unit ceiling makes
    [sendTelegramMessage] fail at once with the message-too-long error,
    whatever the fuel, the commands and the configuration: the only effect
    before the failure is the first debug line of the log, so no call to the
    backend (no [getMe], no [sendMessage], no [getUpdates], no
    acknowledgement) has been made, and nothing but the log has touched the
    world. *)
Theorem long_text_fails_before_any_network_call
    fuel textToSend callbacks config w :
  TELEGRAM_MAX_LENGTH < Js.length textToSend ->
  let run := sendTelegramMessage B fuel textToSend callbacks config (init_state w) in
  snd run
  = Throw (new_Error ("Message length (" ++ show_Z (Js.length textToSend)
                      ++ ") exceeds Telegram maximum (4096)"))
  /\ trace (fst run) = [EvLog debug "Sending Telegram message"]
  /\ List.filter is_network_call (trace (fst run)) = []
  /\ world (fst run) = logger_write B debug "Sending Telegram message" w.
Proof.
  intros Hlong run. subst run. unfold sendTelegramMessage, deliver.
  run_steps. unfold validateMessageLength.
  apply Z.ltb_lt in Hlong. rewrite Hlong. cbn. auto.
Qed.

(** *** Events from senders outside the configured set *)

(** C5.  An event whose sender is not in the authorized set never triggers
    a match, whatever its payload and whatever the commands: processing it
    invokes no handler and sends no acknowledgement (it only writes log
    lines), it does not make the function return, the loop goes on with the
    rest of the batch, and the cursor has advanced to the event's
    identifier. *)
Theorem unauthorized_event_is_discarded callbacks userIdSet update st :
  unauthorized_origin userIdSet update ->
  let run := process_update B callbacks userIdSet update st in
  (snd run = Ok Continue \/ snd run = Ok Fall)
  /\ (exists logs, trace (fst run) = (trace st ++ logs)%list
                   /\ forallb is_log logs = true
                   /\ handler_calls logs = []
                   /\ acknowledgements logs = [])
  /\ lastUpdateId (fst run) = cursor_after update (lastUpdateId st)
  /\ (forall rest,
        for_updates B callbacks userIdSet (update :: rest) st
        = for_updates B callbacks userIdSet rest (fst run)).
Proof.
  intros Hun run.
  assert (Hrun :
    (snd run = Ok Continue \/ snd run = Ok Fall)
    /\ (exists logs, trace (fst run) = (trace st ++ logs)%list
                     /\ forallb is_log logs = true
                     /\ handler_calls logs = []
                     /\ acknowledgements logs = [])
    /\ lastUpdateId (fst run) = cursor_after update (lastUpdateId st)).
  { subst run. destruct update as [uid [q|] [m|]];
      unfold unauthorized_origin in Hun; cbn in Hun;
      unfold process_update, cursor_after; cbn [update_id callback_query message].
    - destruct uid as [id|]; cbn;
        unfold handle_callback_query; rewrite Hun; cbn;
        (split; [now left | split; [eexists; split; [reflexivity | now cbn] | reflexivity]]).
    - destruct uid as [id|]; cbn;
        unfold handle_callback_query; rewrite Hun; cbn;
        (split; [now left | split; [eexists; split; [reflexivity | now cbn] | reflexivity]]).
    - unfold handle_message.
      destruct (message_text m) as [[|c txt]|]; destruct uid as [id|]; cbn;
        rewrite ?Hun; cbn;
        try (split; [now right | split;
               [exists []; split; [now rewrite app_nil_r | now cbn] | reflexivity]]);
        (split; [now left | split;
               [eexists; split; [rewrite <- app_assoc; reflexivity | now cbn]
               | reflexivity]]).
    - contradiction. }
  destruct Hrun as (Hflow & Htrace & Hcursor).
  repeat split; try assumption.
  intros rest. cbn [for_updates]. unfold bind at 1. fold run.
  destruct run as [st' r]. cbn in Hflow.
  destruct Hflow as [-> | ->]; reflexivity.
Qed.

(** *** Cursor priming *)

Lemma last_identifier_app_singleton updates u :
  last_identifier (updates ++ [u])
  = match update_id u with Some id => id | None => 0 end.
Proof.
  unfold last_identifier. rewrite List.map_app. cbn [List.map].
  now rewrite List.last_last.
Qed.

Lemma highest_identifier_sorted ids :
  StronglySorted Z.le ids ->
  forall updates, List.map update_id updates = List.map Some ids ->
  highest_identifier updates = List.last (List.map Some ids) None.
Proof.
  induction 1 as [|a ids Hs IH Hle]; intros updates Hmap.
  - destruct updates; [reflexivity | discriminate].
  - destruct updates as [|u updates]; [discriminate |].
    cbn in Hmap. injection Hmap as Hu Hrest.
    cbn [highest_identifier List.fold_right]. rewrite Hu.
    fold (highest_identifier updates). rewrite (IH _ Hrest).
    destruct ids as [|b ids]; [reflexivity |].
    change (List.last (List.map Some (a :: b :: ids)) None)
      with (List.last (List.map Some (b :: ids)) (@None Z)).
    assert (Hin : exists c, List.last (List.map Some (b :: ids)) None = Some c
                            /\ In c (b :: ids)).
    { clear. revert b. induction ids as [|c ids IHl]; intros b.
      - exists b. split; [reflexivity | now left].
      - destruct (IHl c) as (d & Hd & Hind). exists d. split.
        + exact Hd.
        + now right. }
    destruct Hin as (c & -> & Hc).
    f_equal. apply Z.max_r. rewrite List.Forall_forall in Hle. now apply Hle.
Qed.

Lemma last_identifier_sorted ids updates :
  List.map update_id updates = List.map Some ids ->
  Some (last_identifier updates)
  = match List.last (List.map Some ids) None with
    | Some id => Some id
    | None => Some 0
    end.
Proof.
  revert ids. induction updates as [|u updates IH]; intros ids Hmap.
  - destruct ids; [reflexivity | discriminate].
  - destruct ids as [|a ids]; [discriminate |].
    cbn in Hmap. injection Hmap as Hu Hrest.
    destruct updates as [|v updates].
    + destruct ids; [| discriminate]. unfold last_identifier. cbn. now rewrite Hu.
    + destruct ids as [|b ids]; [discriminate |].
      specialize (IH (b :: ids) Hrest).
      change (List.last (List.map Some (a :: b :: ids)) None)
        with (List.last (List.map Some (b :: ids)) (@None Z)).
      rewrite <- IH. reflexivity.
Qed.

(** C8 (as amended).  Priming makes exactly one call, [getUpdates] without
    offset and with zero wait, processes none of what it returns (no
    handler, no acknowledgement, only log lines) and never aborts the
    exchange.  Afterwards the cursor is the identifier of the LAST drained
    update, and [0] when the call failed, the queue was empty or that update
    carries no identifier; when the backend lists the queue in ascending
    order of identifier, this is the highest identifier drained. *)
Theorem priming_sets_the_cursor_and_never_fails st :
  let run := clear_pending_updates B st in
  snd run = Ok tt
  /\ (exists logs, trace (fst run) = (trace st ++ EvGetUpdates None 0 :: logs)%list
                   /\ forallb is_log logs = true)
  /\ lastUpdateId (fst run)
     = match snd (getUpdates B None 0 (world st)) with
       | Done oldUpdates => last_identifier oldUpdates
       | Failed _ => 0
       end
  /\ (forall oldUpdates,
        snd (getUpdates B None 0 (world st)) = Done oldUpdates ->
        oldUpdates <> [] -> ascending oldUpdates ->
        Some (lastUpdateId (fst run)) = highest_identifier oldUpdates).
Proof.
  intros run.
  assert (Hmain :
    snd run = Ok tt
    /\ (exists logs, trace (fst run) = (trace st ++ EvGetUpdates None 0 :: logs)%list
                     /\ forallb is_log logs = true)
    /\ lastUpdateId (fst run)
       = match snd (getUpdates B None 0 (world st)) with
         | Done oldUpdates => last_identifier oldUpdates
         | Failed _ => 0
         end).
  { subst run. unfold clear_pending_updates, try_catch, bind, effect.
    destruct (getUpdates B None 0 (world st)) as [w1 [oldUpdates | e]]; cbn.
    - unfold last_identifier.
      destruct (List.last (List.map Some oldUpdates) None) as [u|]; cbn.
      + destruct (update_id u) as [id|]; cbn.
        * split; [reflexivity | split; [| reflexivity]].
          eexists. split; [rewrite <- app_assoc; reflexivity | reflexivity].
        * split; [reflexivity | split; [| reflexivity]].
          exists []. split; reflexivity.
      + split; [reflexivity | split; [| reflexivity]].
        exists []. split; reflexivity.
    - split; [reflexivity | split; [| reflexivity]].
      eexists. split; [rewrite <- app_assoc; reflexivity | reflexivity]. }
  destruct Hmain as (Hok & Htrace & Hcursor).
  repeat split; try assumption.
  intros oldUpdates Hreply Hne (ids & Hmap & Hsorted).
  rewrite Hcursor, Hreply.
  rewrite (highest_identifier_sorted ids Hsorted _ Hmap).
  rewrite (last_identifier_sorted ids _ Hmap).
  destruct ids as [|a ids].
  - destruct oldUpdates; [contradiction | discriminate].
  - clear. revert a. induction ids as [|b ids IH]; intros a; [reflexivity |].
    change (List.last (List.map Some (a :: b :: ids)) None)
      with (List.last (List.map Some (b :: ids)) (@None Z)).
    apply IH.
Qed.

(** *** Selecting a command *)

Lemma find_no_match {A} (f : A -> bool) (l : list A) :
  (forall x, In x l -> f x = false) -> List.find f l = None.
Proof.
  induction l as [|a l IH]; intros H; [reflexivity |].
  cbn. rewrite (H a (or_introl eq_refl)). apply IH.
  intros x Hx. apply H. now right.
Qed.


(** *** Button presses that match no command *)

Lemma unmatched_activation_never_returns callbacks userIdSet query callbackData :
  authorized userIdSet (user_id (query_from query)) = true ->
  query_data query = Some callbackData ->
  truthy callbackData = true ->
  (forall cb, In cb callbacks -> matches_callback_data callbackData cb = false) ->
  forall st0,
    exists st1 r, handle_callback_query B callbacks userIdSet query st0 = (st1, r)
                  /\ (r = Ok Fall \/ exists e, r = Throw e).
Proof.
  intros Hauth Hdata Htruthy Hnone st0.
  unfold handle_callback_query. rewrite Hauth, Hdata, Htruthy.
  rewrite (find_no_match _ _ Hnone). cbn [negb].
  unfold bind, logger, effect. cbn.
  destruct (answerCallbackQuery B (query_id query) None _) as [w2 [[]|e]]; cbn;
    do 2 eexists; (split; [reflexivity |]);
    [now left | right; now exists e].
Qed.

(** C9 (as amended).  A button press from an authorized user whose payload
    is not empty and matches no interactive command is acknowledged to the
    backend (without text) and does not resolve the exchange: the block
    falls through, or the acknowledgement call itself fails, but it never
    returns a payload; for an update that is only a button press the body
    of the loop never returns either.  A button press whose payload is
    missing or empty is skipped by the guard [if (!callbackData) continue]
    before any command is looked up: it is not acknowledged. *)
Theorem unmatched_activation_acknowledged_unless_empty
    callbacks userIdSet query st :
  authorized userIdSet (user_id (query_from query)) = true ->
  (forall callbackData,
     query_data query = Some callbackData ->
     truthy callbackData = true ->
     (forall cb, In cb callbacks -> matches_callback_data callbackData cb = false) ->
     let run := handle_callback_query B callbacks userIdSet query st in
     let w1 := logger_write B debug ("Ignoring unknown callback: " ++ callbackData)
                 (world st) in
     trace (fst run)
     = (trace st ++ [EvLog debug ("Ignoring unknown callback: " ++ callbackData);
                     EvAnswerCallbackQuery (query_id query) None])%list
     /\ world (fst run) = fst (answerCallbackQuery B (query_id query) None w1)
     /\ snd run
        = match snd (answerCallbackQuery B (query_id query) None w1) with
          | Done _ => Ok Fall
          | Failed e => Throw e
          end
     /\ (forall id,
           let run' := process_update B callbacks userIdSet
                         {| update_id := id; callback_query := Some query;
                            message := None |} st in
           forall payload, snd run' <> Ok (Return payload)))
  /\ (truthy_opt (query_data query) = false ->
      handle_callback_query B callbacks userIdSet query st = (st, Ok Continue)).
Proof.
  intros Hauth. split.
  - intros callbackData Hdata Htruthy Hnone run w1.
    assert (Hrun : handle_callback_query B callbacks userIdSet query st
                   = (let (w2, r) := answerCallbackQuery B (query_id query) None w1 in
                      ({| world := w2;
                          trace := (trace st
                                    ++ [EvLog debug ("Ignoring unknown callback: "
                                                     ++ callbackData);
                                        EvAnswerCallbackQuery (query_id query) None])%list;
                          lastUpdateId := lastUpdateId st |},
                       match r with Done _ => Ok Fall | Failed e => Throw e end))).
    { unfold handle_callback_query. rewrite Hauth, Hdata, Htruthy.
      rewrite (find_no_match _ _ Hnone). cbn [negb].
      unfold bind, logger, effect. cbn. fold w1.
      destruct (answerCallbackQuery B (query_id query) None w1) as [w2 [[]|e]]; cbn;
        now rewrite <- app_assoc. }
    split; [| split; [| split]].
    + subst run. rewrite Hrun.
      now destruct (answerCallbackQuery B (query_id query) None w1).
    + subst run. rewrite Hrun.
      now destruct (answerCallbackQuery B (query_id query) None w1).
    + subst run. rewrite Hrun.
      now destruct (answerCallbackQuery B (query_id query) None w1).
    + intros id run' payload. subst run'. unfold process_update.
      cbn [update_id callback_query message].
      pose proof (unmatched_activation_never_returns callbacks userIdSet query
                    callbackData Hauth Hdata Htruthy Hnone) as Hany.
      destruct id as [i|]; unfold bind, set_lastUpdateId, ret; cbn;
        match goal with
        | |- context [handle_callback_query B callbacks userIdSet query ?s] =>
            destruct (Hany s) as (st1 & r & -> & [-> | [e ->]])
        end; cbn; congruence.
  - intros Hfalsy. unfold handle_callback_query. rewrite Hauth. cbn [negb].
    destruct (query_data query) as [d|]; [| reflexivity].
    cbn in Hfalsy. now rewrite Hfalsy.
Qed.

(** *** Overlapping patterns *)


(** *** A handler that fails *)

Lemma for_updates_app callbacks userIdSet before rest st :
  snd (for_updates B callbacks userIdSet before st) = Ok None ->
  for_updates B callbacks userIdSet (before ++ rest) st
  = for_updates B callbacks userIdSet rest
      (fst (for_updates B callbacks userIdSet before st)).
Proof.
  revert st. induction before as [|u before IH]; intros st H; [reflexivity |].
  cbn [for_updates app] in *. unfold bind in *.
  destruct (process_update B callbacks userIdSet u st) as [st1 [[| |payload]|e|]];
    cbn in H; try discriminate; now apply IH.
Qed.

(** What processing a matched event does, up to the call of the handler. *)
Lemma matched_event_reaches_handler callbacks userIdSet update cb payload src st :
  matched_event callbacks userIdSet update cb payload src ->
  (forall id ack w, snd (answerCallbackQuery B id ack w) = Done tt) ->
  exists st1,
    process_update B callbacks userIdSet update st
    = bind (invoke_handler src cb (handler_argument cb payload))
        (fun _ => ret (Return payload)) st1
    /\ lastUpdateId st1 = cursor_after update (lastUpdateId st)
    /\ (exists pre, trace st1 = (trace st ++ pre)%list /\ handler_calls pre = []
                    /\ forall id, src = FromCallbackQuery id ->
                         exists pre', pre = (pre' ++ [EvAnswerCallbackQuery id
                                                        (Some "✓ Received")])%list).
Proof.
  intros Hm Hack. unfold process_update.
  destruct Hm as [query Hcq Hauth Hdata Htruthy Hfind
                 | msg Hcq Hmsg Htxt Htruthy Hauth Hfind].
  - rewrite Hcq. unfold handle_callback_query.
    rewrite Hauth, Hdata, Htruthy. project. rewrite Hfind. run_steps.
    rewrite (bind_effect_done _ _ _ tt) by apply Hack. run_steps.
    match goal with |- exists st1, bind ?m ?k ?S = _ /\ _ => exists S end.
    split.
    + unfold bind.
      destruct (invoke_handler _ _ _ _) as [s [a|e|]]; reflexivity.
    + project. split; [reflexivity |].
      eexists. split; [rewrite <- app_assoc; reflexivity |].
      split; [reflexivity |].
      intros id [= <-]. eexists [_]. reflexivity.
  - rewrite Hcq, Hmsg. unfold handle_message.
    rewrite Htxt, Htruthy. run_steps. rewrite Hauth. project. rewrite Hfind.
    run_steps.
    match goal with |- exists st1, bind ?m ?k ?S = _ /\ _ => exists S end.
    split.
    + unfold bind.
      destruct (invoke_handler _ _ _ _) as [s [a|e|]]; reflexivity.
    + project. split; [reflexivity |].
      eexists. split; [rewrite <- app_assoc; reflexivity |].
      split; [reflexivity |]. intros id [=].
Qed.

(** One turn of the loop whose poll returned nothing to the caller. *)
Lemma poll_loop_goes_on callbacks config pollIntervalMs startTime userIdSet
    fuel st st1 st2 :
  check_timeout B config startTime st = (st1, Ok tt) ->
  poll_updates B callbacks userIdSet st1 = (st2, Ok None) ->
  poll_loop B callbacks config pollIntervalMs startTime userIdSet (S fuel) st
  = poll_loop B callbacks config pollIntervalMs startTime userIdSet fuel
      {| world := sleep B pollIntervalMs (world st2);
         trace := trace st2 ++ [EvSleep pollIntervalMs];
         lastUpdateId := lastUpdateId st2 |}.
Proof.
  intros Hcheck Hpoll. cbn [poll_loop].
  rewrite (bind_ok _ _ _ _ _ Hcheck), (bind_ok _ _ _ _ _ Hpoll).
  reflexivity.
Qed.

(** C1 (as amended).  When the handler of the matched command raises, the
    error is caught by the [catch] of the polling block and logged as a
    polling error; the payload is NOT returned.  The rest of the batch is
    skipped, the cursor stays on the event, and the loop sleeps and polls
    again, so that the exchange can only end by a later match or by the
    deadline.  For a button press the acknowledgement was sent just before
    the handler and is not sent again. *)
Theorem failing_handler_is_caught_and_polling_goes_on
    callbacks userIdSet update cb payload src err before after st :
  matched_event callbacks userIdSet update cb payload src ->
  (forall arg w, snd (handler cb arg w) = Failed err) ->
  (forall id ack w, snd (answerCallbackQuery B id ack w) = Done tt) ->
  snd (getUpdates B (Some (lastUpdateId st + 1)) 0 (world st))
  = Done (before ++ update :: after)%list ->
  (forall s, snd (for_updates B callbacks userIdSet before s) = Ok None) ->
  let run := poll_updates B callbacks userIdSet st in
  snd run = Ok None
  /\ (exists pre,
        trace (fst run)
        = (pre ++ [EvLog error ("Error polling Telegram updates: "
                                ++ show_Error err)])%list
        /\ ends_with_handler pre src cb (handler_argument cb payload))
  /\ (forall id, update_id update = Some id -> lastUpdateId (fst run) = id)
  /\ (forall config pollIntervalMs startTime fuel st0,
        check_timeout B config startTime st0 = (st, Ok tt) ->
        poll_loop B callbacks config pollIntervalMs startTime userIdSet (S fuel) st0
        = poll_loop B callbacks config pollIntervalMs startTime userIdSet fuel
            {| world := sleep B pollIntervalMs (world (fst run));
               trace := trace (fst run) ++ [EvSleep pollIntervalMs];
               lastUpdateId := lastUpdateId (fst run) |}).
Proof.
  intros Hm Hfail Hack Hfetch Hbefore run.
  assert (Hrun : exists st3 pre,
            run = (st3, Ok None)
            /\ trace st3 = (pre ++ [EvLog error ("Error polling Telegram updates: "
                                                 ++ show_Error err)])%list
            /\ ends_with_handler pre src cb (handler_argument cb payload)
            /\ lastUpdateId st3 = cursor_after update (lastUpdateId st3)).
  { subst run. unfold poll_updates, try_catch.
    rewrite bind_get_lastUpdateId.
    rewrite (bind_effect_done _ _ _ _ _ Hfetch).
    match goal with
    | |- context [bind (if ?c then ?a else ?b) ?k ?s] =>
        assert (Hlog : exists s1, bind (if c then a else b) k s = k tt s1)
    end.
    { destruct (0 <? _)%Z; run_steps; eexists; reflexivity. }
    destruct Hlog as (s1 & ->).
    rewrite (for_updates_app _ _ _ _ _ (Hbefore _)).
    set (s2 := fst (for_updates B callbacks userIdSet before s1)).
    cbn [for_updates].
    destruct (matched_event_reaches_handler _ _ _ _ _ _ s2 Hm Hack)
      as (s3 & Hproc & Hcur & (pre & Htr & Hnone & Hpre)).
    unfold bind at 1. rewrite Hproc.
    unfold invoke_handler.
    rewrite (bind_effect_failed _ _ _ _ _ (Hfail _ _)).
    rewrite bind_logger. unfold ret. project.
    do 2 eexists. split; [reflexivity |]. project.
    split; [reflexivity |]. split.
    - exists (trace s3). split; [reflexivity |].
      intros id Hsrc. destruct (Hpre id Hsrc) as (pre' & ->).
      exists (trace s2 ++ pre')%list. rewrite Htr. now rewrite app_assoc.
    - unfold cursor_after in *.
      destruct (update_id update); [exact Hcur | reflexivity]. }
  destruct Hrun as (st3 & pre & Hrun & Htr & Hends & Hcur).
  rewrite Hrun. project. split; [reflexivity |].
  split; [now exists pre |]. split.
  - intros id Hid. rewrite Hcur. unfold cursor_after. now rewrite Hid.
  - intros config pollIntervalMs startTime fuel st0 Hcheck.
    apply (poll_loop_goes_on _ _ _ _ _ _ _ _ _ Hcheck). exact Hrun.
Qed.

(** *** Traces: handlers and acknowledgements *)

Lemma handler_calls_app (s1 s2 : list (Event (W := W))) :
  handler_calls (s1 ++ s2) = (handler_calls s1 ++ handler_calls s2)%list.
Proof. apply List.flat_map_app. Qed.

Lemma guarded_weaken prev (s : list (Event (W := W))) :
  guarded None s -> guarded prev s.
Proof.
  destruct s as [|ev s]; [trivial |].
  cbn. intros [Hev Hs]. split; [| exact Hs].
  destruct ev as [| | | | | | | |[id|] cb arg]; try exact I. discriminate.
Qed.

Lemma guarded_app prev (s1 s2 : list (Event (W := W))) :
  guarded prev s1 -> guarded None s2 -> guarded prev (s1 ++ s2).
Proof.
  revert prev. induction s1 as [|ev s1 IH]; intros prev H1 H2.
  - now apply guarded_weaken.
  - cbn in *. destruct H1 as [Hev H1]. split; [exact Hev | now apply IH].
Qed.

Lemma guarded_silent prev (s : list (Event (W := W))) :
  handler_calls s = [] -> guarded prev s.
Proof.
  revert prev. induction s as [|ev s IH]; intros prev H; [exact I |].
  cbn in *. destruct ev; try discriminate; (split; [exact I | now apply IH]).
Qed.

(** The readable form of [guarded]. *)
Lemma guarded_split (tr : list (Event (W := W))) :
  guarded None tr ->
  forall pre id cb arg post,
    tr = (pre ++ EvHandler (FromCallbackQuery id) cb arg :: post)%list ->
    exists pre', pre = (pre' ++ [EvAnswerCallbackQuery id (Some "✓ Received")])%list.
Proof.
  intros Hg pre. revert tr Hg.
  assert (Hgen : forall (prev : option Event) tr,
            guarded prev tr ->
            forall id cb arg post,
              tr = (pre ++ EvHandler (FromCallbackQuery id) cb arg :: post)%list ->
              match pre with
              | [] => prev = Some (EvAnswerCallbackQuery id (Some "✓ Received"))
              | _ :: _ =>
                  exists pre',
                    pre = (pre' ++ [EvAnswerCallbackQuery id (Some "✓ Received")])%list
              end).
  { induction pre as [|p pre IH]; intros prev tr Hg id cb arg post ->.
    - cbn in Hg. exact (proj1 Hg).
    - cbn in Hg. destruct Hg as [_ Hg].
      specialize (IH (Some p) _ Hg id cb arg post eq_refl).
      destruct pre as [|q pre].
      + injection IH as ->. now exists [].
      + destruct IH as (pre' & ->). now exists (p :: pre'). }
  intros tr Hg id cb arg post Htr.
  specialize (Hgen None tr Hg id cb arg post Htr).
  destruct pre; [discriminate | exact Hgen].
Qed.

Lemma ends_with_handler_app (s1 s2 : list (Event (W := W))) src cb arg :
  ends_with_handler s2 src cb arg -> ends_with_handler (s1 ++ s2) src cb arg.
Proof.
  intros (pre & -> & Hpre). exists (s1 ++ pre)%list. split.
  - now rewrite app_assoc.
  - intros id Hid. destruct (Hpre id Hid) as (pre' & ->).
    exists (s1 ++ pre')%list. now rewrite app_assoc.
Qed.

Lemma resolves_app callbacks update payload (s1 s2 : list (Event (W := W))) :
  resolves callbacks update payload s2 -> resolves callbacks update payload (s1 ++ s2).
Proof.
  intros (cb & src & Hraw & Hsel & Hend).
  exists cb, src. repeat split; try assumption. now apply ends_with_handler_app.
Qed.

(** *** Computations that invoke no handler *)

Lemma silent_ret {A} (a : A) : silent (W := W) (ret a).
Proof. intros st. exists []. now rewrite app_nil_r. Qed.

Lemma silent_throw {A} e : silent (W := W) (throw (A := A) e).
Proof. intros st. exists []. now rewrite app_nil_r. Qed.

Lemma silent_bind {A C} (m : M A) (k : A -> M C) :
  silent m -> (forall a, silent (k a)) -> silent (W := W) (bind m k).
Proof.
  intros Hm Hk st. unfold bind.
  destruct (Hm st) as (s1 & Ht1 & Hs1).
  destruct (m st) as [st1 [a|e|]]; cbn in Ht1; try (now exists s1).
  destruct (Hk a st1) as (s2 & Ht2 & Hs2).
  exists (s1 ++ s2)%list. split.
  - now rewrite Ht2, Ht1, app_assoc.
  - now rewrite handler_calls_app, Hs1, Hs2.
Qed.

Lemma silent_try_catch {A} (m : M A) (h : Error -> M A) :
  silent m -> (forall e, silent (W := W) (h e)) -> silent (W := W) (try_catch m h).
Proof.
  intros Hm Hh st. unfold try_catch.
  destruct (Hm st) as (s1 & Ht1 & Hs1).
  destruct (m st) as [st1 [a|e|]]; cbn in Ht1; try (now exists s1).
  destruct (Hh e st1) as (s2 & Ht2 & Hs2).
  exists (s1 ++ s2)%list. split.
  - now rewrite Ht2, Ht1, app_assoc.
  - now rewrite handler_calls_app, Hs1, Hs2.
Qed.

Lemma silent_effect {A} (ev : Event) (f : W -> W * Reply A) :
  handler_calls [ev] = [] -> silent (W := W) (effect ev f).
Proof. intros H st. now exists [ev]. Qed.

Lemma silent_logger lvl msg : silent (W := W) (logger B lvl msg).
Proof. now apply silent_effect. Qed.

Lemma silent_Date_now : silent (W := W) (Date_now B).
Proof. intros st. now eexists [_]. Qed.

Lemma silent_set_lastUpdateId id : silent (W := W) (set_lastUpdateId id).
Proof. intros st. exists []. cbn. now rewrite app_nil_r. Qed.

Lemma silent_get_lastUpdateId : silent (W := W) get_lastUpdateId.
Proof. intros st. exists []. cbn. now rewrite app_nil_r. Qed.

Create HintDb silent.
#[local] Hint Resolve silent_ret silent_throw silent_bind silent_try_catch
  silent_logger silent_Date_now silent_set_lastUpdateId silent_get_lastUpdateId
  : silent.

Lemma silent_validateMessageLength message : silent (W := W) (validateMessageLength message).
Proof. unfold validateMessageLength. destruct (_ <? _)%Z; auto with silent. Qed.

Lemma silent_initializeBot token : silent (W := W) (initializeBot B token).
Proof.
  unfold initializeBot.
  apply silent_bind; [auto with silent | intros _].
  apply silent_bind; [now apply silent_effect | intros _].
  apply silent_try_catch.
  - apply silent_bind; [now apply silent_effect | intros _; auto with silent].
  - intros e. auto with silent.
Qed.

Lemma silent_send_to_all userIds body keyboard :
  silent (W := W) (send_to_all B userIds body keyboard).
Proof.
  induction userIds as [|userId rest IH]; cbn [send_to_all]; [auto with silent |].
  apply silent_bind; [| intros _; exact IH].
  apply silent_try_catch; [| intros e; auto with silent].
  apply silent_bind; [now apply silent_effect | intros _; auto with silent].
Qed.

Lemma silent_deliver textToSend callbacks config :
  silent (W := W) (deliver B textToSend callbacks config).
Proof.
  unfold deliver.
  apply silent_bind; [apply silent_logger | intros _].
  apply silent_bind; [apply silent_validateMessageLength | intros _].
  apply silent_bind; [apply silent_logger | intros _].
  apply silent_bind; [apply silent_initializeBot | intros _].
  apply silent_send_to_all.
Qed.

Lemma silent_clear_pending_updates : silent (W := W) (clear_pending_updates B).
Proof.
  unfold clear_pending_updates.
  apply silent_try_catch; [| intros e; auto with silent].
  apply silent_bind; [now apply silent_effect |].
  intros oldUpdates.
  destruct (List.last _ _) as [u|]; [| auto with silent].
  destruct (update_id u); auto with silent.
Qed.

Lemma silent_check_timeout config startTime : silent (W := W) (check_timeout B config startTime).
Proof.
  unfold check_timeout. destruct (_ <? _)%Z; [| auto with silent].
  apply silent_bind; [auto with silent |].
  intros t. destruct (_ <=? _)%Z; auto with silent.
Qed.

Lemma silent_setTimeout ms : silent (W := W) (setTimeout B ms).
Proof. now apply silent_effect. Qed.

(** *** What the loop emits *)

(** Name the segment a computation has added to the trace. *)
Ltac segment :=
  first [ exists []; split; [now rewrite app_nil_r |]
        | eexists; split; [rewrite <- ?app_assoc; reflexivity |] ].

(** Case on the reply of the outermost pending call. *)
Ltac case_reply :=
  match goal with
  | |- context [match ?r with Done _ => _ | Failed _ => _ end] =>
      destruct r as [[]|?e]
  end.

Lemma handle_callback_query_post callbacks userIdSet update query st :
  callback_query update = Some query ->
  exists s,
    trace (fst (handle_callback_query B callbacks userIdSet query st)) = (trace st ++ s)%list
    /\ update_post callbacks update s
         (snd (handle_callback_query B callbacks userIdSet query st)).
Proof.
  intros Hcq. unfold handle_callback_query, update_post.
  destruct (authorized userIdSet _); cbn [negb].
  2: { cbn. segment. split; [cbn; tauto | discriminate]. }
  destruct (query_data query) as [callbackData|] eqn:Hdata.
  2: { cbn. segment. split; [cbn; tauto | discriminate]. }
  destruct (truthy callbackData); cbn [negb].
  2: { cbn. segment. split; [cbn; tauto | discriminate]. }
  destruct (List.find _ callbacks) as [cb|] eqn:Hfind;
    unfold invoke_handler, bind, logger, effect, ret; project.
  - case_reply; project.
    + case_reply; project.
      * segment. split; [cbn; tauto |].
        intros payload [= <-].
        exists cb, (FromCallbackQuery (query_id query)).
        split; [now apply (raw_press _ _ query) | split; [exact Hfind |]].
        eexists [_; _]. split; [reflexivity |].
        intros id [= <-]. now eexists [_].
      * segment. split; [cbn; tauto | discriminate].
    + segment. split; [cbn; tauto | discriminate].
  - case_reply; project; segment; (split; [cbn; tauto | discriminate]).
Qed.

Lemma handle_message_post callbacks userIdSet update msg st :
  message update = Some msg ->
  exists s,
    trace (fst (handle_message B callbacks userIdSet msg st)) = (trace st ++ s)%list
    /\ update_post callbacks update s (snd (handle_message B callbacks userIdSet msg st)).
Proof.
  intros Hmsg. unfold handle_message, update_post.
  destruct (message_text msg) as [txt|] eqn:Htxt.
  2: { cbn. segment. split; [cbn; tauto | discriminate]. }
  destruct (truthy txt); cbn [negb].
  2: { cbn. segment. split; [cbn; tauto | discriminate]. }
  rewrite bind_logger.
  destruct (authorized userIdSet _); cbn [negb].
  2: { cbn. segment. split; [cbn; tauto | discriminate]. }
  destruct (List.find _ callbacks) as [cb|] eqn:Hfind;
    unfold invoke_handler, bind, logger, effect, ret; project.
  - case_reply; project.
    + segment. split; [cbn; tauto |].
      intros payload [= <-].
      exists cb, FromMessage.
      split; [now apply (raw_text _ _ msg) | split; [exact Hfind |]].
      eexists [_; _]. split; [reflexivity |]. discriminate.
    + segment. split; [cbn; tauto | discriminate].
  - segment. split; [cbn; tauto | discriminate].
Qed.

Lemma update_post_app callbacks update (s1 s2 : list Event) r :
  guarded None s1 -> update_post callbacks update s2 r ->
  update_post callbacks update (s1 ++ s2) r.
Proof.
  intros H1 [H2 Hres]. split; [now apply guarded_app |].
  intros payload Hr. apply resolves_app. now apply Hres.
Qed.

Lemma process_update_post callbacks userIdSet update st :
  exists s,
    trace (fst (process_update B callbacks userIdSet update st)) = (trace st ++ s)%list
    /\ update_post callbacks update s (snd (process_update B callbacks userIdSet update st)).
Proof.
  unfold process_update. rewrite bind_track_update_id.
  set (st0 := {| world := world st; trace := trace st; lastUpdateId := _ |}).
  change (trace st) with (trace st0).
  assert (Hmessage : forall st1,
            exists s,
              trace (fst (match message update with
                          | Some msg => handle_message B callbacks userIdSet msg
                          | None => ret Fall
                          end st1)) = (trace st1 ++ s)%list
              /\ update_post callbacks update s
                   (snd (match message update with
                         | Some msg => handle_message B callbacks userIdSet msg
                         | None => ret Fall
                         end st1))).
  { intros st1. destruct (message update) as [msg|] eqn:Hmsg.
    - now apply handle_message_post.
    - cbn. segment. split; [exact I | discriminate]. }
  destruct (callback_query update) as [query|] eqn:Hcq.
  - unfold bind.
    destruct (handle_callback_query_post callbacks userIdSet update query st0 Hcq)
      as (s1 & Ht1 & Hp1).
    destruct (handle_callback_query B callbacks userIdSet query st0)
      as [st1 [[| |payload]|e|]]; cbn [fst snd] in *; try (now exists s1).
    destruct (Hmessage st1) as (s2 & Ht2 & Hp2).
    exists (s1 ++ s2)%list. split; [now rewrite Ht2, Ht1, app_assoc |].
    apply update_post_app; [exact (proj1 Hp1) | exact Hp2].
  - rewrite bind_ret_l. apply Hmessage.
Qed.

Lemma for_updates_post callbacks userIdSet updates st :
  exists s,
    trace (fst (for_updates B callbacks userIdSet updates st)) = (trace st ++ s)%list
    /\ batch_post callbacks updates s (snd (for_updates B callbacks userIdSet updates st)).
Proof.
  revert st. induction updates as [|update rest IH]; intros st.
  - cbn. segment. split; [exact I | discriminate].
  - cbn [for_updates]. unfold bind.
    destruct (process_update_post callbacks userIdSet update st) as (s1 & Ht1 & Hg1 & Hr1).
    destruct (process_update B callbacks userIdSet update st)
      as [st1 [[| |payload]|e|]]; cbn [fst snd] in *.
    + destruct (IH st1) as (s2 & Ht2 & Hg2 & Hr2).
      exists (s1 ++ s2)%list. split; [now rewrite Ht2, Ht1, app_assoc |].
      split; [now apply guarded_app |].
      intros payload Hp. destruct (Hr2 payload Hp) as (u & Hu & Hres).
      exists u. split; [now right | now apply resolves_app].
    + destruct (IH st1) as (s2 & Ht2 & Hg2 & Hr2).
      exists (s1 ++ s2)%list. split; [now rewrite Ht2, Ht1, app_assoc |].
      split; [now apply guarded_app |].
      intros payload Hp. destruct (Hr2 payload Hp) as (u & Hu & Hres).
      exists u. split; [now right | now apply resolves_app].
    + exists s1. split; [exact Ht1 |]. split; [exact Hg1 |].
      intros p [= <-]. exists update. split; [now left | now apply Hr1].
    + exists s1. split; [exact Ht1 |]. split; [exact Hg1 | discriminate].
    + exists s1. split; [exact Ht1 |]. split; [exact Hg1 | discriminate].
Qed.

Lemma emits_exchange_bind {A} callbacks (m : M A) (k : A -> M string) :
  silent m -> (forall a, emits_exchange B callbacks (k a)) ->
  emits_exchange B callbacks (bind m k).
Proof.
  intros Hm Hk st. unfold bind.
  destruct (Hm st) as (s1 & Ht1 & Hs1).
  destruct (m st) as [st1 [a|e|]]; cbn [fst snd] in *.
  - destruct (Hk a st1) as (s2 & Ht2 & Hg2 & Hr2).
    exists (s1 ++ s2)%list. split; [now rewrite Ht2, Ht1, app_assoc |].
    split; [apply guarded_app; [now apply guarded_silent | exact Hg2] |].
    intros payload Hp. destruct (Hr2 payload Hp) as (u & Hu & Hres).
    exists u. split; [exact Hu | now apply resolves_app].
  - exists s1. split; [exact Ht1 |].
    split; [now apply guarded_silent | discriminate].
  - exists s1. split; [exact Ht1 |].
    split; [now apply guarded_silent | discriminate].
Qed.

Lemma poll_updates_post callbacks userIdSet st :
  exists s,
    trace (fst (poll_updates B callbacks userIdSet st)) = (trace st ++ s)%list
    /\ guarded None s
    /\ forall payload,
         snd (poll_updates B callbacks userIdSet st) = Ok (Some payload) ->
         exists update, delivered B update /\ resolves callbacks update payload s.
Proof.
  unfold poll_updates, try_catch. rewrite bind_get_lastUpdateId.
  destruct (snd (getUpdates B (Some (lastUpdateId st + 1)) 0 (world st)))
    as [updates|e] eqn:Hfetch.
  - rewrite (bind_effect_done _ _ _ _ _ Hfetch).
    match goal with
    | |- context [bind (if ?c then ?a else ?b) ?k ?S] =>
        assert (Hlog : exists st1 s1,
                  bind (if c then a else b) k S = k tt st1
                  /\ trace st1 = (trace S ++ s1)%list /\ handler_calls s1 = [])
    end.
    { destruct (0 <? _)%Z; run_steps; do 2 eexists.
      - split; [reflexivity |]. project. split; reflexivity.
      - split; [reflexivity |]. project. exists. now rewrite app_nil_r.
        reflexivity. }
    destruct Hlog as (st1 & s1 & -> & Ht1 & Hs1). project. cbv beta.
    destruct (for_updates_post callbacks userIdSet updates st1) as (s2 & Ht2 & Hg2 & Hr2).
    cbn [trace] in Ht1.
    assert (Hseg : forall tail,
              (trace st1 ++ tail
               = trace st ++ (EvGetUpdates (Some (lastUpdateId st + 1)) 0 :: s1) ++ tail)%list).
    { intros tail. rewrite Ht1, <- !app_assoc. reflexivity. }
    assert (Hguard : forall tail, guarded None tail ->
              guarded None ((EvGetUpdates (Some (lastUpdateId st + 1)) 0 :: s1) ++ tail)).
    { intros tail Htail. apply guarded_app; [| exact Htail].
      cbn. split; [exact I | now apply guarded_silent]. }
    destruct (for_updates B callbacks userIdSet updates st1) as [st2 [result|e|]];
      cbn [fst snd] in *.
    + eexists. split; [rewrite Ht2; apply Hseg |].
      split; [now apply Hguard |].
      intros payload [= ->].
      destruct (Hr2 payload eq_refl) as (u & Hu & Hres).
      exists u. split; [| now apply resolves_app].
      exists (lastUpdateId st + 1), (world st), updates. now split.
    + rewrite bind_logger. unfold ret. project.
      eexists. split; [rewrite Ht2, <- app_assoc; apply Hseg |].
      split; [| discriminate].
      apply Hguard. apply guarded_app; [exact Hg2 | cbn; tauto].
    + eexists. split; [rewrite Ht2; apply Hseg |].
      split; [now apply Hguard | discriminate].
  - rewrite (bind_effect_failed _ _ _ _ _ Hfetch).
    rewrite bind_logger. unfold ret. project.
    segment. split; [cbn; tauto | discriminate].
Qed.

Lemma poll_loop_post callbacks config pollIntervalMs startTime userIdSet fuel :
  emits_exchange B callbacks
    (poll_loop B callbacks config pollIntervalMs startTime userIdSet fuel).
Proof.
  induction fuel as [|fuel IH].
  - intros st. cbn. segment. split; [exact I | discriminate].
  - cbn [poll_loop].
    apply emits_exchange_bind; [apply silent_check_timeout | intros _].
    intros st.
    destruct (poll_updates_post callbacks userIdSet st) as (s1 & Ht1 & Hg1 & Hr1).
    destruct (poll_updates B callbacks userIdSet st) as [st1 [[payload|]|e|]] eqn:Hpoll;
      cbn [fst snd] in *.
    + rewrite (bind_ok _ _ _ _ _ Hpoll).
      exists s1. split; [exact Ht1 |]. split; [exact Hg1 |].
      intros p Hp. cbn in Hp. injection Hp as ->. now apply Hr1.
    + rewrite (bind_ok _ _ _ _ _ Hpoll).
      destruct (emits_exchange_bind callbacks _ _ (silent_setTimeout pollIntervalMs)
                  (fun _ => IH) st1) as (s2 & Ht2 & Hg2 & Hr2).
      exists (s1 ++ s2)%list. split; [now rewrite Ht2, Ht1, app_assoc |].
      split; [now apply guarded_app |].
      intros payload Hp. destruct (Hr2 payload Hp) as (u & Hu & Hres).
      exists u. split; [exact Hu | now apply resolves_app].
    + rewrite (bind_throw _ _ _ _ _ Hpoll).
      exists s1. split; [exact Ht1 |]. split; [exact Hg1 | discriminate].
    + rewrite (bind_pending _ _ _ _ Hpoll).
      exists s1. split; [exact Ht1 |]. split; [exact Hg1 | discriminate].
Qed.

Lemma sendTelegramMessage_post fuel textToSend callbacks config :
  emits_exchange B callbacks (sendTelegramMessage B fuel textToSend callbacks config).
Proof.
  unfold sendTelegramMessage.
  apply emits_exchange_bind; [apply silent_deliver | intros _].
  unfold wait_for_response.
  apply emits_exchange_bind; [apply silent_Date_now | intros startTime].
  apply emits_exchange_bind; [apply silent_clear_pending_updates | intros _].
  apply poll_loop_post.
Qed.

(** *** The whole exchange *)

Lemma selects_matches callbacks src payload cb :
  selects callbacks src payload cb -> command_matches (command cb) payload = true.
Proof.
  destruct src as [id|]; cbn; intros Hfind; apply List.find_some in Hfind as [_ Hm].
  - unfold matches_callback_data in Hm. now destruct (type cb).
  - exact Hm.
Qed.

(** C6.  In every execution of [sendTelegramMessage], whatever the backend
    and the handlers do: each invocation of a handler for a button press
    comes immediately after the acknowledgement of that very press (so the
    handler never runs before it, and never runs if the acknowledgement call
    fails); and whenever the function returns a payload, the last thing it
    did was a handler invocation, itself preceded by the acknowledgement when
    it was for a button press (so the result never returns before the
    acknowledgement either). *)
Theorem acknowledgement_precedes_handler_and_return
    fuel textToSend callbacks config w :
  let run := sendTelegramMessage B fuel textToSend callbacks config (init_state w) in
  (forall pre id cb arg post,
      trace (fst run) = (pre ++ EvHandler (FromCallbackQuery id) cb arg :: post)%list ->
      exists pre',
        pre = (pre' ++ [EvAnswerCallbackQuery id (Some "✓ Received")])%list)
  /\ (forall payload,
        snd run = Ok payload ->
        exists src cb arg, ends_with_handler (trace (fst run)) src cb arg).
Proof.
  intros run.
  destruct (sendTelegramMessage_post fuel textToSend callbacks config (init_state w))
    as (s & Htrace & Hguard & Hres).
  change (trace (fst run) = s) in Htrace. change (snd (_ _)) with (snd run) in Hres.
  rewrite Htrace.
  split.
  - now apply guarded_split.
  - intros payload Hp.
    destruct (Hres payload Hp) as (u & _ & cb & src & _ & _ & Hend).
    now exists src, cb, (handler_argument cb payload).
Qed.

(** C7.  Whenever [sendTelegramMessage] returns, the value is the untouched
    payload of an update the backend delivered: the data of its button press
    or the text of its message, for which [callbacks.find] selected a command
    whose pattern it satisfies; the handler of that command was called last,
    on the match result of the pattern.  In the scenario of the
    specification, the passive command [/^\/block\s+(.+)$/] receiving the text
    [/block bad idea] has its handler called with the match array whose
    group 1 is [bad idea], and the function returns the full text. *)
Theorem returned_value_is_the_raw_payload :
  (forall fuel textToSend callbacks config w payload,
      let run := sendTelegramMessage B fuel textToSend callbacks config (init_state w) in
      snd run = Ok payload ->
      exists update cb src,
        delivered B update
        /\ raw_payload update payload src
        /\ selects callbacks src payload cb
        /\ command_matches (command cb) payload = true
        /\ ends_with_handler (trace (fst run)) src cb (handler_argument cb payload))
  /\ (snd Scenario.block_run = Ok "/block bad idea"
      /\ Scripted.handled (world (fst Scenario.block_run))
         = [ArgMatch [Some "/block bad idea"; Some "bad idea"]]
      /\ handler_argument Scenario.block_command "/block bad idea"
         = ArgMatch [Some "/block bad idea"; Some "bad idea"]).
Proof.
  split.
  - intros fuel textToSend callbacks config w payload run Hp.
    destruct (sendTelegramMessage_post fuel textToSend callbacks config (init_state w))
      as (s & Htrace & Hguard & Hres).
    change (trace (fst run) = s) in Htrace. change (snd (_ _)) with (snd run) in Hres.
    rewrite Htrace.
    destruct (Hres payload Hp) as (u & Hu & cb & src & Hraw & Hsel & Hend).
    exists u, cb, src. repeat split; try assumption.
    now apply (selects_matches callbacks src).
  - vm_compute. repeat split.
Qed.

(** *** The clock while nothing matches *)

Section Clock.

(** How the clock may move during a call that is not a wait: [Z.le] for a
    clock that does not run backwards, [eq] for one that stands still. *)
Variable R : Z -> Z -> Prop.
Hypothesis R_refl : forall x, R x x.
Hypothesis R_trans : forall x y z, R x y -> R y z -> R x z.
Hypothesis R_log : forall lvl msg w, R (now B w) (now B (logger_write B lvl msg w)).
Hypothesis R_fetch : forall offset timeout w,
    R (now B w) (now B (fst (getUpdates B offset timeout w))).
Hypothesis R_ack : forall id ack w,
    R (now B w) (now B (fst (answerCallbackQuery B id ack w))).

Ltac clock :=
  repeat first [ apply R_refl
               | eapply R_trans; [| first [apply R_log | apply R_fetch | apply R_ack]] ].

Lemma handle_callback_query_idle callbacks userIdSet update query :
  callback_query update = Some query ->
  press_matches callbacks userIdSet update = false ->
  clock_kept B R (handle_callback_query B callbacks userIdSet query) goes_on.
Proof.
  intros Hcq Hno st. unfold press_matches in Hno. rewrite Hcq in Hno.
  unfold handle_callback_query, goes_on.
  destruct (authorized userIdSet _); cbn [negb andb] in *.
  2: { cbn. split; [clock | auto]. }
  destruct (query_data query) as [callbackData|].
  2: { cbn. split; [clock | auto]. }
  destruct (truthy callbackData); cbn [negb andb] in *.
  2: { cbn. split; [clock | auto]. }
  destruct (List.find _ callbacks) as [cb|]; [discriminate |].
  unfold bind, logger, effect, ret; project.
  case_reply; project; (split; [clock | eauto]).
Qed.

Lemma handle_message_idle callbacks userIdSet update msg :
  message update = Some msg ->
  text_matches callbacks userIdSet update = false ->
  clock_kept B R (handle_message B callbacks userIdSet msg) goes_on.
Proof.
  intros Hmsg Hno st. unfold text_matches in Hno. rewrite Hmsg in Hno.
  unfold handle_message, goes_on.
  destruct (message_text msg) as [txt|].
  2: { cbn. split; [clock | auto]. }
  destruct (truthy txt); cbn [negb andb] in *.
  2: { cbn. split; [clock | auto]. }
  rewrite bind_logger.
  destruct (authorized userIdSet _); cbn [negb andb] in *.
  2: { cbn. split; [clock | auto]. }
  rewrite Bool.andb_true_r in Hno || cbn in Hno.
  destruct (List.find _ callbacks) as [cb|]; [discriminate |].
  cbn. split; [clock | auto].
Qed.

Lemma process_update_idle callbacks userIdSet update :
  update_matches callbacks userIdSet update = false ->
  clock_kept B R (process_update B callbacks userIdSet update) goes_on.
Proof.
  intros Hno st. apply Bool.orb_false_iff in Hno as [Hpress Htext].
  unfold process_update. rewrite bind_track_update_id.
  set (st0 := {| world := world st; trace := trace st; lastUpdateId := _ |}).
  change (world st) with (world st0).
  assert (Hmessage : clock_kept B R (match message update with
                                 | Some msg => handle_message B callbacks userIdSet msg
                                 | None => ret Fall
                                 end) goes_on).
  { destruct (message update) as [msg|] eqn:Hmsg.
    - now apply (handle_message_idle callbacks userIdSet update).
    - intros s. cbn. split; [clock | left; reflexivity]. }
  destruct (callback_query update) as [query|] eqn:Hcq.
  - destruct (handle_callback_query_idle callbacks userIdSet update query Hcq Hpress st0)
      as [Hclock Hflow].
    unfold bind.
    destruct (handle_callback_query B callbacks userIdSet query st0)
      as [st1 [[| |payload]|e|]]; cbn [fst snd] in *.
    + destruct (Hmessage st1) as [Hclock' Hflow'].
      split; [now apply (R_trans _ _ _ Hclock) | exact Hflow'].
    + split; [exact Hclock | exact Hflow].
    + split; [exact Hclock | exact Hflow].
    + split; [exact Hclock | exact Hflow].
    + split; [exact Hclock | exact Hflow].
  - rewrite bind_ret_l. apply Hmessage.
Qed.

Lemma for_updates_idle callbacks userIdSet batch :
  (forall update, In update batch -> update_matches callbacks userIdSet update = false) ->
  clock_kept B R (for_updates B callbacks userIdSet batch) batch_goes_on.
Proof.
  induction batch as [|update rest IH]; intros Hno st.
  - cbn. split; [clock | now left].
  - cbn [for_updates]. unfold bind.
    destruct (process_update_idle callbacks userIdSet update
                (Hno update (or_introl eq_refl)) st) as [Hclock Hflow].
    assert (Hrest : forall update0, In update0 rest ->
                                    update_matches callbacks userIdSet update0 = false).
    { intros u Hu. apply Hno. now right. }
    destruct (process_update B callbacks userIdSet update st)
      as [st1 [[| |payload]|e|]]; cbn [fst snd] in *.
    + destruct (IH Hrest st1) as [Hclock' Hres].
      split; [now apply (R_trans _ _ _ Hclock) | exact Hres].
    + destruct (IH Hrest st1) as [Hclock' Hres].
      split; [now apply (R_trans _ _ _ Hclock) | exact Hres].
    + destruct Hflow as [Hf | [Hf | [e Hf]]]; discriminate.
    + split; [exact Hclock | right; now exists e].
    + destruct Hflow as [Hf | [Hf | [e Hf]]]; discriminate.
Qed.

Lemma poll_updates_idle callbacks userIdSet :
  never_matches B callbacks userIdSet ->
  clock_kept B R (poll_updates B callbacks userIdSet) (fun r => r = Ok None).
Proof.
  intros Hnever st. unfold poll_updates, try_catch. rewrite bind_get_lastUpdateId.
  destruct (snd (getUpdates B (Some (lastUpdateId st + 1)) 0 (world st)))
    as [updates|e] eqn:Hfetch.
  - rewrite (bind_effect_done _ _ _ _ _ Hfetch).
    match goal with
    | |- context [bind (if ?c then ?a else ?b) ?k ?S] =>
        assert (Hlog : exists st1,
                  bind (if c then a else b) k S = k tt st1
                  /\ R (now B (world st)) (now B (world st1)))
    end.
    { destruct (0 <? _)%Z; run_steps; eexists; (split; [reflexivity |]);
        project; clock. }
    destruct Hlog as (st1 & -> & Hclock1). cbv beta.
    destruct (for_updates_idle callbacks userIdSet updates
                (Hnever _ _ _ _ Hfetch) st1) as [Hclock2 Hres].
    destruct (for_updates B callbacks userIdSet updates st1) as [st2 [result|e|]];
      cbn [fst snd] in *.
    + split; [now apply (R_trans _ _ _ Hclock1) |].
      destruct Hres as [-> | [e He]]; [reflexivity | discriminate].
    + rewrite bind_logger. unfold ret. project. split; [| reflexivity].
      eapply R_trans; [| apply R_log]. now apply (R_trans _ _ _ Hclock1).
    + destruct Hres as [Hr | [e Hr]]; discriminate.
  - rewrite (bind_effect_failed _ _ _ _ _ Hfetch).
    rewrite bind_logger. unfold ret. project. split; [clock | reflexivity].
Qed.

Lemma clear_pending_updates_idle :
  clock_kept B R (clear_pending_updates B) (fun r => r = Ok tt).
Proof.
  intros st. unfold clear_pending_updates, try_catch, bind, effect, logger. project.
  destruct (snd (getUpdates B None 0 (world st))) as [oldUpdates|e]; project.
  - destruct (List.last _ _) as [u|]; [destruct (update_id u) |];
      cbn; (split; [clock | reflexivity]).
  - cbn. split; [clock | reflexivity].
Qed.

End Clock.

(** *** The deadline *)

Lemma check_timeout_fires config startTime st :
  0 < telegramTimeoutMs config ->
  telegramTimeoutMs config <= now B (world st) - startTime ->
  check_timeout B config startTime st
  = ({| world := logger_write B warn (timeout_message config) (world st);
        trace := (trace st ++ [EvNow (now B (world st))])
                 ++ [EvLog warn (timeout_message config)];
        lastUpdateId := lastUpdateId st |}, Throw timeout_error).
Proof.
  intros Hpos Hlate. unfold check_timeout.
  apply Z.ltb_lt in Hpos. rewrite Hpos.
  unfold bind, Date_now. project.
  apply Z.leb_le in Hlate. rewrite Hlate. reflexivity.
Qed.

Lemma check_timeout_passes config startTime st :
  0 < telegramTimeoutMs config ->
  now B (world st) - startTime < telegramTimeoutMs config ->
  check_timeout B config startTime st
  = ({| world := world st; trace := trace st ++ [EvNow (now B (world st))];
        lastUpdateId := lastUpdateId st |}, Ok tt).
Proof.
  intros Hpos Hearly. unfold check_timeout.
  apply Z.ltb_lt in Hpos. rewrite Hpos.
  unfold bind, Date_now. project.
  apply Z.leb_gt in Hearly. rewrite Hearly. reflexivity.
Qed.

Lemma poll_interval_floor config : 1000 <= poll_interval config.
Proof. unfold poll_interval. lia. Qed.

Lemma clock_ideal_keeps (Hideal : clock_ideal B) callbacks userIdSet :
  never_matches B callbacks userIdSet ->
  forall st, now B (world (fst (poll_updates B callbacks userIdSet st)))
             = now B (world st).
Proof.
  intros Hnever st. symmetry.
  refine (proj1 (poll_updates_idle eq (@eq_refl Z) (@eq_trans Z) _ _ _
                   callbacks userIdSet Hnever st));
    intros; symmetry; apply Hideal.
Qed.

(** From any state, the loop ends in the timeout once enough iterations
    are allowed: the clock gains at least the interval at every turn. *)
Lemma poll_loop_times_out callbacks config startTime userIdSet :
  clock_monotone B ->
  never_matches B callbacks userIdSet ->
  0 < telegramTimeoutMs config ->
  forall n st,
    telegramTimeoutMs config <= now B (world st) - startTime + Z.of_nat n * 1000 ->
    forall fuel, (n < fuel)%nat ->
      exists st' mid t,
        poll_loop B callbacks config (poll_interval config) startTime userIdSet fuel st
        = (st', Throw timeout_error)
        /\ trace st'
           = (trace st ++ mid ++ [EvNow t; EvLog warn (timeout_message config)])%list
        /\ telegramTimeoutMs config <= t - startTime
        /\ (clock_ideal B ->
            now B (world st) - startTime
            < telegramTimeoutMs config + poll_interval config ->
            t - startTime < telegramTimeoutMs config + poll_interval config).
Proof.
  intros Hmono Hnever Hpos.
  assert (Hfire : forall st fuel,
            telegramTimeoutMs config <= now B (world st) - startTime ->
            exists st' mid t,
              poll_loop B callbacks config (poll_interval config) startTime userIdSet
                (S fuel) st = (st', Throw timeout_error)
              /\ trace st'
                 = (trace st ++ mid ++ [EvNow t; EvLog warn (timeout_message config)])%list
              /\ telegramTimeoutMs config <= t - startTime
              /\ (clock_ideal B ->
                  now B (world st) - startTime
                  < telegramTimeoutMs config + poll_interval config ->
                  t - startTime < telegramTimeoutMs config + poll_interval config)).
  { intros st fuel Hlate. cbn [poll_loop].
    rewrite (bind_throw _ _ _ _ _ (check_timeout_fires config startTime st Hpos Hlate)).
    eexists. exists [], (now B (world st)). split; [reflexivity |].
    project. split; [now rewrite <- app_assoc |]. split; [exact Hlate | auto]. }
  induction n as [|n IH]; intros st Henough fuel Hfuel;
    (destruct fuel as [|fuel]; [lia |]).
  - apply Hfire. lia.
  - destruct (Z_le_gt_dec (telegramTimeoutMs config) (now B (world st) - startTime))
      as [Hlate | Hearly]; [now apply Hfire |].
    assert (Hearly' : now B (world st) - startTime < telegramTimeoutMs config) by lia.
    pose proof (check_timeout_passes config startTime st Hpos Hearly') as Hcheck.
    set (st1 := {| world := world st; trace := trace st ++ [EvNow (now B (world st))];
                   lastUpdateId := lastUpdateId st |}) in Hcheck.
    destruct (poll_updates_idle Z.le Z.le_refl Z.le_trans
                (log_takes_time B Hmono) (fetch_takes_time B Hmono)
                (ack_takes_time B Hmono) callbacks userIdSet Hnever st1)
      as [Hclock Hnone].
    destruct (poll_updates_post callbacks userIdSet st1) as (s & Hs & _).
    pose proof (fun Hideal => clock_ideal_keeps Hideal callbacks userIdSet Hnever st1)
      as Hstill.
    destruct (poll_updates B callbacks userIdSet st1) as [st2 r] eqn:Hpoll.
    cbn [fst snd] in *. subst r.
    rewrite (poll_loop_goes_on _ _ _ _ _ _ _ _ _ Hcheck Hpoll).
    set (st3 := {| world := sleep B (poll_interval config) (world st2);
                   trace := trace st2 ++ [EvSleep (poll_interval config)];
                   lastUpdateId := lastUpdateId st2 |}).
    pose proof (wait_lasts B Hmono (poll_interval config) (world st2)) as Hwait.
    pose proof (poll_interval_floor config) as Hfloor.
    destruct (IH st3) with (fuel := fuel) as (st' & mid & t & Hrun & Htrace & Hlow & Hup).
    { subst st3. project. subst st1. cbn [world] in Hclock. lia. }
    { lia. }
    exists st', ([EvNow (now B (world st))] ++ s ++ [EvSleep (poll_interval config)]
                 ++ mid)%list, t.
    split; [exact Hrun |]. split.
    + rewrite Htrace. subst st3. project. rewrite Hs. subst st1. project.
      now rewrite <- !app_assoc.
    + split; [exact Hlow |].
      intros Hideal _. apply Hup; [exact Hideal |].
      subst st3. project. rewrite (wait_is_exact B Hideal), (Hstill Hideal).
      subst st1. project. lia.
Qed.

Lemma bind_Date_now {C} (k : Z -> M C) st :
  bind (Date_now B) k st
  = k (now B (world st))
      {| world := world st; trace := trace st ++ [EvNow (now B (world st))];
         lastUpdateId := lastUpdateId st |}.
Proof. reflexivity. Qed.

(** C3 (as amended).  Take a deadline [D > 0], the floor-enforced interval
    [p], a backend that never produces a matching event, and a clock that
    does not run backwards and on which a wait lasts at least its duration.
    Once the message is delivered, the exchange terminates: with enough fuel
    (that is, after finitely many iterations) [sendTelegramMessage] fails
    with the timeout error.  The elapsed time [t - startTime] read by the
    failing check is at least [D]; it is below [D + p] when, in addition,
    logging, fetching and acknowledging take no time on the clock and a wait
    lasts exactly its duration.  The deadline is compared at the top of every
    iteration, before the fetch: an iteration entered with elapsed time at
    least [D] fails after reading the clock and logging, without fetching,
    and one entered earlier goes on to poll. *)
Theorem deadline_ends_the_exchange textToSend callbacks config w :
  let D := telegramTimeoutMs config in
  let p := poll_interval config in
  let userIdSet : gset Z := list_to_set (telegramUserIds config) in
  let st0 := fst (deliver B textToSend callbacks config (init_state w)) in
  let startTime := now B (world st0) in
  0 < D ->
  clock_monotone B ->
  never_matches B callbacks userIdSet ->
  snd (deliver B textToSend callbacks config (init_state w)) = Ok tt ->
  (exists fuel0, forall fuel, (fuel0 <= fuel)%nat ->
     let run := sendTelegramMessage B fuel textToSend callbacks config (init_state w) in
     snd run = Throw timeout_error
     /\ exists mid t,
          trace (fst run)
          = (trace st0 ++ EvNow startTime :: mid
             ++ [EvNow t; EvLog warn (timeout_message config)])%list
          /\ D <= t - startTime
          /\ (clock_ideal B -> t - startTime < D + p))
  /\ (forall fuel st start,
        (D <= now B (world st) - start ->
         poll_loop B callbacks config p start userIdSet (S fuel) st
         = ({| world := logger_write B warn (timeout_message config) (world st);
               trace := (trace st ++ [EvNow (now B (world st))])
                        ++ [EvLog warn (timeout_message config)];
               lastUpdateId := lastUpdateId st |}, Throw timeout_error))
        /\ (now B (world st) - start < D ->
            poll_loop B callbacks config p start userIdSet (S fuel) st
            = bind (poll_updates B callbacks userIdSet)
                (fun result =>
                   match result with
                   | Some payload => ret payload
                   | None =>
                       bind (setTimeout B p)
                         (fun _ => poll_loop B callbacks config p start userIdSet fuel)
                   end)
                {| world := world st; trace := trace st ++ [EvNow (now B (world st))];
                   lastUpdateId := lastUpdateId st |})).
Proof.
  intros D p userIdSet st0 startTime Hpos Hmono Hnever Hdelivered.
  split.
  - exists (S (Z.to_nat (D / 1000 + 1))). intros fuel Hfuel run. subst run.
    unfold sendTelegramMessage. subst startTime st0.
    destruct (deliver B textToSend callbacks config (init_state w)) as [st0 r] eqn:Hd.
    cbn [fst snd] in *. subst r.
    rewrite (bind_ok _ _ _ _ _ Hd).
    set (startTime := now B (world st0)).
    unfold wait_for_response. rewrite bind_Date_now. fold startTime. fold userIdSet.
    set (st1 := {| world := world st0; trace := trace st0 ++ [EvNow startTime];
                   lastUpdateId := lastUpdateId st0 |}).
    destruct (clear_pending_updates_idle Z.le Z.le_refl Z.le_trans
                (log_takes_time B Hmono) (fetch_takes_time B Hmono) st1)
      as [Hclock Hprimed].
    pose proof (fun Hideal : clock_ideal B =>
                  proj1 (clear_pending_updates_idle eq (@eq_refl Z) (@eq_trans Z)
                           (fun lvl msg w0 => eq_sym (log_is_instant B Hideal lvl msg w0))
                           (fun o t w0 => eq_sym (fetch_is_instant B Hideal o t w0))
                           st1)) as Hstill.
    destruct (silent_clear_pending_updates st1) as (s & Hs & _).
    destruct (clear_pending_updates B st1) as [st2 r] eqn:Hprime.
    cbn [fst snd] in *. subst r.
    rewrite (bind_ok _ _ _ _ _ Hprime).
    destruct (poll_loop_times_out callbacks config startTime userIdSet Hmono Hnever Hpos
                (Z.to_nat (D / 1000 + 1)) st2) with (fuel := fuel)
      as (st' & mid & t & Hrun & Htrace & Hlow & Hup).
    { pose proof (Z.mul_succ_div_gt D 1000 ltac:(lia)) as Hdiv.
      assert (0 <= D / 1000) by (apply Z.div_pos; lia).
      rewrite Z2Nat.id by lia. subst st1. cbn [world] in Hclock.
      fold startTime in Hclock. fold D. lia. }
    { lia. }
    rewrite Hrun. fold p in Hup. cbn [fst snd].
    split; [reflexivity |].
    exists (s ++ mid)%list, t. split.
    + rewrite Htrace, Hs. subst st1. cbn [trace]. now rewrite <- !app_assoc.
    + split; [exact Hlow |].
      intros Hideal. apply (Hup Hideal). rewrite <- (Hstill Hideal).
      subst st1. cbn [world]. fold startTime. pose proof (poll_interval_floor config).
      fold p in H. fold D. lia.
  - intros fuel st start. split.
    + intros Hlate. cbn [poll_loop].
      now rewrite (bind_throw _ _ _ _ _ (check_timeout_fires config start st Hpos Hlate)).
    + intros Hearly. cbn [poll_loop].
      now rewrite (bind_ok _ _ _ _ _ (check_timeout_passes config start st Hpos Hearly)).
Qed.

End Broker.

(* ===================================================================== *)
(** ** Runs on the scripted backend *)
(* ===================================================================== *)

Lemma failing_handler_is_caught_and_polling_goes_on_witness :
  let st := init_state (Scripted.start [Scripted.instant [yes_press]]) in
  matched_event [failing_button] users_42 yes_press failing_button "/yes-123"
    (FromCallbackQuery "q1")
  /\ snd (poll_updates Scripted.backend [failing_button] users_42 st) = Ok None.
Proof.
  intros st.
  assert (Hm : matched_event [failing_button] users_42 yes_press failing_button
                 "/yes-123" (FromCallbackQuery "q1")).
  { apply (matched_press [failing_button] users_42 yes_press failing_button "/yes-123"
             (press (Some "/yes-123"))); vm_compute; reflexivity. }
  split; [exact Hm |].
  exact (proj1 (failing_handler_is_caught_and_polling_goes_on Scripted.backend
                  [failing_button] users_42 yes_press failing_button "/yes-123"
                  (FromCallbackQuery "q1") (new_Error "handler failed") [] [] st
                  Hm (fun _ _ => eq_refl) (fun _ _ _ => eq_refl) eq_refl
                  (fun _ => eq_refl))).
Defined.

(** C1, counterexample.  The authorized user presses the button, the press
    matches, it is acknowledged and the handler runs and raises; the exchange
    does not resolve with the payload: it goes on polling and ends in the
    timeout of the deadline. *)
Lemma failing_handler_hides_the_payload :
  let run := Scripted.ask 20 "Approve?" [failing_button]
               (Scripted.config [42] 2000 1000)
               [Scripted.instant []; Scripted.instant []; Scripted.instant [yes_press]] in
  snd run = Throw timeout_error
  /\ snd run <> Ok "/yes-123"
  /\ Scripted.acknowledged (world (fst run)) = [("q1", Some "✓ Received")]
  /\ Scripted.handled (world (fst run)) = [ArgString "/yes-123"].
Proof. vm_compute. repeat split. discriminate. Qed.

Lemma long_text_fails_before_any_network_call_witness :
  TELEGRAM_MAX_LENGTH < Js.length long_text
  /\ snd (Scripted.ask 3 long_text [] (Scripted.config [42] 5000 1000) [])
     = Throw (new_Error "Message length (4097) exceeds Telegram maximum (4096)").
Proof.
  split; [vm_compute; reflexivity |].
  exact (proj1 (long_text_fails_before_any_network_call Scripted.backend 3 long_text []
                  (Scripted.config [42] 5000 1000) (Scripted.start [])
                  ltac:(vm_compute; reflexivity))).
Defined.

(** The muted backend never produces a matching event, and its clock never
    runs backwards; without lag its calls take no time. *)
Lemma muted_never_matches lag callbacks userIdSet :
  never_matches (Scripted.muted lag) callbacks userIdSet.
Proof.
  intros offset timeout w batch Hbatch update Hin. cbn in Hbatch.
  unfold Scripted.fetch_muted in Hbatch.
  destruct (Scripted.polls w) as [|p rest]; cbn in Hbatch.
  - injection Hbatch as <-. destruct Hin.
  - destruct (Scripted.reply p); [| discriminate].
    injection Hbatch as <-. destruct Hin.
Qed.

Lemma muted_clock_monotone lag : clock_monotone (Scripted.muted lag).
Proof.
  split; cbn.
  - intros _ _ w. lia.
  - intros _ _ w. unfold Scripted.fetch_muted.
    destruct (Scripted.polls w) as [|p rest]; cbn; [lia |]. destruct lag; lia.
  - intros _ _ w. lia.
  - intros ms w. lia.
Qed.

Lemma muted_clock_ideal : clock_ideal (Scripted.muted false).
Proof.
  split; cbn; try reflexivity.
  intros _ _ w. unfold Scripted.fetch_muted.
  destruct (Scripted.polls w) as [|p rest]; cbn; lia.
Qed.

Lemma deadline_ends_the_exchange_witness :
  exists fuel0 t,
    snd (sendTelegramMessage (Scripted.muted false) fuel0 "Approve?" [yes_button]
           (Scripted.config [42] 5000 1000)
           (init_state (Scripted.start [Scripted.instant []; Scripted.instant [yes_press]])))
    = Throw timeout_error
    /\ 5000 <= t - 0 /\ t - 0 < 5000 + 1000.
Proof.
  destruct (deadline_ends_the_exchange (Scripted.muted false) "Approve?" [yes_button]
              (Scripted.config [42] 5000 1000)
              (Scripted.start [Scripted.instant []; Scripted.instant [yes_press]])
              ltac:(cbn; lia) (muted_clock_monotone false)
              (muted_never_matches false _ _) eq_refl)
    as [(fuel0 & Hends) _].
  destruct (Hends fuel0 (le_n fuel0)) as (Hres & mid & t & _ & Hlow & Hup).
  exists fuel0, t.
  split; [exact Hres | split; [exact Hlow | exact (Hup muted_clock_ideal)]].
Defined.

(** C3, counterexample.  With a deadline of 1000 ms and an interval of
    1000 ms, on a backend that never produces a matching event and whose
    first poll takes 5000 ms, the exchange fails with the timeout at an
    elapsed time of 6000 ms, outside [D, D + p). *)
Lemma slow_fetch_overshoots_the_deadline :
  let B := Scripted.muted true in
  let config := Scripted.config [42] 1000 1000 in
  let run := sendTelegramMessage B 5 "Approve?" [yes_button] config
               (init_state (Scripted.start [Scripted.instant []; slow_poll])) in
  clock_monotone B
  /\ never_matches B [yes_button] users_42
  /\ snd run = Throw timeout_error
  /\ clock_readings (trace (fst run)) = [0; 0; 6000]
  /\ ~ (6000 - 0 < telegramTimeoutMs config + poll_interval config).
Proof.
  intros B config run.
  split; [apply muted_clock_monotone |].
  split; [apply muted_never_matches |].
  vm_compute. repeat split. discriminate.
Qed.




Lemma unauthorized_event_is_discarded_witness :
  let st := init_state (Scripted.start []) in
  let stranger := Scripted.activation 7 "q1" 99 "/yes-123" in
  unauthorized_origin users_42 stranger
  /\ matches_callback_data "/yes-123" yes_button = true
  /\ lastUpdateId (fst (process_update Scripted.backend [yes_button] users_42 stranger st))
     = 7.
Proof.
  intros st stranger.
  assert (Hun : unauthorized_origin users_42 stranger) by (vm_compute; reflexivity).
  split; [exact Hun | split; [reflexivity |]].
  exact (proj1 (proj2 (proj2 (unauthorized_event_is_discarded Scripted.backend
                                [yes_button] users_42 stranger st Hun)))).
Defined.

Lemma acknowledgement_precedes_handler_and_return_witness :
  snd yes_run = Ok "/yes-123"
  /\ (exists pre',
        removelast (trace (fst yes_run))
        = (pre' ++ [EvAnswerCallbackQuery "q1" (Some "✓ Received")])%list)
  /\ (exists src cb arg, ends_with_handler (trace (fst yes_run)) src cb arg).
Proof.
  destruct (acknowledgement_precedes_handler_and_return Scripted.backend 20 "Approve?"
              [yes_button] (Scripted.config [42] 5000 1000)
              (Scripted.start [Scripted.instant []; Scripted.instant [];
                               Scripted.instant [yes_press]]))
    as [Hhandler Hreturn].
  split; [reflexivity | split].
  - apply (Hhandler (removelast (trace (fst yes_run))) "q1" yes_button
             (ArgString "/yes-123") []).
    vm_compute. reflexivity.
  - apply (Hreturn "/yes-123"). reflexivity.
Defined.

Lemma returned_value_is_the_raw_payload_witness :
  snd Scenario.block_run = Ok "/block bad idea"
  /\ exists update cb src,
       raw_payload update "/block bad idea" src
       /\ ends_with_handler (trace (fst Scenario.block_run)) src cb
            (handler_argument cb "/block bad idea").
Proof.
  split; [reflexivity |].
  destruct (proj1 (returned_value_is_the_raw_payload Scripted.backend)
              5%nat "Stop?" [Scenario.block_command] (Scripted.config [42] 5000 1000)
              (Scripted.start
                 [Scripted.instant [];
                  Scripted.instant [Scripted.text_message 7 42 "/block bad idea"]])
              "/block bad idea" eq_refl)
    as (update & cb & src & _ & Hraw & _ & _ & Hend).
  exists update, cb, src. split; [exact Hraw | exact Hend].
Defined.

Lemma priming_sets_the_cursor_and_never_fails_witness :
  let st := init_state (Scripted.start [Scripted.instant stale_ascending]) in
  ascending stale_ascending
  /\ Some (lastUpdateId (fst (clear_pending_updates Scripted.backend st))) = Some 5.
Proof.
  intros st.
  assert (Hasc : ascending stale_ascending).
  { exists [3; 5]. split; [reflexivity |].
    repeat constructor; lia. }
  split; [exact Hasc |].
  destruct (priming_sets_the_cursor_and_never_fails Scripted.backend st)
    as (_ & _ & _ & Hhigh).
  exact (Hhigh stale_ascending eq_refl ltac:(discriminate) Hasc).
Defined.

(** C8, counterexample.  When the drained queue is not in ascending order,
    the cursor is the last identifier (3), not the highest one (5). *)
Lemma priming_takes_the_last_identifier_not_the_highest :
  let st := init_state (Scripted.start [Scripted.instant stale_descending]) in
  let run := clear_pending_updates Scripted.backend st in
  snd run = Ok tt
  /\ lastUpdateId (fst run) = 3
  /\ highest_identifier stale_descending = Some 5
  /\ Some (lastUpdateId (fst run)) <> highest_identifier stale_descending.
Proof. vm_compute. repeat split; discriminate. Qed.

Lemma unmatched_activation_acknowledged_unless_empty_witness :
  let st := init_state (Scripted.start []) in
  let run := handle_callback_query Scripted.backend [yes_button] users_42
               (press (Some "/other")) st in
  acknowledgements (trace (fst run)) = [("q1", None)]
  /\ snd run = Ok Fall
  /\ handle_callback_query Scripted.backend [yes_button] users_42 (press (Some EmptyString)) st
     = (st, Ok Continue).
Proof.
  intros st run.
  destruct (unmatched_activation_acknowledged_unless_empty Scripted.backend
              [yes_button] users_42 (press (Some "/other")) st
              ltac:(vm_compute; reflexivity)) as [Hack _].
  destruct (unmatched_activation_acknowledged_unless_empty Scripted.backend
              [yes_button] users_42 (press (Some EmptyString)) st
              ltac:(vm_compute; reflexivity)) as [_ Hskip].
  specialize (Hack "/other" eq_refl eq_refl).
  assert (Hnone : forall cb, In cb [yes_button] ->
                             matches_callback_data "/other" cb = false).
  { intros cb [<- | []]. reflexivity. }
  destruct (Hack Hnone) as (Htrace & _ & Hres & _).
  split; [| split].
  - subst run. rewrite Htrace. reflexivity.
  - subst run. rewrite Hres. reflexivity.
  - exact (Hskip eq_refl).
Defined.

(** C9, counterexample.  An authorized button press with the empty payload
    matches no command, yet it is not acknowledged: the update is skipped. *)
Lemma empty_payload_activation_is_not_acknowledged :
  let st := init_state (Scripted.start []) in
  let update := Scripted.activation 7 "q1" 42 EmptyString in
  let run := process_update Scripted.backend [yes_button] users_42 update st in
  authorized users_42 42 = true
  /\ List.find (matches_callback_data EmptyString) [yes_button] = None
  /\ snd run = Ok Continue
  /\ acknowledgements (trace (fst run)) = []
  /\ Scripted.acknowledged (world (fst run)) = [].
Proof. vm_compute. repeat split. Qed.

(* ===================================================================== *)
(** ** Properties of the configuration loader *)
(* ===================================================================== *)

Section LoaderProperties.

Import ConfigService.

Variable JSON_parse : string -> Reply Json.

(** Loading from the file returns the content of a usable file and the
    defaults otherwise; either way it completes normally, and the value it
    returns is an object, which it leaves in the cache. *)
Lemma load_from_file_result file st :
  let config := match usable_file JSON_parse file with
                | Some parsed => parsed
                | None => DEFAULT_CONFIG
                end in
  snd (load_from_file JSON_parse file st) = Done config
  /\ cachedConfig (fst (load_from_file JSON_parse file st)) = Some config
  /\ truthy_json config = true.
Proof.
  intros config. subst config.
  unfold load_from_file, usable_file, try_catch, bind, await, use_defaults, bind.
  destruct (file_exists file) as [[|]|e1]; cbn; auto.
  destruct (file_text file) as [body|e2]; cbn; auto.
  destruct (JSON_parse body) as [[ |b|n|s|items|fields]|e3]; cbn; auto.
  destruct (truthy_property (assoc "logLevel" fields)); cbn; auto.
  destruct (truthy_property (assoc "logFile" fields)); cbn; auto.
Qed.

(** C10.  [loadConfig] never throws: whatever [./config.json] is (absent,
    unreadable, not JSON, or without a truthy [logLevel] or [logFile]), the
    call returns a configuration, which is the parsed file when the file is
    usable and a copy of [DEFAULT_CONFIG] on any failure.  The value is left
    in the cache, so any later call returns the same value without looking at
    the file, whatever the file has become, until [clearConfigCache] empties
    the cache; the next call then loads anew. *)
Theorem loadConfig_is_total_and_cached (file later : File) (st : State) :
  let first := loadConfig JSON_parse file st in
  exists config,
    snd first = Done config
    /\ cachedConfig (fst first) = Some config
    /\ (cachedConfig st = None ->
        config = match usable_file JSON_parse file with
                 | Some parsed => parsed
                 | None => DEFAULT_CONFIG
                 end)
    /\ loadConfig JSON_parse later (fst first) = (fst first, Done config)
    /\ cachedConfig (fst (clearConfigCache (fst first))) = None
    /\ snd (loadConfig JSON_parse later (fst (clearConfigCache (fst first))))
       = Done match usable_file JSON_parse later with
              | Some parsed => parsed
              | None => DEFAULT_CONFIG
              end.
Proof.
  intros first.
  assert (Hfirst : exists config,
            snd first = Done config
            /\ cachedConfig (fst first) = Some config
            /\ truthy_json config = true
            /\ (cachedConfig st = None ->
                config = match usable_file JSON_parse file with
                         | Some parsed => parsed
                         | None => DEFAULT_CONFIG
                         end)).
  { subst first. unfold loadConfig.
    destruct (cachedConfig st) as [cached|] eqn:Hcached.
    - destruct (truthy_json cached) eqn:Htruthy.
      + exists cached. cbn. repeat split; auto. discriminate.
      + destruct (load_from_file_result file st) as (H1 & H2 & H3).
        eexists. split; [exact H1 | split; [exact H2 | split; [exact H3 |]]].
        discriminate.
    - destruct (load_from_file_result file st) as (H1 & H2 & H3).
      eexists. repeat split; eauto. }
  destruct Hfirst as (config & Hres & Hcache & Htruthy & Hvalue).
  exists config. repeat split; try assumption.
  - unfold loadConfig at 1. rewrite Hcache, Htruthy. reflexivity.
  - unfold clearConfigCache. cbn [fst]. unfold loadConfig. cbn [cachedConfig].
    apply (load_from_file_result later).
Qed.

End LoaderProperties.

Lemma loadConfig_is_total_and_cached_witness :
  let first := ConfigService.loadConfig sample_parse sample_file ConfigService.initial in
  snd first = Done sample_config
  /\ ConfigService.loadConfig sample_parse absent_file (fst first)
     = (fst first, Done sample_config).
Proof.
  intros first.
  destruct (loadConfig_is_total_and_cached sample_parse sample_file absent_file
              ConfigService.initial)
    as (config & Hres & _ & Hvalue & Hagain & _).
  specialize (Hvalue eq_refl). cbn in Hvalue. subst config.
  split; [exact Hres | exact Hagain].
Defined.

(* ===================================================================== *)
(** ** Further properties of the approval broker *)
(* ===================================================================== *)

Import Observations.

Section BrokerPhases.

Context {W : Type} (B : Backend (W := W)).

Implicit Types (st : State (W := W)) (w : W).
Implicit Types (callbacks : list (TelegramCallback (W := W))).
Implicit Types (P : Event (W := W) -> bool).

Ltac simpl_state := cbn [world trace lastUpdateId fst snd negb].

(** Run the deterministic steps at the head of a computation. *)
Ltac run_steps :=
  repeat (cbv beta;
          first [ rewrite bind_assoc | rewrite bind_ret_l | rewrite bind_logger
                | rewrite bind_set_lastUpdateId | rewrite bind_track_update_id
                | rewrite bind_get_lastUpdateId ]);
  simpl_state.

(** *** Computations whose effects all satisfy a predicate *)

Lemma only_emits_ret P {A} (a : A) : only_emits P (ret a).
Proof. intros st. exists []. now rewrite app_nil_r. Qed.

Lemma only_emits_throw P {A} e : only_emits P (throw (A := A) e).
Proof. intros st. exists []. now rewrite app_nil_r. Qed.

Lemma only_emits_pending P {A} : only_emits P (fun st => (st, Pending (A := A))).
Proof. intros st. exists []. now rewrite app_nil_r. Qed.

Lemma only_emits_bind P {A C} (m : M A) (k : A -> M C) :
  only_emits P m -> (forall a, only_emits P (k a)) -> only_emits P (bind m k).
Proof.
  intros Hm Hk st. unfold bind.
  destruct (Hm st) as (s1 & Ht1 & Hs1).
  destruct (m st) as [st1 [a|e|]]; cbn in Ht1; try (now exists s1).
  destruct (Hk a st1) as (s2 & Ht2 & Hs2).
  exists (s1 ++ s2)%list. split.
  - now rewrite Ht2, Ht1, app_assoc.
  - now rewrite List.forallb_app, Hs1, Hs2.
Qed.

Lemma only_emits_try_catch P {A} (m : M A) (h : Error -> M A) :
  only_emits P m -> (forall e, only_emits P (h e)) -> only_emits P (try_catch m h).
Proof.
  intros Hm Hh st. unfold try_catch.
  destruct (Hm st) as (s1 & Ht1 & Hs1).
  destruct (m st) as [st1 [a|e|]]; cbn in Ht1; try (now exists s1).
  destruct (Hh e st1) as (s2 & Ht2 & Hs2).
  exists (s1 ++ s2)%list. split.
  - now rewrite Ht2, Ht1, app_assoc.
  - now rewrite List.forallb_app, Hs1, Hs2.
Qed.

Lemma only_emits_effect P {A} (ev : Event) (f : W -> W * Reply A) :
  P ev = true -> only_emits P (effect ev f).
Proof. intros H st. exists [ev]. split; [reflexivity |]. cbn. now rewrite H. Qed.

Lemma only_emits_Date_now P :
  (forall t, P (EvNow t) = true) -> only_emits P (Date_now B).
Proof. intros H st. eexists [_]. split; [reflexivity |]. cbn. now rewrite H. Qed.

Lemma only_emits_set_lastUpdateId P id : only_emits P (set_lastUpdateId id).
Proof. intros st. exists []. cbn. now rewrite app_nil_r. Qed.

Lemma only_emits_get_lastUpdateId P : only_emits P get_lastUpdateId.
Proof. intros st. exists []. cbn. now rewrite app_nil_r. Qed.

(** Break a computation into its steps; what is left are the conditions on
    the events. *)
Ltac emits :=
  repeat match goal with
    | |- only_emits _ (bind _ _) => apply only_emits_bind; [| intros ?]
    | |- only_emits _ (try_catch _ _) => apply only_emits_try_catch; [| intros ?]
    | |- only_emits _ (ret _) => apply only_emits_ret
    | |- only_emits _ (throw _) => apply only_emits_throw
    | |- only_emits _ (set_lastUpdateId _) => apply only_emits_set_lastUpdateId
    | |- only_emits _ get_lastUpdateId => apply only_emits_get_lastUpdateId
    | |- only_emits _ (Date_now _) => apply only_emits_Date_now; reflexivity
    | |- only_emits _ (logger _ _ _) => apply only_emits_effect; reflexivity
    | |- only_emits _ (invoke_handler _ _ _) => apply only_emits_effect; reflexivity
    | |- only_emits _ (effect _ _) => apply only_emits_effect; try reflexivity
    | |- only_emits _ (if ?c then _ else _) => destruct c
    | |- only_emits _ (match ?x with _ => _ end) => destruct x
    end.

(** *** The two phases of an exchange *)

Lemma deliver_only_delivers textToSend callbacks config :
  only_emits (delivering textToSend) (deliver B textToSend callbacks config).
Proof.
  unfold deliver, validateMessageLength, initializeBot.
  emits.
  generalize (inlineKeyboard callbacks). intros keyboard.
  induction (telegramUserIds config) as [|userId rest IH]; cbn [send_to_all]; emits.
  - cbn. now rewrite String.eqb_refl.
  - exact IH.
Qed.

Lemma setTimeout_listens interval : only_emits (listening interval) (setTimeout B interval).
Proof. apply only_emits_effect. cbn. apply Z.eqb_refl. Qed.

Lemma process_update_listens interval callbacks userIdSet update :
  only_emits (listening interval) (process_update B callbacks userIdSet update).
Proof. unfold process_update, handle_callback_query, handle_message. emits. Qed.

Lemma for_updates_listens interval callbacks userIdSet updates :
  only_emits (listening interval) (for_updates B callbacks userIdSet updates).
Proof.
  induction updates as [|update rest IH]; cbn [for_updates]; [emits |].
  apply only_emits_bind; [apply process_update_listens |].
  intros [| |payload]; emits; exact IH.
Qed.

Lemma poll_loop_listens callbacks config startTime userIdSet fuel :
  only_emits (listening (poll_interval config))
    (poll_loop B callbacks config (poll_interval config) startTime userIdSet fuel).
Proof.
  induction fuel as [|fuel IH]; cbn [poll_loop]; [apply only_emits_pending |].
  apply only_emits_bind; [unfold check_timeout; emits | intros _].
  apply only_emits_bind.
  - unfold poll_updates. emits. apply for_updates_listens.
  - intros [payload|]; [emits |].
    apply only_emits_bind; [apply setTimeout_listens | intros _; exact IH].
Qed.

Lemma wait_for_response_listens fuel callbacks config :
  only_emits (listening (poll_interval config)) (wait_for_response B fuel callbacks config).
Proof.
  unfold wait_for_response, clear_pending_updates. emits.
  apply poll_loop_listens.
Qed.

(** *** Who receives the message *)

Lemma recipients_app (s1 s2 : list (Event (W := W))) :
  recipients (s1 ++ s2) = (recipients s1 ++ recipients s2)%list.
Proof. apply List.flat_map_app. Qed.

Lemma fetches_app (s1 s2 : list (Event (W := W))) :
  fetches (s1 ++ s2) = (fetches s1 ++ fetches s2)%list.
Proof. apply List.flat_map_app. Qed.

Lemma waits_app (s1 s2 : list (Event (W := W))) :
  waits (s1 ++ s2) = (waits s1 ++ waits s2)%list.
Proof. apply List.flat_map_app. Qed.

Lemma listening_sends_nothing interval (s : list (Event (W := W))) :
  forallb (listening interval) s = true -> recipients s = [].
Proof.
  induction s as [|ev s IH]; [reflexivity |].
  cbn [forallb]. intros H. apply andb_prop in H as [Hev Hs].
  destruct ev; cbn in Hev; try discriminate; cbn; now apply IH.
Qed.

Lemma listening_waits interval (s : list (Event (W := W))) :
  forallb (listening interval) s = true -> Forall (fun ms => ms = interval) (waits s).
Proof.
  induction s as [|ev s IH]; [constructor |].
  cbn [forallb]. intros H. apply andb_prop in H as [Hev Hs].
  destruct ev; cbn in Hev; try discriminate; cbn; try now apply IH.
  constructor; [now apply Z.eqb_eq | now apply IH].
Qed.

Lemma delivering_is_not_listening body (s : list (Event (W := W))) :
  forallb (delivering body) s = true -> fetches s = [] /\ waits s = [].
Proof.
  induction s as [|ev s IH]; [now split |].
  cbn [forallb]. intros H. apply andb_prop in H as [Hev Hs].
  destruct ev; cbn in Hev; try discriminate; cbn; now apply IH.
Qed.

Lemma deliver_prelude textToSend callbacks config st :
  deliver B textToSend callbacks config st
  = bind (prelude B textToSend config)
      (fun _ => send_to_all B (telegramUserIds config) textToSend
                  (inlineKeyboard callbacks)) st.
Proof.
  unfold deliver, prelude. cbv zeta. unfold bind.
  destruct (logger B debug _ st) as [s1 [[]|e|]]; try reflexivity.
  destruct (validateMessageLength _ s1) as [s2 [[]|e|]]; reflexivity.
Qed.

Lemma prelude_sends_nothing textToSend config :
  only_emits (fun ev => match ev with EvSendMessage _ _ _ => false | _ => true end)
    (prelude B textToSend config).
Proof. unfold prelude, validateMessageLength, initializeBot. emits. Qed.

Lemma no_send_no_recipient (s : list (Event (W := W))) :
  forallb (fun ev => match ev with EvSendMessage _ _ _ => false | _ => true end) s = true ->
  recipients s = [].
Proof.
  induction s as [|ev s IH]; [reflexivity |].
  cbn [forallb]. intros H. apply andb_prop in H as [Hev Hs].
  destruct ev; try discriminate; cbn; now apply IH.
Qed.

(** The sends go down the list of users and stop at the first failure. *)
Lemma send_to_all_recipients userIds body keyboard st :
  exists s rest,
    trace (fst (send_to_all B userIds body keyboard st)) = (trace st ++ s)%list
    /\ userIds = (recipients s ++ rest)%list
    /\ (snd (send_to_all B userIds body keyboard st) = Ok tt -> rest = [])
    /\ snd (send_to_all B userIds body keyboard st) <> Pending.
Proof.
  revert st. induction userIds as [|userId others IH]; intros st.
  - exists [], []. cbn. rewrite app_nil_r. repeat split; auto; discriminate.
  - cbn [send_to_all].
    destruct (snd (sendMessage B userId body (reply_markup keyboard) (world st)))
      as [[]|e] eqn:Hsend.
    + match goal with |- context [bind (try_catch ?m ?h) ?k st] =>
        assert (Htry : exists S, try_catch m h st = (S, Ok tt)
                  /\ trace S = (trace st ++ [EvSendMessage userId body (reply_markup keyboard);
                                             EvLog info ("Message sent successfully to user "
                                                         ++ show_Z userId)])%list)
      end.
      { unfold try_catch. rewrite (bind_effect_done _ _ _ _ _ Hsend), logger_run.
        eexists. split; [reflexivity |]. simpl_state. now rewrite <- app_assoc. }
      destruct Htry as (S & Htry & HS). rewrite (bind_ok _ _ _ _ _ Htry).
      destruct (IH S) as (s & rest & Htrace & Hids & Hdone & Hpending).
      eexists (_ :: _ :: s), rest. rewrite Htrace, HS.
      split; [now rewrite <- !app_assoc |].
      split; [cbn; now rewrite Hids |]. split; assumption.
    + match goal with |- context [bind (try_catch ?m ?h) ?k st] =>
        assert (Htry : exists S, try_catch m h st = (S, Throw e)
                  /\ trace S = (trace st ++ [EvSendMessage userId body (reply_markup keyboard);
                                             EvLog error ("Failed to send message to user "
                                                          ++ show_Z userId ++ ": "
                                                          ++ show_Error e)])%list)
      end.
      { unfold try_catch. rewrite (bind_effect_failed _ _ _ _ _ Hsend), bind_logger.
        eexists. split; [reflexivity |]. simpl_state. now rewrite <- app_assoc. }
      destruct Htry as (S & Htry & HS). rewrite (bind_throw _ _ _ _ _ Htry).
      eexists [_; _], others. simpl_state. rewrite HS.
      split; [reflexivity |]. split; [reflexivity |]. split; discriminate.
Qed.

Lemma deliver_recipients textToSend callbacks config st :
  exists s rest,
    trace (fst (deliver B textToSend callbacks config st)) = (trace st ++ s)%list
    /\ forallb (delivering textToSend) s = true
    /\ telegramUserIds config = (recipients s ++ rest)%list
    /\ (snd (deliver B textToSend callbacks config st) = Ok tt -> rest = []).
Proof.
  destruct (deliver_only_delivers textToSend callbacks config st) as (s & Hs & Hdel).
  exists s. rewrite Hs.
  assert (Hrec : exists rest,
            telegramUserIds config = (recipients s ++ rest)%list
            /\ (snd (deliver B textToSend callbacks config st) = Ok tt -> rest = [])).
  { rewrite deliver_prelude in *. unfold bind in *.
    destruct (prelude_sends_nothing textToSend config st) as (s0 & Hs0 & Hno).
    apply no_send_no_recipient in Hno.
    destruct (prelude B textToSend config st) as [st0 [[]|e|]]; cbn [fst snd] in *.
    - destruct (send_to_all_recipients (telegramUserIds config) textToSend
                  (inlineKeyboard callbacks) st0) as (s1 & rest & Hs1 & Hids & Hdone & _).
      exists rest. split; [| exact Hdone].
      rewrite Hs1, Hs0, <- app_assoc in Hs. apply app_inv_head in Hs. subst s.
      now rewrite recipients_app, Hno.
    - exists (telegramUserIds config). rewrite Hs0 in Hs. apply app_inv_head in Hs.
      subst s. rewrite Hno. split; [reflexivity | discriminate].
    - exists (telegramUserIds config). rewrite Hs0 in Hs. apply app_inv_head in Hs.
      subst s. rewrite Hno. split; [reflexivity | discriminate]. }
  destruct Hrec as (rest & Hids & Hdone).
  exists rest. repeat split; assumption.
Qed.

(** The trace of an exchange is a delivery followed by a listening. *)
Lemma exchange_phases fuel textToSend callbacks config w :
  let run := sendTelegramMessage B fuel textToSend callbacks config (init_state w) in
  exists sent heard rest,
    trace (fst run) = (sent ++ heard)%list
    /\ forallb (delivering textToSend) sent = true
    /\ forallb (listening (poll_interval config)) heard = true
    /\ telegramUserIds config = (recipients sent ++ rest)%list
    /\ (heard <> [] -> rest = []).
Proof.
  intros run. subst run. unfold sendTelegramMessage, bind.
  destruct (deliver_recipients textToSend callbacks config (init_state w))
    as (sent & rest & Hsent & Hdel & Hids & Hdone).
  destruct (deliver B textToSend callbacks config (init_state w)) as [st0 [[]|e|]];
    cbn [fst snd] in *.
  - destruct (wait_for_response_listens fuel callbacks config st0) as (heard & Hheard & Hlis).
    exists sent, heard, rest. rewrite Hheard, Hsent.
    repeat split; try assumption. intros _. now apply Hdone.
  - exists sent, [], rest. rewrite Hsent, app_nil_r. repeat split; try assumption.
    congruence.
  - exists sent, [], rest. rewrite Hsent, app_nil_r. repeat split; try assumption.
    congruence.
Qed.

(** X1.  For a configuration whose [telegramPollIntervalMs] is an integer
    [n], that is, when the loaded object has an integer under that key, every
    wait between two polls of [sendTelegramMessage] lasts
    [Math.max(n, 1000)] milliseconds, hence at least one second, however
    small [n] is.  The condition is needed: [loadConfig] accepts an object
    without the key (see [loaded_config_may_lack_the_interval]), and then
    [Math.max] has no integer to compare. *)
Theorem every_wait_lasts_the_floored_interval
    fuel textToSend callbacks loaded config w :
  interval_is_configured loaded config ->
  let run := sendTelegramMessage B fuel textToSend callbacks config (init_state w) in
  Forall (fun ms => ms = Z.max (telegramPollIntervalMs config) 1000 /\ 1000 <= ms)
    (waits (trace (fst run))).
Proof.
  intros _ run.
  destruct (exchange_phases fuel textToSend callbacks config w)
    as (sent & heard & rest & Htrace & Hdel & Hlis & _).
  fold run in Htrace. rewrite Htrace, waits_app.
  rewrite (proj2 (delivering_is_not_listening _ _ Hdel)). cbn [app].
  apply listening_waits in Hlis.
  eapply List.Forall_impl; [| exact Hlis].
  intros ms ->. unfold poll_interval. split; [reflexivity | lia].
Qed.

(** X2.  In every execution of [sendTelegramMessage], the sends go down
    [config.telegramUserIds] in order, one send per entry of the list, always
    with the text given, and never again once listening has begun: the
    sequence of recipients is a prefix of the list, and the whole list as
    soon as a single fetch has been made.  A user is sent the message as
    many times as the list names them (the list is not deduplicated): no
    user receives it twice when the list has no duplicates. *)
Theorem recipients_are_a_prefix_of_the_user_list fuel textToSend callbacks config w :
  let run := sendTelegramMessage B fuel textToSend callbacks config (init_state w) in
  (exists rest,
      telegramUserIds config = (recipients (trace (fst run)) ++ rest)%list
      /\ (fetches (trace (fst run)) <> [] -> rest = []))
  /\ (forall userId sent markup,
        In (EvSendMessage userId sent markup) (trace (fst run)) -> sent = textToSend)
  /\ (NoDup (telegramUserIds config) -> NoDup (recipients (trace (fst run)))).
Proof.
  intros run.
  destruct (exchange_phases fuel textToSend callbacks config w)
    as (sent & heard & rest & Htrace & Hdel & Hlis & Hids & Hall).
  fold run in Htrace. rewrite Htrace.
  assert (Hrec : recipients (sent ++ heard) = recipients sent)
    by now rewrite recipients_app, (listening_sends_nothing _ _ Hlis), app_nil_r.
  split; [| split].
  - exists rest. rewrite Hrec.
    split; [exact Hids |].
    rewrite fetches_app, (proj1 (delivering_is_not_listening _ _ Hdel)). cbn [app].
    intros Hfetch. apply Hall. intros ->. now apply Hfetch.
  - intros userId body markup Hin. apply in_app_or in Hin as [Hin | Hin].
    + rewrite List.forallb_forall in Hdel. specialize (Hdel _ Hin).
      cbn in Hdel. now apply String.eqb_eq in Hdel.
    + rewrite List.forallb_forall in Hlis. specialize (Hlis _ Hin). discriminate.
  - rewrite Hrec, Hids. intros Hnodup. now apply NoDup_app in Hnodup as (Hfront & _ & _).
Qed.

(** *** Failures of the delivery *)

Lemma send_to_all_stops before failing after body keyboard err :
  (forall userId, In userId before ->
     forall w, snd (sendMessage B userId body (reply_markup keyboard) w) = Done tt) ->
  (forall w, snd (sendMessage B failing body (reply_markup keyboard) w) = Failed err) ->
  forall st,
    exists s,
      trace (fst (send_to_all B (before ++ failing :: after) body keyboard st))
      = (trace st ++ s)%list
      /\ snd (send_to_all B (before ++ failing :: after) body keyboard st) = Throw err
      /\ recipients s = (before ++ [failing])%list.
Proof.
  intros Hok Hfail. induction before as [|userId before IH]; intros st.
  - cbn [app send_to_all]. unfold try_catch.
    rewrite (bind_throw _ _ _
               {| world := logger_write B error
                             ("Failed to send message to user " ++ show_Z failing
                              ++ ": " ++ show_Error err)
                             (fst (sendMessage B failing body (reply_markup keyboard)
                                     (world st)));
                  trace := (trace st ++ [EvSendMessage failing body (reply_markup keyboard)])
                           ++ [EvLog error ("Failed to send message to user "
                                            ++ show_Z failing ++ ": " ++ show_Error err)];
                  lastUpdateId := lastUpdateId st |} err).
    + eexists [_; _]. simpl_state. split; [now rewrite <- app_assoc |]. now split.
    + now rewrite (bind_effect_failed _ _ _ _ _ (Hfail _)), bind_logger.
  - cbn [app send_to_all]. unfold try_catch.
    rewrite (bind_ok _ _ _
               {| world := logger_write B info
                             ("Message sent successfully to user " ++ show_Z userId)
                             (fst (sendMessage B userId body (reply_markup keyboard)
                                     (world st)));
                  trace := (trace st ++ [EvSendMessage userId body (reply_markup keyboard)])
                           ++ [EvLog info ("Message sent successfully to user "
                                           ++ show_Z userId)];
                  lastUpdateId := lastUpdateId st |} tt).
    + match goal with |- context [send_to_all B _ body keyboard ?S] =>
        destruct (IH (fun v Hv => Hok v (or_intror Hv)) S) as (s & Htrace & Hres & Hrec) end.
      eexists (_ :: _ :: s). rewrite Htrace. simpl_state.
      split; [now rewrite <- !app_assoc |]. split; [exact Hres |].
      change (recipients (_ :: _ :: s)) with (userId :: recipients s).
      now rewrite Hrec.
    + now rewrite (bind_effect_done _ _ _ _ _ (Hok userId (or_introl eq_refl) _)),
        logger_run.
Qed.

(** X3.  Delivery stops at the first user the message cannot be sent to:
    when the sends to the users before it succeed and the send to it fails,
    [sendTelegramMessage] throws the very error of that send, the users after
    it receive nothing, and no update is ever fetched.  (Validation and bot
    initialization are taken to have succeeded.) *)
Theorem delivery_stops_at_the_first_failed_send
    fuel textToSend callbacks config w before failing after err :
  let markup := reply_markup (inlineKeyboard callbacks) in
  telegramUserIds config = (before ++ failing :: after)%list ->
  snd (prelude B textToSend config (init_state w)) = Ok tt ->
  (forall userId, In userId before ->
     forall w', snd (sendMessage B userId textToSend markup w') = Done tt) ->
  (forall w', snd (sendMessage B failing textToSend markup w') = Failed err) ->
  let run := sendTelegramMessage B fuel textToSend callbacks config (init_state w) in
  snd run = Throw err
  /\ recipients (trace (fst run)) = (before ++ [failing])%list
  /\ fetches (trace (fst run)) = [].
Proof.
  intros markup Hids Hprelude Hok Hfail run. subst run.
  unfold sendTelegramMessage.
  destruct (deliver_only_delivers textToSend callbacks config (init_state w))
    as (sent & Hsent & Hdel).
  assert (Hdeliver : snd (deliver B textToSend callbacks config (init_state w)) = Throw err
                     /\ recipients sent = (before ++ [failing])%list).
  { rewrite deliver_prelude in *. unfold bind in *.
    destruct (prelude_sends_nothing textToSend config (init_state w))
      as (s0 & Hs0 & Hno).
    apply no_send_no_recipient in Hno.
    destruct (prelude B textToSend config (init_state w)) as [st0 r].
    cbn [snd] in Hprelude. subst r. cbn [fst] in *. rewrite Hids in *.
    destruct (send_to_all_stops before failing after textToSend
                (inlineKeyboard callbacks) err Hok Hfail st0) as (s1 & Hs1 & Hres & Hrec).
    split; [exact Hres |].
    rewrite Hs1, Hs0, <- app_assoc in Hsent. apply app_inv_head in Hsent. subst sent.
    now rewrite recipients_app, Hno. }
  destruct Hdeliver as [Hthrow Hrec].
  destruct (deliver B textToSend callbacks config (init_state w)) as [st1 r] eqn:Hd.
  cbn [fst snd] in *. subst r.
  rewrite (bind_throw _ _ _ _ _ Hd). cbn [fst snd].
  cbn in Hsent. rewrite Hsent.
  split; [reflexivity |]. split; [exact Hrec |].
  exact (proj1 (delivering_is_not_listening _ _ Hdel)).
Qed.

(** X4.  When the credentials check [getMe] fails, [sendTelegramMessage]
    throws an error whose message is "Invalid Telegram bot token: " followed
    by the text of the failure; no message has been sent to anyone and no
    update has been fetched. *)
Theorem rejected_credentials_send_nothing fuel textToSend callbacks config w err :
  Js.length textToSend <= TELEGRAM_MAX_LENGTH ->
  newBot B (telegramBotToken config) = Done tt ->
  (forall w', snd (getMe B w') = Failed err) ->
  let run := sendTelegramMessage B fuel textToSend callbacks config (init_state w) in
  snd run = Throw (new_Error ("Invalid Telegram bot token: " ++ show_Error err))
  /\ recipients (trace (fst run)) = []
  /\ fetches (trace (fst run)) = []
  /\ List.filter is_network_call (trace (fst run)) = [EvGetMe].
Proof.
  intros Hshort Hbot Hme run. subst run.
  unfold sendTelegramMessage, deliver, validateMessageLength, initializeBot.
  apply Z.leb_le in Hshort. rewrite Z.leb_antisym in Hshort.
  apply Bool.negb_true_iff in Hshort. rewrite Hshort. cbv zeta.
  run_steps.
  rewrite (bind_effect_done _ _ _ tt) by exact Hbot.
  run_steps.
  match goal with |- context [bind (try_catch ?m ?h) ?k ?S] =>
    assert (Htry : exists S',
              try_catch m h S
              = (S', Throw (new_Error ("Invalid Telegram bot token: " ++ show_Error err)))
              /\ trace S'
                 = (trace S ++ [EvGetMe;
                                EvLog error ("Failed to initialize Telegram bot: "
                                             ++ show_Error err)])%list)
  end.
  { unfold try_catch. rewrite (bind_effect_failed _ _ _ _ _ (Hme _)), bind_logger.
    eexists. split; [reflexivity |]. simpl_state. now rewrite <- app_assoc. }
  destruct Htry as (S' & Htry & HS').
  rewrite (bind_throw _ _ _ _ _ Htry). simpl_state. rewrite HS'.
  cbn [init_state trace]. repeat split.
Qed.

(** *** What can end a delivered exchange *)

Lemma settles_ret {A} (a : A) : settles (W := W) (ret a).
Proof. intros st. discriminate. Qed.

Lemma settles_throw {A} e : settles (W := W) (throw (A := A) e).
Proof. intros st. discriminate. Qed.

Lemma settles_bind {A C} (m : M (W := W) A) (k : A -> M (W := W) C) :
  settles m -> (forall a, settles (k a)) -> settles (bind m k).
Proof.
  intros Hm Hk st. unfold bind. specialize (Hm st).
  destruct (m st) as [st1 [a|e|]]; cbn in *; [apply Hk | discriminate | congruence].
Qed.

Lemma settles_try_catch {A} (m : M (W := W) A) (h : Error -> M (W := W) A) :
  settles m -> (forall e, settles (h e)) -> settles (try_catch m h).
Proof.
  intros Hm Hh st. unfold try_catch. specialize (Hm st).
  destruct (m st) as [st1 [a|e|]]; cbn in *; [discriminate | apply Hh | congruence].
Qed.

Lemma settles_effect {A} (ev : Event (W := W)) (f : W -> W * Reply A) : settles (effect ev f).
Proof. intros st. unfold effect. cbn. destruct (snd (f (world st))); discriminate. Qed.

Ltac settle :=
  repeat match goal with
    | |- settles (bind _ _) => apply settles_bind; [| intros ?]
    | |- settles (try_catch _ _) => apply settles_try_catch; [| intros ?]
    | |- settles (ret _) => apply settles_ret
    | |- settles (throw _) => apply settles_throw
    | |- settles (set_lastUpdateId _) => intros ?; discriminate
    | |- settles get_lastUpdateId => intros ?; discriminate
    | |- settles (Date_now _) => intros ?; discriminate
    | |- settles (logger _ _ _) => apply settles_effect
    | |- settles (invoke_handler _ _ _) => apply settles_effect
    | |- settles (effect _ _) => apply settles_effect
    | |- settles (if ?c then _ else _) => destruct c
    | |- settles (match ?x with _ => _ end) => destruct x
    end.

Lemma for_updates_settles callbacks userIdSet updates :
  settles (for_updates B callbacks userIdSet updates).
Proof.
  induction updates as [|update rest IH]; cbn [for_updates]; [settle |].
  apply settles_bind.
  - unfold process_update, handle_callback_query, handle_message. settle.
  - intros [| |payload]; settle; exact IH.
Qed.

(** The polling block never throws: whatever fails inside it is caught. *)
Lemma poll_updates_returns callbacks userIdSet st :
  exists result, snd (poll_updates B callbacks userIdSet st) = Ok result.
Proof.
  unfold poll_updates, try_catch.
  match goal with |- context [match ?m st with _ => _ end] =>
    assert (Hbody : settles m) end.
  { settle. apply for_updates_settles. }
  specialize (Hbody st).
  match goal with |- context [match ?m st with _ => _ end] =>
    destruct (m st) as [st1 [result|e|]] end; cbn in *.
  - now exists result.
  - now exists None.
  - congruence.
Qed.

Lemma poll_loop_outcome callbacks config pollIntervalMs startTime userIdSet fuel st err :
  snd (poll_loop B callbacks config pollIntervalMs startTime userIdSet fuel st) = Throw err ->
  err = timeout_error /\ 0 < telegramTimeoutMs config.
Proof.
  revert st. induction fuel as [|fuel IH]; intros st; [discriminate |].
  cbn [poll_loop]. unfold bind at 1.
  destruct (check_timeout B config startTime st) as [st1 [[]|e|]] eqn:Hcheck.
  - unfold bind at 1.
    destruct (poll_updates_returns callbacks userIdSet st1) as (result & Hres).
    destruct (poll_updates B callbacks userIdSet st1) as [st2 r].
    cbn [snd] in Hres. subst r.
    destruct result as [payload|]; [discriminate |].
    unfold bind at 1, setTimeout, effect. simpl_state. apply IH.
  - cbn [snd]. intros [= ->]. unfold check_timeout in Hcheck.
    destruct (0 <? telegramTimeoutMs config)%Z eqn:Hpos; [| discriminate].
    unfold bind, Date_now in Hcheck. simpl_state.
    destruct (telegramTimeoutMs config <=? _)%Z in Hcheck; [| discriminate].
    cbn in Hcheck. injection Hcheck as _ <-.
    split; [reflexivity | now apply Z.ltb_lt].
  - unfold check_timeout in Hcheck.
    destruct (0 <? telegramTimeoutMs config)%Z; [| discriminate].
    unfold bind, Date_now in Hcheck.
    destruct (telegramTimeoutMs config <=? _)%Z in Hcheck; discriminate.
Qed.

Lemma clear_pending_updates_returns st : snd (clear_pending_updates B st) = Ok tt.
Proof.
  assert (H : clock_kept B (fun _ _ => True) (clear_pending_updates B) (fun r => r = Ok tt))
    by (apply clear_pending_updates_idle; intros; exact I).
  exact (proj2 (H st)).
Qed.

(** X5.  Once the message is delivered, the only error that can end
    [sendTelegramMessage] is the timeout of the deadline, and only when a
    deadline is set: a failing fetch, a failing acknowledgement and a failing
    handler are all caught inside the poll loop and never reach the caller. *)
Theorem only_the_deadline_fails_a_delivered_exchange
    fuel textToSend callbacks config w err :
  snd (deliver B textToSend callbacks config (init_state w)) = Ok tt ->
  snd (sendTelegramMessage B fuel textToSend callbacks config (init_state w)) = Throw err ->
  err = timeout_error /\ 0 < telegramTimeoutMs config.
Proof.
  intros Hdelivered. unfold sendTelegramMessage.
  destruct (deliver B textToSend callbacks config (init_state w)) as [st0 r] eqn:Hd.
  cbn [snd] in Hdelivered. subst r.
  rewrite (bind_ok _ _ _ _ _ Hd).
  unfold wait_for_response. rewrite bind_Date_now. unfold bind at 1.
  match goal with |- context [clear_pending_updates B ?S] =>
    pose proof (clear_pending_updates_returns S) as Hprime;
    destruct (clear_pending_updates B S) as [st1 r] end.
  cbn [snd] in Hprime. subst r. apply poll_loop_outcome.
Qed.

Lemma not_a_wait_waits (s : list (Event (W := W))) :
  forallb not_a_wait s = true -> waits s = [].
Proof.
  induction s as [|ev s IH]; [reflexivity |].
  cbn [forallb]. intros [Hev Hs]%andb_true_iff.
  destruct ev; try discriminate; exact (IH Hs).
Qed.

Lemma poll_updates_does_not_wait callbacks userIdSet :
  only_emits not_a_wait (poll_updates B callbacks userIdSet).
Proof.
  unfold poll_updates. emits.
  induction a0 as [|update rest IH]; cbn [for_updates]; [emits |].
  apply only_emits_bind.
  - unfold process_update, handle_callback_query, handle_message. emits.
  - intros [| |payload]; emits; exact IH.
Qed.

Lemma deliver_does_not_wait textToSend callbacks config st :
  waits (trace (fst (deliver B textToSend callbacks config st))) = waits (trace st).
Proof.
  destruct (deliver_only_delivers textToSend callbacks config st) as (s & -> & Hs).
  rewrite waits_app. replace (waits s) with (@nil Z); [now rewrite app_nil_r |].
  symmetry. apply not_a_wait_waits.
  rewrite List.forallb_forall in *. intros ev Hev. specialize (Hs ev Hev).
  destruct ev; try discriminate; reflexivity.
Qed.

Lemma clear_pending_updates_does_not_wait :
  only_emits not_a_wait (clear_pending_updates B).
Proof. unfold clear_pending_updates. emits. Qed.

Lemma poll_loop_without_deadline callbacks config startTime userIdSet :
  telegramTimeoutMs config <= 0 ->
  never_matches B callbacks userIdSet ->
  forall fuel st,
    let run := poll_loop B callbacks config (poll_interval config) startTime userIdSet fuel st in
    snd run = Pending
    /\ waits (trace (fst run)) = (waits (trace st) ++ repeat (poll_interval config) fuel)%list.
Proof.
  intros Hnone Hnever. induction fuel as [|fuel IH]; intros st run; subst run.
  - cbn. now rewrite app_nil_r.
  - cbn [poll_loop]. unfold check_timeout.
    replace (0 <? telegramTimeoutMs config)%Z with false by (symmetry; apply Z.ltb_ge; lia).
    rewrite bind_ret_l.
    assert (Hidle : clock_kept B (fun _ _ => True) (poll_updates B callbacks userIdSet)
                      (fun r => r = Ok None))
      by (apply poll_updates_idle; auto).
    pose proof (proj2 (Hidle st)) as Hres.
    destruct (poll_updates_does_not_wait callbacks userIdSet st) as (s & Hs & Hquiet).
    destruct (poll_updates B callbacks userIdSet st) as [st1 r] eqn:Hpoll.
    cbn [fst snd] in *. subst r.
    rewrite (bind_ok _ _ _ _ _ Hpoll). unfold setTimeout.
    rewrite (bind_effect_done _ _ _ tt) by reflexivity. simpl_state.
    match goal with |- context [poll_loop _ _ _ _ _ _ fuel ?S] =>
      destruct (IH S) as [Hp Hw] end.
    split; [exact Hp |]. rewrite Hw. simpl_state.
    rewrite Hs, !waits_app, (not_a_wait_waits _ Hquiet). cbn [waits flat_map app repeat].
    now rewrite app_nil_r, <- app_assoc.
Qed.

(** X6.  With no deadline (a timeout of zero or less) and a backend that
    never produces a matching event, a delivered exchange never ends: after
    any number [fuel] of iterations the call is still pending, and it has
    slept exactly [fuel] times, each time for the floored poll interval. *)
Theorem without_a_deadline_an_unanswered_exchange_never_ends
    fuel textToSend callbacks config w :
  telegramTimeoutMs config <= 0 ->
  never_matches B callbacks (list_to_set (telegramUserIds config)) ->
  snd (deliver B textToSend callbacks config (init_state w)) = Ok tt ->
  let run := sendTelegramMessage B fuel textToSend callbacks config (init_state w) in
  snd run = Pending
  /\ waits (trace (fst run)) = repeat (poll_interval config) fuel.
Proof.
  intros Hnone Hnever Hdelivered run. subst run. unfold sendTelegramMessage.
  pose proof (deliver_does_not_wait textToSend callbacks config (init_state w)) as Hquiet.
  destruct (deliver B textToSend callbacks config (init_state w)) as [st0 r] eqn:Hd.
  cbn [fst snd] in *. subst r.
  rewrite (bind_ok _ _ _ _ _ Hd).
  unfold wait_for_response. rewrite bind_Date_now.
  match goal with |- context [bind (clear_pending_updates B) _ ?S] =>
    pose proof (clear_pending_updates_returns S) as Hprime;
    destruct (clear_pending_updates_does_not_wait S) as (s & Hs & Hsilent);
    destruct (clear_pending_updates B S) as [st1 r] eqn:Hclear end.
  cbn [fst snd] in *. subst r. rewrite (bind_ok _ _ _ _ _ Hclear).
  destruct (poll_loop_without_deadline callbacks config (now B (world st0))
              (list_to_set (telegramUserIds config)) Hnone Hnever fuel st1) as [Hp Hw].
  split; [exact Hp |]. etransitivity; [exact Hw |]. rewrite Hs. simpl_state.
  rewrite !waits_app, Hquiet, (not_a_wait_waits _ Hsilent).
  reflexivity.
Qed.

(** *** Batches and buttons *)

(** X7.  A batch is processed up to the first update that makes the function
    return or throw: the updates after it are not examined at all, so the
    state (cursor, trace, world) and the result are those of the shorter
    batch. *)
Theorem batch_stops_at_the_first_answer callbacks userIdSet before after st :
  snd (for_updates B callbacks userIdSet before st) <> Ok None ->
  for_updates B callbacks userIdSet (before ++ after) st
  = for_updates B callbacks userIdSet before st.
Proof.
  revert st. induction before as [|update before IH]; intros st Hends.
  - now contradiction Hends.
  - cbn [for_updates app] in *. unfold bind in *.
    destruct (process_update B callbacks userIdSet update st) as [st1 [[| |payload]|e|]];
      try reflexivity; now apply IH.
Qed.

Lemma find_some_of_member {A} (f : A -> bool) (l : list A) (x : A) :
  In x l -> f x = true -> exists y, List.find f l = Some y /\ f y = true /\ In y l.
Proof.
  induction l as [|a l IH]; [intros [] |]. intros [-> | Hin] Hx; cbn [List.find].
  - rewrite Hx. exists x. repeat split; [exact Hx | now left].
  - destruct (f a) eqn:Ha.
    + exists a. repeat split; [exact Ha | now left].
    + destruct (IH Hin Hx) as (y & Hy & Hfy & Hiny). exists y. repeat split; auto. now right.
Qed.

(** X8.  A button rendered for a command given as a non-empty string comes
    back: the keyboard carries that string as the button's data, and when an
    authorized user presses it (acknowledgements and handlers succeeding) the
    press is recognised and the exchange returns that very string. *)
Theorem pressing_a_rendered_button_answers
    callbacks userIdSet cb label query update st :
  In cb callbacks ->
  type cb = inline_button ->
  command cb = CmdString label ->
  truthy label = true ->
  callback_query update = Some query ->
  query_data query = Some label ->
  authorized userIdSet (user_id (query_from query)) = true ->
  (forall id ack w, snd (answerCallbackQuery B id ack w) = Done tt) ->
  (forall matched arg w, In matched callbacks -> snd (handler matched arg w) = Done tt) ->
  In {| text := match display cb with Some s => s | None => EmptyString end;
        callback_data := label |} (inlineKeyboard callbacks)
  /\ snd (for_updates B callbacks userIdSet [update] st) = Ok (Some label).
Proof.
  intros Hin Htype Hcmd Htruthy Hcq Hdata Hauth Hack Hhandlers. split.
  - unfold inlineKeyboard. apply in_map_iff. exists cb. split.
    + now rewrite Hcmd.
    + apply filter_In. split; [exact Hin |]. unfold is_inline_button. now rewrite Htype.
  - destruct (find_some_of_member (matches_callback_data label) callbacks cb Hin)
      as (matched & Hfind & _ & Hmember).
    { unfold matches_callback_data. rewrite Htype, Hcmd. cbn. apply String.eqb_refl. }
    destruct (matched_event_reaches_handler B callbacks userIdSet update matched label
                (FromCallbackQuery (query_id query)) st) as (st1 & Hrun & _).
    { eapply matched_press; eauto. }
    { exact Hack. }
    cbn [for_updates]. unfold bind at 1. rewrite Hrun.
    unfold invoke_handler. rewrite (bind_effect_done _ _ _ tt) by (apply Hhandlers, Hmember).
    reflexivity.
Qed.

(** *** What is sent and which handlers run *)

Lemma always_ret (Q : Event (W := W) -> Prop) {A} (a : A) : always Q (ret a).
Proof. intros st. exists []. cbn. now rewrite app_nil_r. Qed.

Lemma always_throw (Q : Event (W := W) -> Prop) {A} e : always Q (throw (A := A) e).
Proof. intros st. exists []. cbn. now rewrite app_nil_r. Qed.

Lemma always_pending (Q : Event (W := W) -> Prop) {A} :
  always Q (fun st => (st, Pending (A := A))).
Proof. intros st. exists []. cbn. now rewrite app_nil_r. Qed.

Lemma always_bind (Q : Event (W := W) -> Prop) {A C} (m : M A) (k : A -> M C) :
  always Q m -> (forall a, always Q (k a)) -> always Q (bind m k).
Proof.
  intros Hm Hk st. unfold bind.
  destruct (Hm st) as (s1 & Ht1 & Hs1).
  destruct (m st) as [st1 [a|e|]]; cbn in Ht1; try (now exists s1).
  destruct (Hk a st1) as (s2 & Ht2 & Hs2).
  exists (s1 ++ s2)%list. split.
  - now rewrite Ht2, Ht1, app_assoc.
  - apply List.Forall_app. now split.
Qed.

Lemma always_try_catch (Q : Event (W := W) -> Prop) {A} (m : M A) (h : Error -> M A) :
  always Q m -> (forall e, always Q (h e)) -> always Q (try_catch m h).
Proof.
  intros Hm Hh st. unfold try_catch.
  destruct (Hm st) as (s1 & Ht1 & Hs1).
  destruct (m st) as [st1 [a|e|]]; cbn in Ht1; try (now exists s1).
  destruct (Hh e st1) as (s2 & Ht2 & Hs2).
  exists (s1 ++ s2)%list. split.
  - now rewrite Ht2, Ht1, app_assoc.
  - apply List.Forall_app. now split.
Qed.

Lemma always_effect (Q : Event (W := W) -> Prop) {A} (ev : Event)
    (f : W -> W * Reply A) :
  Q ev -> always Q (effect ev f).
Proof.
  intros Hev st. exists [ev]. unfold effect.
  destruct (snd (f (world st))); cbn; split; try reflexivity; now constructor.
Qed.

Lemma always_silent (Q : Event (W := W) -> Prop) {A} (m : M A) :
  (forall st, trace (fst (m st)) = trace st) -> always Q m.
Proof. intros Hm st. exists []. rewrite Hm, app_nil_r. now split. Qed.

Lemma press_selects_an_inline_button callbacks data cb :
  List.find (matches_callback_data data) callbacks = Some cb ->
  In cb callbacks /\ type cb = inline_button.
Proof.
  intros [Hin Hmatch]%List.find_some. split; [exact Hin |].
  unfold matches_callback_data in Hmatch. now destruct (type cb).
Qed.

Lemma always_Date_now (Q : Event (W := W) -> Prop) :
  (forall t, Q (EvNow t)) -> always Q (Date_now B).
Proof.
  intros Hnow st. exists [EvNow (now B (world st))]. split; [reflexivity |].
  constructor; [apply Hnow | constructor].
Qed.

Ltac orderly_steps :=
  repeat match goal with
    | |- always _ (bind _ _) => refine (always_bind _ _ _ _ _); [| intros ?]
    | |- always _ (try_catch _ _) => refine (always_try_catch _ _ _ _ _); [| intros ?]
    | |- always _ (ret _) => exact (always_ret _ _)
    | |- always _ (throw _) => exact (always_throw _ _)
    | |- always _ (set_lastUpdateId _) =>
        refine (always_silent _ _ _); intros ?; reflexivity
    | |- always _ get_lastUpdateId =>
        refine (always_silent _ _ _); intros ?; reflexivity
    | |- always _ (Date_now _) => refine (always_Date_now _ _); intros ?; exact I
    | |- always _ (logger _ _ _) => refine (always_effect _ _ _ _); exact I
    | |- always _ (setTimeout _ _) => refine (always_effect _ _ _ _); exact I
    | |- always _ (effect (EvSendMessage _ _ _) _) =>
        refine (always_effect _ _ _ _); split; reflexivity
    | |- always _ (effect _ _) => refine (always_effect _ _ _ _); exact I
    | |- always _ (match List.find ?f ?l with _ => _ end) =>
        let H := fresh "Hfind" in destruct (List.find f l) eqn:H
    | H : List.find (matches_callback_data _) _ = Some ?cb
      |- always _ (invoke_handler _ ?cb _) =>
        refine (always_effect _ _ _ _); exact (press_selects_an_inline_button _ _ _ H)
    | H : List.find (matches_text _) _ = Some ?cb
      |- always _ (invoke_handler _ ?cb _) =>
        refine (always_effect _ _ _ _); exact (proj1 (List.find_some _ _ H))
    | |- always _ (if ?c then _ else _) => destruct c
    | |- always _ (match ?x with _ => _ end) => destruct x
    end.

Lemma exchange_is_orderly fuel textToSend callbacks config :
  always (orderly textToSend callbacks)
    (sendTelegramMessage B fuel textToSend callbacks config).
Proof.
  unfold sendTelegramMessage, deliver, validateMessageLength, initializeBot,
    wait_for_response, clear_pending_updates.
  orderly_steps.
  - induction (telegramUserIds config) as [|userId rest IH]; cbn [send_to_all];
      orderly_steps. exact IH.
  - match goal with |- always _ (poll_loop _ _ _ _ ?start _ _) =>
      generalize start end.
    intros startTime.
    induction fuel as [|fuel IH]; cbn [poll_loop]; [exact (always_pending _) |].
    refine (always_bind _ _ _ _ _); [unfold check_timeout; orderly_steps | intros _].
    refine (always_bind _ _ _ _ _).
    + unfold poll_updates. orderly_steps.
      match goal with |- always _ (for_updates _ _ _ ?updates) =>
        induction updates as [|update rest IHrest] end;
        cbn [for_updates]; [orderly_steps |].
      refine (always_bind _ _ _ _ _).
      * unfold process_update, handle_callback_query, handle_message. orderly_steps.
      * intros [| |payload]; orderly_steps; exact IHrest.
    + intros [payload|]; orderly_steps. exact IH.
Qed.

(** X19.  Every message [sendTelegramMessage] sends carries the same
    keyboard, the one built from the callbacks: a single row with one button
    per callback of type inline button; and it carries no keyboard at all
    exactly when no callback is an inline button. *)
Theorem every_send_carries_the_keyboard fuel textToSend callbacks config w :
  let run := sendTelegramMessage B fuel textToSend callbacks config (init_state w) in
  forall userId sent markup,
    In (EvSendMessage userId sent markup) (trace (fst run)) ->
    match List.filter is_inline_button callbacks with
    | [] => markup = None
    | shown => markup = Some [List.map button_of shown]
    end.
Proof.
  intros run userId sent markup Hin. subst run.
  destruct (exchange_is_orderly fuel textToSend callbacks config (init_state w))
    as (s & Hs & Hall).
  rewrite Hs in Hin. cbn [init_state trace app] in Hin.
  rewrite List.Forall_forall in Hall. destruct (Hall _ Hin) as [_ ->].
  unfold reply_markup, inlineKeyboard.
  destruct (List.filter is_inline_button callbacks); reflexivity.
Qed.

(** X20.  Every handler [sendTelegramMessage] calls is the handler of one
    of the callbacks it was given, and a button press only ever reaches the
    handler of a callback of type inline button, one whose button is on the
    keyboard: a hidden command cannot be triggered by a press. *)
Theorem a_press_only_reaches_a_rendered_button fuel textToSend callbacks config w :
  let run := sendTelegramMessage B fuel textToSend callbacks config (init_state w) in
  forall src cb arg,
    In (EvHandler src cb arg) (trace (fst run)) ->
    In cb callbacks
    /\ (forall id, src = FromCallbackQuery id ->
          type cb = inline_button /\ In (button_of cb) (inlineKeyboard callbacks)).
Proof.
  intros run src cb arg Hin. subst run.
  destruct (exchange_is_orderly fuel textToSend callbacks config (init_state w))
    as (s & Hs & Hall).
  rewrite Hs in Hin. cbn [init_state trace app] in Hin.
  rewrite List.Forall_forall in Hall. specialize (Hall _ Hin). cbn in Hall.
  destruct src as [id|].
  - destruct Hall as [Hmember Htype]. split; [exact Hmember |].
    intros _ _. split; [exact Htype |].
    unfold inlineKeyboard. apply in_map_iff. exists cb. split; [reflexivity |].
    apply filter_In. split; [exact Hmember |]. unfold is_inline_button. now rewrite Htype.
  - split; [exact Hall | discriminate].
Qed.

End BrokerPhases.

(* ===================================================================== *)
(** ** Properties of the hook helpers *)
(* ===================================================================== *)

Section HookHelpers.

Import Hooks.

Lemma length_string_of_list_ascii l :
  String.length (string_of_list_ascii l) = List.length l.
Proof. induction l as [|c l IH]; cbn; [reflexivity | now rewrite IH]. Qed.

Lemma length_list_ascii_of_string s :
  List.length (list_ascii_of_string s) = String.length s.
Proof. induction s as [|c s IH]; cbn; [reflexivity | now rewrite IH]. Qed.

Lemma length_append (a b : string) :
  String.length (a ++ b) = (String.length a + String.length b)%nat.
Proof. induction a as [|c a IH]; simpl; [reflexivity | now f_equal]. Qed.

Lemma slice_length s start finish :
  Js.length (JsText.slice s start finish)
  = Z.max 0 (Z.min (JsText.clamp_index (Js.length s) finish
                    - JsText.clamp_index (Js.length s) start)
               (Js.length s - JsText.clamp_index (Js.length s) start)).
Proof.
  unfold JsText.slice, Js.length.
  rewrite length_string_of_list_ascii, List.length_firstn, List.length_skipn,
    length_list_ascii_of_string.
  unfold JsText.clamp_index, Js.length.
  destruct (finish <? 0)%Z eqn:Hf, (start <? 0)%Z eqn:Hs; lia.
Qed.

Lemma truncateMessage_length message maxLength :
  3 <= maxLength -> Js.length (truncateMessage message maxLength) <= maxLength.
Proof.
  intros Hmax. unfold truncateMessage.
  destruct (Js.length message <=? maxLength)%Z eqn:Hle.
  - now apply Z.leb_le.
  - apply Z.leb_gt in Hle. unfold Js.length at 1. rewrite length_append.
    pose proof (slice_length message 0 (maxLength - 3)) as Hs.
    unfold JsText.clamp_index in Hs.
    replace (0 <? 0)%Z with false in Hs by reflexivity.
    replace (maxLength - 3 <? 0)%Z with false in Hs by (symmetry; apply Z.ltb_ge; lia).
    unfold Js.length in *. cbn [String.length]. lia.
Qed.

(** X9.  [truncateMessage] with a limit of at least three never returns
    more than the limit: a message within the limit is returned unchanged,
    and a longer one becomes its first [maxLength - 3] units followed by
    three dots, exactly [maxLength] units in all. *)
Theorem truncateMessage_fits_the_limit message maxLength :
  3 <= maxLength ->
  let result := truncateMessage message maxLength in
  Js.length result <= maxLength
  /\ (Js.length message <= maxLength -> result = message)
  /\ (maxLength < Js.length message ->
      Js.length result = maxLength
      /\ result = JsText.slice message 0 (maxLength - 3) ++ "..."
      /\ Js.length (JsText.slice message 0 (maxLength - 3)) = maxLength - 3).
Proof.
  intros Hmax result. subst result. unfold truncateMessage.
  assert (Hcut : maxLength < Js.length message ->
                 Js.length (JsText.slice message 0 (maxLength - 3)) = maxLength - 3).
  { intros Hlong. rewrite slice_length. unfold JsText.clamp_index.
    replace (0 <? 0)%Z with false by reflexivity.
    replace (maxLength - 3 <? 0)%Z with false by (symmetry; apply Z.ltb_ge; lia).
    unfold Js.length in *. lia. }
  destruct (Js.length message <=? maxLength)%Z eqn:Hle.
  - apply Z.leb_le in Hle. repeat split; try lia; auto.
  - apply Z.leb_gt in Hle. specialize (Hcut Hle).
    assert (Hlen : Js.length (JsText.slice message 0 (maxLength - 3) ++ "...") = maxLength).
    { unfold Js.length in *. rewrite length_append. cbn [String.length]. lia. }
    repeat split; try lia; auto.
Qed.

(** X10.  With a limit below three the guarantee is lost: a message longer
    than the limit comes back with its three dots and is longer than the
    limit.  A negative [maxLength - 3] is read by [slice] from the end, so
    the result keeps all but the last [3 - maxLength] units. *)
Theorem truncateMessage_overshoots_a_small_limit message maxLength :
  maxLength < 3 ->
  maxLength < Js.length message ->
  let result := truncateMessage message maxLength in
  Js.length result = Z.max (Js.length message + maxLength - 3) 0 + 3
  /\ maxLength < Js.length result.
Proof.
  intros Hsmall Hlong result. subst result. unfold truncateMessage.
  replace (Js.length message <=? maxLength)%Z with false by (symmetry; apply Z.leb_gt; lia).
  assert (Hlen : Js.length (JsText.slice message 0 (maxLength - 3) ++ "...")
                 = Z.max (Js.length message + maxLength - 3) 0 + 3).
  { assert (Hs := slice_length message 0 (maxLength - 3)).
    unfold JsText.clamp_index in Hs.
    replace (0 <? 0)%Z with false in Hs by reflexivity.
    replace (maxLength - 3 <? 0)%Z with true in Hs by (symmetry; apply Z.ltb_lt; lia).
    unfold Js.length in *. rewrite length_append. cbn [String.length]. lia. }
  split; [exact Hlen | lia].
Qed.

(** X11.  Whatever the tool input and whatever [JSON.stringify] does with
    it (return any text or throw), [formatToolInput] returns a text of at
    most [MAX_TOOL_INPUT_LENGTH] units, and it returns the serialisation
    unchanged when that fits the limit. *)
Theorem formatToolInput_is_bounded
    (JSON_stringify : ConfigService.Json -> Telegram.Reply string) toolInput :
  let shown := formatToolInput JSON_stringify toolInput in
  Js.length shown <= MAX_TOOL_INPUT_LENGTH
  /\ (forall value inputStr,
        toolInput = Some value -> value <> ConfigService.JNull ->
        JSON_stringify value = Telegram.Done inputStr ->
        Js.length inputStr <= MAX_TOOL_INPUT_LENGTH ->
        shown = inputStr).
Proof.
  intros shown. subst shown. split.
  - assert (Hcut : forall value, 
              Js.length match JSON_stringify value with
                        | Telegram.Done inputStr => truncateMessage inputStr MAX_TOOL_INPUT_LENGTH
                        | Telegram.Failed _ => "(unable to display parameters)"
                        end <= MAX_TOOL_INPUT_LENGTH).
    { intros value. destruct (JSON_stringify value) as [inputStr|e].
      - apply truncateMessage_length. unfold MAX_TOOL_INPUT_LENGTH. lia.
      - apply Z.leb_le. reflexivity. }
    unfold formatToolInput.
    destruct toolInput as [[]|]; try apply Hcut; apply Z.leb_le; reflexivity.
  - intros value inputStr -> Hvalue Hdone Hfits. unfold formatToolInput.
    destruct value; try contradiction; rewrite Hdone; unfold truncateMessage;
      apply Z.leb_le in Hfits; now rewrite Hfits.
Qed.

End HookHelpers.

(* ===================================================================== *)
(** ** Properties of the transcript reader *)
(* ===================================================================== *)

Section TranscriptReader.

Import Transcript.

Variable parse_entry : string -> Telegram.Reply TranscriptEntry.

Lemma read_lines_snoc lines line st :
  read_lines parse_entry (lines ++ [line]) st
  = read_line parse_entry line (read_lines parse_entry lines st).
Proof. unfold read_lines. now rewrite fold_left_app. Qed.

Lemma latest_snoc contribution lines line :
  latest contribution (lines ++ [line])
  = match contribution line with
    | Some t => Some t
    | None => latest contribution lines
    end.
Proof.
  unfold latest. rewrite rev_app_distr. cbn [rev app List.find].
  destruct (contribution line) eqn:Hc; [exact Hc | reflexivity].
Qed.

Lemma read_line_lastUser line st :
  lastUser (read_line parse_entry line st)
  = match user_text parse_entry line with
    | Some t => Some t
    | None => lastUser st
    end.
Proof.
  unfold read_line, user_text.
  destruct (parse_entry line) as [entry|e]; [| reflexivity].
  destruct (entry_message entry) as [msg|]; [| reflexivity].
  destruct (String.eqb (entry_type entry) "user" && negb (isToolResult (content msg)));
    destruct (String.eqb (entry_type entry) "assistant"); reflexivity.
Qed.

Lemma read_line_lastAssistant line st :
  lastAssistant (read_line parse_entry line st)
  = match assistant_text parse_entry line with
    | Some t => Some t
    | None => lastAssistant st
    end.
Proof.
  unfold read_line, assistant_text.
  destruct (parse_entry line) as [entry|e]; [| reflexivity].
  destruct (entry_message entry) as [msg|]; [| reflexivity].
  destruct (String.eqb (entry_type entry) "user" && negb (isToolResult (content msg)));
    destruct (String.eqb (entry_type entry) "assistant"); reflexivity.
Qed.

Lemma read_line_console line st :
  console (read_line parse_entry line st)
  = (console st ++ parse_warning parse_entry line)%list.
Proof.
  unfold read_line, parse_warning.
  destruct (parse_entry line) as [entry|e]; [| reflexivity].
  rewrite app_nil_r.
  destruct (entry_message entry) as [msg|]; [| reflexivity].
  destruct (String.eqb (entry_type entry) "user" && negb (isToolResult (content msg)));
    destruct (String.eqb (entry_type entry) "assistant"); reflexivity.
Qed.

Lemma read_lines_result lines :
  let st := read_lines parse_entry lines
              {| lastUser := None; lastAssistant := None; console := [] |} in
  lastUser st = latest (user_text parse_entry) lines
  /\ lastAssistant st = latest (assistant_text parse_entry) lines
  /\ console st = List.flat_map (parse_warning parse_entry) lines.
Proof.
  induction lines as [|line lines IH] using rev_ind; [repeat split |].
  cbn zeta in *. destruct IH as (Hu & Ha & Hc).
  rewrite read_lines_snoc, read_line_lastUser, read_line_lastAssistant,
    read_line_console, !latest_snoc, Hu, Ha, Hc, flat_map_app.
  cbn [flat_map]. now rewrite app_nil_r.
Qed.

(** X12.  For a transcript that exists, can be read and is not blank, the
    reader returns the text of the last line that is a user message and not
    a tool result, and the text of the last line that is an assistant
    message ([null] where there is none).  Blank lines are not parsed; a line
    that does not parse changes nothing and costs one warning, so the console
    shows exactly one warning per such line, in order. *)
Theorem reader_returns_the_last_messages transcript_path file body :
  file_exists file = Telegram.Done true ->
  file_text file = Telegram.Done body ->
  JsText.is_blank body = false ->
  getLastUserAndAssistantMessages parse_entry transcript_path file
  = ({| lastUserMessage := latest (user_text parse_entry) (lines_of body);
        lastAssistantMessage := latest (assistant_text parse_entry) (lines_of body) |},
     List.flat_map (parse_warning parse_entry) (lines_of body)).
Proof.
  intros Hexists Htext Hblank. unfold getLastUserAndAssistantMessages.
  rewrite Hexists, Htext, Hblank.
  destruct (read_lines_result (lines_of body)) as (Hu & Ha & Hc).
  now rewrite Hu, Ha, Hc.
Qed.

Lemma append_assoc (a b c : string) : ((a ++ b) ++ c = a ++ (b ++ c))%string.
Proof.
  induction a as [|x a IH]; [reflexivity |].
  change (String x ((a ++ b) ++ c) = String x (a ++ (b ++ c))). now rewrite IH.
Qed.

Lemma concat_snoc (ts : list string) (t : string) :
  String.concat EmptyString (ts ++ [t]) = String.concat EmptyString ts ++ t.
Proof.
  induction ts as [|t0 ts IH]; [reflexivity |].
  destruct ts as [|t' ts]; [reflexivity |].
  change (String.concat EmptyString ((t0 :: t' :: ts) ++ [t]))
    with (t0 ++ String.concat EmptyString ((t' :: ts) ++ [t])).
  rewrite IH.
  change (String.concat EmptyString (t0 :: t' :: ts))
    with (t0 ++ String.concat EmptyString (t' :: ts)).
  now rewrite append_assoc.
Qed.

(** X13.  The two ways of reading a message's content agree up to a prefix:
    the text of the last text block (mode "last") is the end of the
    concatenation of all text blocks (mode "all"), and for a content that is
    a plain string both are that string. *)
Theorem last_text_ends_the_whole_text c :
  exists earlier,
    extractTextContent c all = earlier ++ extractTextContent c last.
Proof.
  destruct c as [s|blocks]; [now exists EmptyString |].
  unfold extractTextContent.
  induction (List.filter is_text blocks) as [|block textBlocks IH] using rev_ind.
  - now exists EmptyString.
  - rewrite !map_app. cbn [List.map]. rewrite last_last.
    exists (String.concat EmptyString (List.map text_or_empty textBlocks)).
    apply concat_snoc.
Qed.

End TranscriptReader.

(* ===================================================================== *)
(** ** Properties of the installer's merge *)
(* ===================================================================== *)

Section InstallerMerge.

Import Installer.

Lemma lookup_store_same name value object :
  lookup name (store name value object) = Some value.
Proof.
  induction object as [|[key old] rest IH]; cbn [store lookup].
  - now rewrite String.eqb_refl.
  - destruct (String.eqb name key) eqn:Hkey; cbn [lookup]; now rewrite Hkey.
Qed.

Lemma lookup_store_other name other value object :
  String.eqb other name = false ->
  lookup other (store name value object) = lookup other object.
Proof.
  intros Hother. induction object as [|[key old] rest IH]; cbn [store lookup].
  - now rewrite Hother.
  - destruct (String.eqb name key) eqn:Hkey; cbn [lookup].
    + apply String.eqb_eq in Hkey. subst key. now rewrite Hother.
    + now rewrite IH.
Qed.

Lemma hookExists_app before after hookPath :
  hookExists (before ++ after) hookPath
  = hookExists before hookPath || hookExists after hookPath.
Proof. unfold hookExists. apply existsb_app. Qed.

Lemma hookExists_command_entry hookPath :
  hookExists [command_entry hookPath] hookPath = true.
Proof. unfold hookExists. cbn. now rewrite String.eqb_refl. Qed.

(** What one step of the loop does to the array of each key. *)
Lemma install_one_entries hookName hookPath st other :
  entries_of other (settings_hooks (install_one hookName hookPath st))
  = if String.eqb other hookName then
      (entries_of hookName (settings_hooks st)
       ++ if hookExists (entries_of hookName (settings_hooks st)) hookPath
          then [] else [command_entry hookPath])%list
    else entries_of other (settings_hooks st).
Proof.
  unfold install_one, entries_of.
  destruct (lookup hookName (settings_hooks st)) as [array|] eqn:Hlook.
  - rewrite Hlook. destruct (hookExists array hookPath); cbn [settings_hooks].
    + destruct (String.eqb other hookName) eqn:Hother; [| reflexivity].
      apply String.eqb_eq in Hother. subst other. now rewrite Hlook, app_nil_r.
    + destruct (String.eqb other hookName) eqn:Hother.
      * apply String.eqb_eq in Hother. subst other. now rewrite lookup_store_same.
      * now rewrite lookup_store_other.
  - rewrite lookup_store_same. cbn [hookExists existsb settings_hooks app].
    destruct (String.eqb other hookName) eqn:Hother.
    + apply String.eqb_eq in Hother. subst other. now rewrite lookup_store_same.
    + now rewrite !lookup_store_other.
Qed.

Lemma install_one_counts hookName hookPath st :
  installedCount (install_one hookName hookPath st)
  = installedCount st
    + (if hookExists (entries_of hookName (settings_hooks st)) hookPath then 0 else 1)
  /\ alreadyInstalledCount (install_one hookName hookPath st)
     = alreadyInstalledCount st
       + (if hookExists (entries_of hookName (settings_hooks st)) hookPath then 1 else 0).
Proof.
  unfold install_one, entries_of.
  destruct (lookup hookName (settings_hooks st)) as [array|] eqn:Hlook.
  - rewrite Hlook. destruct (hookExists array hookPath); cbn; lia.
  - rewrite lookup_store_same. cbn. lia.
Qed.

Lemma merge_from_grows hooks : forall st name,
  exists added,
    entries_of name (settings_hooks (merge_from hooks st))
    = (entries_of name (settings_hooks st) ++ added)%list
    /\ (~ In name (List.map fst hooks) -> added = [])
    /\ Forall (fun entry => exists hookPath,
                 In (name, hookPath) hooks /\ entry = command_entry hookPath) added.
Proof.
  induction hooks as [|[hookName hookPath] hooks IH]; intros st name.
  - exists []. cbn. now rewrite app_nil_r.
  - cbn [merge_from fold_left fst snd].
    destruct (IH (install_one hookName hookPath st) name) as (added & Hadded & Hnone & Hall).
    unfold merge_from in Hadded. rewrite Hadded, install_one_entries.
    destruct (String.eqb name hookName) eqn:Hname.
    + apply String.eqb_eq in Hname. subst hookName.
      eexists. split; [rewrite <- app_assoc; reflexivity |]. split.
      * intros Hnot. contradiction Hnot. now left.
      * apply Forall_app. split.
        -- destruct (hookExists _ _); constructor; [| constructor].
           exists hookPath. split; [now left | reflexivity].
        -- eapply List.Forall_impl; [| exact Hall].
           intros entry (p & Hp & ->). exists p. split; [now right | reflexivity].
    + exists added. split; [reflexivity |]. split.
      * intros Hnot. apply Hnone. intros Hin. apply Hnot. now right.
      * eapply List.Forall_impl; [| exact Hall].
        intros entry (p & Hp & ->). exists p. split; [now right | reflexivity].
Qed.

Lemma merge_from_installs hooks : forall st hookName hookPath,
  (In (hookName, hookPath) hooks
   \/ hookExists (entries_of hookName (settings_hooks st)) hookPath = true) ->
  hookExists (entries_of hookName (settings_hooks (merge_from hooks st))) hookPath = true.
Proof.
  induction hooks as [|[name path] hooks IH]; intros st hookName hookPath Hin.
  - destruct Hin as [[] | Hthere]. exact Hthere.
  - cbn [merge_from fold_left fst snd]. apply IH.
    destruct Hin as [[[= -> ->] | Hlater] | Hthere].
    + right. rewrite install_one_entries, String.eqb_refl, hookExists_app.
      destruct (hookExists (entries_of hookName (settings_hooks st)) hookPath) eqn:Hthere;
        [reflexivity |].
      now rewrite hookExists_command_entry.
    + now left.
    + right. rewrite install_one_entries.
      destruct (String.eqb hookName name) eqn:Hname; [| exact Hthere].
      apply String.eqb_eq in Hname. subst name.
      now rewrite hookExists_app, Hthere.
Qed.

(** X14.  After the merge every hook asked for is configured: the array
    under its name holds an entry with a hook of type "command" and its
    path, whatever the settings were before. *)
Theorem merged_settings_hold_every_hook hooks existing hookName hookPath :
  In (hookName, hookPath) hooks ->
  hookExists (entries_of hookName (settings_hooks (merge_hooks hooks existing))) hookPath
  = true.
Proof.
  intros Hin. unfold merge_hooks.
  apply (merge_from_installs hooks _ hookName hookPath). now left.
Qed.

(** X15.  The merge only appends: under every name the array that was
    configured is kept, in order, at the front of the new array; a name
    the installer does not install keeps exactly its array; and every
    appended entry is the command entry of a hook asked for under that
    name. *)
Theorem merge_keeps_what_was_configured hooks existing name :
  let before := match existing with Some object => object | None => [] end in
  exists added,
    entries_of name (settings_hooks (merge_hooks hooks existing))
    = (entries_of name before ++ added)%list
    /\ (~ In name (List.map fst hooks) -> added = [])
    /\ Forall (fun entry => exists hookPath,
                 In (name, hookPath) hooks /\ entry = command_entry hookPath) added.
Proof.
  intros before. subst before. unfold merge_hooks.
  apply (merge_from_grows hooks
           {| settings_hooks := match existing with Some object => object | None => [] end;
              installedCount := 0; alreadyInstalledCount := 0;
              console := ["Installing hooks..."; EmptyString] |} name).
Qed.

Lemma merge_from_counts hooks : forall st,
  installedCount (merge_from hooks st) + alreadyInstalledCount (merge_from hooks st)
  = installedCount st + alreadyInstalledCount st + Z.of_nat (List.length hooks)
  /\ installedCount st <= installedCount (merge_from hooks st)
  /\ alreadyInstalledCount st <= alreadyInstalledCount (merge_from hooks st).
Proof.
  induction hooks as [|[name path] hooks IH]; intros st.
  - cbn. lia.
  - cbn [merge_from fold_left fst snd List.length].
    destruct (IH (install_one name path st)) as (Hsum & Hi & Ha).
    unfold merge_from in *.
    destruct (install_one_counts name path st) as [Hci Hca].
    destruct (hookExists (entries_of name (settings_hooks st)) path); lia.
Qed.

Lemma merge_from_settled hooks : forall st,
  (forall hookName hookPath, In (hookName, hookPath) hooks ->
     hookExists (entries_of hookName (settings_hooks st)) hookPath = true) ->
  settings_hooks (merge_from hooks st) = settings_hooks st
  /\ installedCount (merge_from hooks st) = installedCount st
  /\ alreadyInstalledCount (merge_from hooks st)
     = alreadyInstalledCount st + Z.of_nat (List.length hooks).
Proof.
  induction hooks as [|[name path] hooks IH]; intros st Hall.
  - cbn. repeat split; lia.
  - cbn [merge_from fold_left fst snd List.length].
    assert (Hthere := Hall name path (or_introl eq_refl)).
    assert (Hstep : settings_hooks (install_one name path st) = settings_hooks st
                    /\ installedCount (install_one name path st) = installedCount st
                    /\ alreadyInstalledCount (install_one name path st)
                       = alreadyInstalledCount st + 1).
    { unfold install_one, entries_of in *.
      destruct (lookup name (settings_hooks st)) as [array|] eqn:Hlook.
      - rewrite Hlook, Hthere. repeat split.
      - discriminate Hthere. }
    destruct Hstep as (Hs & Hi & Ha).
    destruct (IH (install_one name path st)) as (Hs' & Hi' & Ha').
    { intros hookName hookPath Hin. rewrite Hs. apply Hall. now right. }
    unfold merge_from in *. rewrite Hs', Hi', Ha', Hs, Hi, Ha. repeat split. lia.
Qed.

(** X16.  The two counters account for every hook: together they equal the
    number of hooks asked for, and neither is negative. *)
Theorem merge_counts_every_hook hooks existing :
  let merged := merge_hooks hooks existing in
  installedCount merged + alreadyInstalledCount merged = Z.of_nat (List.length hooks)
  /\ 0 <= installedCount merged
  /\ 0 <= alreadyInstalledCount merged.
Proof.
  intros merged. subst merged. unfold merge_hooks.
  match goal with |- context [merge_from hooks ?st] =>
    destruct (merge_from_counts hooks st) as (Hsum & Hi & Ha) end.
  unfold merge_from in *. cbn [installedCount alreadyInstalledCount] in *. lia.
Qed.

(** X17.  Running the installer again changes nothing: merging the same
    hooks into the settings a merge produced leaves [settings.hooks] as it
    is, installs none and reports every hook as already installed. *)
Theorem merging_twice_changes_nothing hooks existing :
  let once := settings_hooks (merge_hooks hooks existing) in
  let twice := merge_hooks hooks (Some once) in
  settings_hooks twice = once
  /\ installedCount twice = 0
  /\ alreadyInstalledCount twice = Z.of_nat (List.length hooks).
Proof.
  intros once twice. subst twice.
  unfold merge_hooks; fold (merge_hooks hooks existing); fold once.
  match goal with |- context [merge_from hooks ?st] =>
    destruct (merge_from_settled hooks st) as (Hs & Hi & Ha) end.
  - intros hookName hookPath Hin. cbn [settings_hooks]. subst once. unfold merge_hooks.
    apply (merge_from_installs hooks _ hookName hookPath). now left.
  - unfold merge_from in *. cbn [settings_hooks installedCount alreadyInstalledCount] in *.
    rewrite Hs, Hi, Ha. repeat split.
Qed.

End InstallerMerge.

(* ===================================================================== *)
(** ** What the configuration loader prints *)
(* ===================================================================== *)

Section LoaderConsole.

Import ConfigService.

Variable JSON_parse : string -> Reply Json.

(** X18.  A call of [loadConfig] prints at most one line.  It prints
    nothing when the cache answers or the file is usable; the warning
    "config.json not found, using defaults" when the file is reported
    absent; and in every other case the line "Error loading config: "
    followed by the text of the very error that stopped the load: the error
    of [file.exists()], of [file.text()] or of [JSON.parse], the error of
    reading a property of [null], or the error "Invalid config: missing
    required fields". *)
Theorem loadConfig_prints_at_most_one_line (file : File) (st : State) :
  let after := console (fst (loadConfig JSON_parse file st)) in
  let reports err :=
    after = (console st
             ++ [console_error ("Error loading config: " ++ show_Error err)])%list in
  (truthy_property (cachedConfig st) = true -> after = console st)
  /\ (truthy_property (cachedConfig st) = false ->
      match file_exists file with
      | Failed err => reports err
      | Done false =>
          after = (console st
                   ++ [console_warn "config.json not found, using defaults"])%list
      | Done true =>
          match file_text file with
          | Failed err => reports err
          | Done body =>
              match JSON_parse body with
              | Failed err => reports err
              | Done config =>
                  match get_property config "logLevel",
                        get_property config "logFile" with
                  | Failed err, _ => reports err
                  | Done _, Failed err => reports err
                  | Done level, Done path =>
                      if truthy_property level && truthy_property path
                      then after = console st
                      else reports (new_Error "Invalid config: missing required fields")
                  end
              end
          end
      end).
Proof.
  intros after reports. subst after reports. cbv beta.
  unfold loadConfig, truthy_property at 1 2. split.
  - destruct (cachedConfig st) as [cached|]; [| discriminate].
    intros ->. reflexivity.
  - intros Hmiss.
    replace (console (fst match cachedConfig st with
                          | Some cached =>
                              if truthy_json cached then (st, Done cached)
                              else load_from_file JSON_parse file st
                          | None => load_from_file JSON_parse file st
                          end))
      with (console (fst (load_from_file JSON_parse file st)))
      by (destruct (cachedConfig st) as [cached|]; [now rewrite Hmiss | reflexivity]).
    unfold load_from_file, try_catch, bind, await, use_defaults, bind.
    destruct (file_exists file) as [[|]|e1]; cbn -[show_Error new_Error];
      try reflexivity.
    destruct (file_text file) as [body|e2]; cbn -[show_Error new_Error];
      try reflexivity.
    destruct (JSON_parse body) as [[ |b|n|s|items|fields]|e3];
      cbn -[show_Error new_Error]; try reflexivity.
    destruct (truthy_property (assoc "logLevel" fields)); cbn -[show_Error new_Error];
      try reflexivity.
    destruct (truthy_property (assoc "logFile" fields)); cbn -[show_Error new_Error];
      reflexivity.
Qed.

End LoaderConsole.

(* ===================================================================== *)
(** ** Further runs on the scripted backend and on sample data *)
(* ===================================================================== *)

Lemma every_wait_lasts_the_floored_interval_witness :
  let run := sendTelegramMessage (Scripted.muted false) 3 "Approve?" [yes_button]
               (Scripted.config [42] 0 250)
               (init_state (Scripted.start [])) in
  waits (trace (fst run)) = [1000; 1000; 1000]
  /\ Forall (fun ms => ms = Z.max 250 1000 /\ 1000 <= ms) (waits (trace (fst run))).
Proof.
  split; [reflexivity |].
  exact (every_wait_lasts_the_floored_interval (Scripted.muted false) 3 "Approve?"
           [yes_button] hasty_config (Scripted.config [42] 0 250) (Scripted.start [])
           eq_refl).
Defined.

(** A configuration file with [logLevel] and [logFile] only is loaded as it
    is: the object [loadConfig] returns has nothing under
    [telegramPollIntervalMs]. *)
Example loaded_config_may_lack_the_interval :
  snd (ConfigService.loadConfig sample_parse sample_file ConfigService.initial)
  = Done sample_config
  /\ ConfigService.get_property sample_config "telegramPollIntervalMs" = Done None.
Proof. split; reflexivity. Qed.

Lemma recipients_are_a_prefix_of_the_user_list_witness :
  [42] = recipients (trace (fst yes_run))
  /\ NoDup (recipients (trace (fst yes_run))).
Proof.
  destruct (recipients_are_a_prefix_of_the_user_list Scripted.backend 20 "Approve?"
              [yes_button] (Scripted.config [42] 5000 1000)
              (Scripted.start [Scripted.instant []; Scripted.instant [];
                               Scripted.instant [yes_press]]))
    as [(rest & Hids & Hall) [_ Hnodup]].
  rewrite (Hall ltac:(vm_compute; discriminate)), app_nil_r in Hids.
  split; [exact Hids |].
  apply Hnodup. apply NoDup_singleton.
Defined.

(** A user named twice in the list is sent the message twice. *)
Example a_user_listed_twice_is_sent_the_message_twice :
  recipients
    (trace (fst (Scripted.ask 20 "Approve?" [yes_button]
                   (Scripted.config [42; 42] 5000 1000)
                   [Scripted.instant []; Scripted.instant [yes_press]])))
  = [42; 42].
Proof. reflexivity. Qed.

Lemma delivery_stops_at_the_first_failed_send_witness :
  let run := sendTelegramMessage (Scripted.unreachable 43) 20 "Approve?" [yes_button]
               (Scripted.config [42; 43; 44] 5000 1000)
               (init_state (Scripted.start [Scripted.instant [yes_press]])) in
  snd run = Throw (MkError "GrammyError" "400: chat not found")
  /\ recipients (trace (fst run)) = [42; 43]
  /\ fetches (trace (fst run)) = [].
Proof.
  exact (delivery_stops_at_the_first_failed_send (Scripted.unreachable 43) 20 "Approve?"
           [yes_button] (Scripted.config [42; 43; 44] 5000 1000)
           (Scripted.start [Scripted.instant [yes_press]])
           [42] 43 [44] (MkError "GrammyError" "400: chat not found")
           eq_refl eq_refl
           (fun userId Hin w' =>
              match Hin with
              | or_introl Heq => eq_ind 42 (fun u => snd (sendMessage (Scripted.unreachable 43) u _ _ w') = Done tt) eq_refl userId Heq
              | or_intror Hnone => match Hnone with end
              end)
           (fun _ => eq_refl)).
Defined.

Lemma rejected_credentials_send_nothing_witness :
  let run := sendTelegramMessage Scripted.rejecting 20 "Approve?" [yes_button]
               (Scripted.config [42] 5000 1000)
               (init_state (Scripted.start [Scripted.instant [yes_press]])) in
  snd run = Throw (new_Error "Invalid Telegram bot token: GrammyError: 401: Unauthorized")
  /\ recipients (trace (fst run)) = []
  /\ fetches (trace (fst run)) = []
  /\ List.filter is_network_call (trace (fst run)) = [EvGetMe].
Proof.
  exact (rejected_credentials_send_nothing Scripted.rejecting 20 "Approve?" [yes_button]
           (Scripted.config [42] 5000 1000)
           (Scripted.start [Scripted.instant [yes_press]])
           (MkError "GrammyError" "401: Unauthorized")
           ltac:(vm_compute; discriminate) eq_refl (fun _ => eq_refl)).
Defined.

Lemma only_the_deadline_fails_a_delivered_exchange_witness :
  timeout_error = timeout_error
  /\ 0 < telegramTimeoutMs (Scripted.config [42] 5000 1000).
Proof.
  exact (only_the_deadline_fails_a_delivered_exchange (Scripted.muted false) 20 "Approve?"
           [yes_button] (Scripted.config [42] 5000 1000)
           (Scripted.start [Scripted.instant []; Scripted.instant [yes_press]])
           timeout_error eq_refl ltac:(vm_compute; reflexivity)).
Defined.

Lemma without_a_deadline_an_unanswered_exchange_never_ends_witness :
  let run := sendTelegramMessage (Scripted.muted false) 3 "Approve?" [yes_button]
               (Scripted.config [42] 0 250)
               (init_state (Scripted.start [Scripted.instant [yes_press]])) in
  snd run = Pending
  /\ waits (trace (fst run)) = [1000; 1000; 1000].
Proof.
  exact (without_a_deadline_an_unanswered_exchange_never_ends (Scripted.muted false) 3
           "Approve?" [yes_button] (Scripted.config [42] 0 250)
           (Scripted.start [Scripted.instant [yes_press]])
           ltac:(cbn; lia) (muted_never_matches false _ _) eq_refl).
Defined.

Lemma batch_stops_at_the_first_answer_witness :
  let st := init_state (Scripted.start []) in
  for_updates Scripted.backend [yes_button] users_42 ([yes_press] ++ [no_press]) st
  = for_updates Scripted.backend [yes_button] users_42 [yes_press] st
  /\ snd (for_updates Scripted.backend [yes_button] users_42 [yes_press] st)
     = Ok (Some "/yes-123").
Proof.
  split; [| reflexivity].
  exact (batch_stops_at_the_first_answer Scripted.backend [yes_button] users_42
           [yes_press] [no_press] (init_state (Scripted.start []))
           ltac:(vm_compute; discriminate)).
Defined.

Lemma pressing_a_rendered_button_answers_witness :
  let st := init_state (Scripted.start []) in
  In {| text := "Yes"; callback_data := "/yes-123" |} (inlineKeyboard [yes_button])
  /\ snd (for_updates Scripted.backend [yes_button] users_42 [yes_press] st)
     = Ok (Some "/yes-123").
Proof.
  exact (pressing_a_rendered_button_answers Scripted.backend [yes_button] users_42
           yes_button "/yes-123" (press (Some "/yes-123")) yes_press
           (init_state (Scripted.start []))
           (or_introl eq_refl) eq_refl eq_refl eq_refl eq_refl eq_refl eq_refl
           (fun _ _ _ => eq_refl)
           (fun matched arg w Hin =>
              match Hin with
              | or_introl Heq =>
                  eq_ind yes_button (fun cb => snd (handler cb arg w) = Done tt)
                    eq_refl matched Heq
              | or_intror Hnone => match Hnone with end
              end)).
Defined.

Lemma truncateMessage_fits_the_limit_witness :
  Js.length (Hooks.truncateMessage "abcdefghij" 8) = 8
  /\ Hooks.truncateMessage "abcdefghij" 8 = "abcde..."
  /\ Hooks.truncateMessage "abcdefgh" 8 = "abcdefgh".
Proof.
  destruct (truncateMessage_fits_the_limit "abcdefghij" 8 ltac:(lia)) as (_ & _ & Hlong).
  destruct (Hlong ltac:(vm_compute; reflexivity)) as (Hlen & Hcut & _).
  destruct (truncateMessage_fits_the_limit "abcdefgh" 8 ltac:(lia)) as (_ & Hshort & _).
  split; [exact Hlen | split; [exact Hcut | exact (Hshort ltac:(vm_compute; discriminate))]].
Defined.

Lemma truncateMessage_overshoots_a_small_limit_witness :
  Js.length (Hooks.truncateMessage "abcd" 2) = 6
  /\ 2 < Js.length (Hooks.truncateMessage "abcd" 2).
Proof.
  exact (truncateMessage_overshoots_a_small_limit "abcd" 2 ltac:(lia)
           ltac:(vm_compute; reflexivity)).
Defined.

Lemma formatToolInput_is_bounded_witness :
  Js.length (Hooks.formatToolInput sample_stringify (Some (ConfigService.JObject [])))
  <= Hooks.MAX_TOOL_INPUT_LENGTH
  /\ Hooks.formatToolInput sample_stringify (Some (ConfigService.JObject [])) = "{}".
Proof.
  destruct (formatToolInput_is_bounded sample_stringify (Some (ConfigService.JObject [])))
    as [Hbound Hsame].
  split; [exact Hbound |].
  exact (Hsame (ConfigService.JObject []) "{}" eq_refl ltac:(discriminate) eq_refl
           ltac:(vm_compute; discriminate)).
Defined.

Lemma reader_returns_the_last_messages_witness :
  Transcript.getLastUserAndAssistantMessages transcript_parse "/tmp/session.jsonl"
    transcript_file
  = ({| Transcript.lastUserMessage := Some "fix the bug";
        Transcript.lastAssistantMessage := Some "Done." |},
     [ConfigService.console_warn
        "Failed to parse transcript line: SyntaxError: JSON Parse error"]).
Proof.
  exact (eq_trans
           (reader_returns_the_last_messages transcript_parse "/tmp/session.jsonl"
              transcript_file transcript_body eq_refl eq_refl eq_refl)
           eq_refl).
Defined.

Lemma merged_settings_hold_every_hook_witness :
  Installer.hookExists
    (Installer.entries_of "Stop"
       (Installer.settings_hooks (Installer.merge_hooks repo_hooks (Some old_settings))))
    "/repo/src/hooks/stop.ts"
  = true.
Proof.
  exact (merged_settings_hold_every_hook repo_hooks (Some old_settings)
           "Stop" "/repo/src/hooks/stop.ts" (or_intror (or_introl eq_refl))).
Defined.

Lemma merge_keeps_what_was_configured_witness :
  Installer.entries_of "PreToolUse"
    (Installer.settings_hooks (Installer.merge_hooks repo_hooks (Some old_settings)))
  = Installer.entries_of "PreToolUse" old_settings.
Proof.
  destruct (merge_keeps_what_was_configured repo_hooks (Some old_settings) "PreToolUse")
    as (added & Hentries & Hnone & _).
  rewrite (Hnone ltac:(cbn; intuition discriminate)), app_nil_r in Hentries.
  exact Hentries.
Defined.

Lemma loadConfig_prints_at_most_one_line_witness :
  ConfigService.console
    (fst (ConfigService.loadConfig sample_parse absent_file ConfigService.initial))
  = [ConfigService.console_warn "config.json not found, using defaults"]
  /\ ConfigService.console
       (fst (ConfigService.loadConfig sample_parse garbled_file ConfigService.initial))
     = [ConfigService.console_error
          "Error loading config: SyntaxError: JSON Parse error"].
Proof.
  split.
  - exact (proj2 (loadConfig_prints_at_most_one_line sample_parse absent_file
                    ConfigService.initial) eq_refl).
  - exact (proj2 (loadConfig_prints_at_most_one_line sample_parse garbled_file
                    ConfigService.initial) eq_refl).
Defined.

Lemma every_send_carries_the_keyboard_witness :
  Some [[{| text := "Yes"; callback_data := "/yes-123" |}]]
  = Some [List.map button_of [yes_button]].
Proof.
  exact (every_send_carries_the_keyboard Scripted.backend 20 "Approve?" [yes_button]
           (Scripted.config [42] 5000 1000)
           (Scripted.start [Scripted.instant []; Scripted.instant [];
                            Scripted.instant [yes_press]])
           42 "Approve?" (Some [[{| text := "Yes"; callback_data := "/yes-123" |}]])
           ltac:(vm_compute; repeat (try (left; reflexivity); right))).
Defined.

Lemma a_press_only_reaches_a_rendered_button_witness :
  type yes_button = inline_button
  /\ In (button_of yes_button) (inlineKeyboard [yes_button]).
Proof.
  exact (proj2
           (a_press_only_reaches_a_rendered_button Scripted.backend 20 "Approve?"
              [yes_button] (Scripted.config [42] 5000 1000)
              (Scripted.start [Scripted.instant []; Scripted.instant [];
                               Scripted.instant [yes_press]])
              (FromCallbackQuery "q1") yes_button (ArgString "/yes-123")
              ltac:(vm_compute; repeat (try (left; reflexivity); right)))
           "q1" eq_refl).
Defined.
